(** * The production build pipeline of [src/commands/build.ts]

    A shallow embedding of the [command] function: worker registry, mount
    resolution, file routing, the three import-specifier rewriters, the
    build and plugin worker passes, the handler of a lint worker's output,
    and the filtered copy that precedes bundling.  JavaScript strings are
    modelled as [string], the two tables the function reads as finite maps
    together with the properties every object inherits, the status
    channel as the list of emitted events, the file system as an
    association list from absolute paths to nodes, and exceptions as an
    explicit [Throw] outcome that keeps the effects performed so far. *)

From stdpp Require Import gmap strings list.
From Stdlib Require Import ZArith Ascii String Lia.

Local Open Scope string_scope.
Local Open Scope Z_scope.
Local Open Scope list_scope.

(** ** JavaScript string primitives used by the source *)

Module Js.

(** [s.startsWith(p)] *)
Definition startsWith (s p : string) : bool := String.prefix p s.

(** [s.substr(1)] *)
Definition substr1 (s : string) : string :=
  match s with
  | EmptyString => EmptyString
  | String _ s' => s'
  end.

(** [s.includes(sub)] *)
Fixpoint includes (s sub : string) : bool :=
  String.prefix sub s ||
  match s with
  | EmptyString => false
  | String _ s' => includes s' sub
  end.

(** [s.endsWith(suf)] *)
Definition endsWith (s suf : string) : bool :=
  (String.length suf <=? String.length s)%nat &&
  String.eqb (substring (String.length s - String.length suf)
                        (String.length suf) s) suf.

(** The replacement patterns of [String.prototype.replace] that apply
    when the pattern has no capture groups: [$$] is a dollar sign, [$&]
    the matched text, [$`] the text before the match and [$'] the text
    after it; any other [$] stands for itself. *)
Fixpoint expand (rep matched before after : string) : string :=
  match rep with
  | EmptyString => EmptyString
  | String a rest =>
      if Ascii.eqb a "$" then
        match rest with
        | EmptyString => String a EmptyString
        | String b rest' =>
            if Ascii.eqb b "$" then String "$" (expand rest' matched before after)
            else if Ascii.eqb b "&" then matched +:+ expand rest' matched before after
            else if Ascii.eqb b "`" then before +:+ expand rest' matched before after
            else if Ascii.eqb b "'" then after +:+ expand rest' matched before after
            else String a (expand rest matched before after)
        end
      else String a (expand rest matched before after)
  end.

(** [s.replace(pat, rep)] with a string pattern: only the leftmost
    occurrence is replaced, by the expansion of [rep].  [before] is the
    text already passed. *)
Fixpoint replaceFrom (before s pat rep : string) : string :=
  if String.prefix pat s
  then let after := substring (String.length pat)
                              (String.length s - String.length pat) s in
       expand rep pat before after +:+ after
  else match s with
       | EmptyString => EmptyString
       | String c s' =>
           String c (replaceFrom (before +:+ String c EmptyString) s' pat rep)
       end.

Definition replace (s pat rep : string) : string :=
  replaceFrom EmptyString s pat rep.

(** [s.replace(new RegExp(`${ext}$`), rep)]: the pattern is the text of an
    extension anchored at the end of the input, so the only possible match
    is a final occurrence, which is replaced by the expansion of [rep].
    The text of [ext] is matched literally: the extensions that reach this
    call are property names of the extension table, taken to be plain
    names, without characters that are special in a regular expression. *)
Definition replaceAtEnd (s ext rep : string) : string :=
  if endsWith s ext
  then let before := substring 0 (String.length s - String.length ext) s in
       before +:+ expand rep ext before EmptyString
  else s.

(** [s.split(c)] for a one-character separator. *)
Fixpoint splitOn (c : ascii) (s : string) : list string :=
  match s with
  | EmptyString => [EmptyString]
  | String a s' =>
      if Ascii.eqb a c then EmptyString :: splitOn c s'
      else match splitOn c s' with
           | [] => [String a EmptyString]
           | w :: ws => String a w :: ws
           end
  end.

(** The ASCII members of the regular-expression class [\s]. *)
Definition isSpace (a : ascii) : bool :=
  let n := nat_of_ascii a in
  ((9 <=? n) && (n <=? 13))%nat || (n =? 32)%nat.

(** [s.split(/\s+/)]: [inSep] records that the previous character was
    white space, so that a run of white space separates once. *)
Fixpoint splitWsFrom (inSep : bool) (s : string) : list string :=
  match s with
  | EmptyString => [EmptyString]
  | String a s' =>
      if isSpace a
      then if inSep then splitWsFrom true s'
           else EmptyString :: splitWsFrom true s'
      else match splitWsFrom false s' with
           | [] => [String a EmptyString]
           | w :: ws => String a w :: ws
           end
  end.

Definition splitWs (s : string) : list string := splitWsFrom false s.

(** What [o[key]] finds in a plain object [o] with string values: a
    property of the object itself, a property that every object inherits
    from [Object.prototype], or nothing. *)
Inductive property :=
| Absent
| Own (value : string)
| Inherited (name : string).

(** The property names of [Object.prototype]. *)
Definition inheritedNames : list string :=
  ["constructor"; "__defineGetter__"; "__defineSetter__"; "hasOwnProperty";
   "__lookupGetter__"; "__lookupSetter__"; "isPrototypeOf";
   "propertyIsEnumerable"; "toString"; "valueOf"; "__proto__";
   "toLocaleString"].

Definition inherited (key : string) : bool :=
  existsb (String.eqb key) inheritedNames.

(** [o[key]], the own properties of [o] being given by a finite map. *)
Definition get (o : gmap string string) (key : string) : property :=
  match o !! key with
  | Some v => Own v
  | None => if inherited key then Inherited key else Absent
  end.

(** Truthiness: [undefined] and [''] are falsy; the inherited properties
    are functions, and an object for [__proto__]. *)
Definition truthy (v : property) : bool :=
  match v with
  | Absent => false
  | Own value => negb (String.eqb value EmptyString)
  | Inherited _ => true
  end.

(** What [s.replace(re, v)] puts in place of the text [matched] when [v]
    is an inherited property.  A function is called with the match, and
    with no receiver: [Object] answers the match itself, [toString]
    answers the tag of [undefined], [isPrototypeOf] answers [false] for an
    argument that is no object, and the others throw a [TypeError] for
    want of a receiver, which is [None] here.  The value of [__proto__]
    is an object, no function, and is converted to a string. *)
Definition inheritedReplacement (name matched : string) : option string :=
  if String.eqb name "constructor" then Some matched
  else if String.eqb name "toString" then Some "[object Undefined]"
  else if String.eqb name "isPrototypeOf" then Some "false"
  else if String.eqb name "__proto__" then Some "[object Object]"
  else None.

(** [s.replace(new RegExp(`${ext}$`), v)] for a value [v] found in a
    table.  A string is expanded as a replacement text; what an inherited
    property yields is put in as it is; [None] is the [TypeError]. *)
Definition replaceAtEndBy (s ext : string) (v : property) : option string :=
  match v with
  | Own rep => Some (replaceAtEnd s ext rep)
  | Inherited name =>
      if endsWith s ext
      then match inheritedReplacement name ext with
           | Some t =>
               Some (substring 0 (String.length s - String.length ext) s +:+ t)
           | None => None
           end
      else Some s
  | Absent => Some (replaceAtEnd s ext "undefined")
  end.

(** [v || d] *)
Definition orElse (v : property) (d : string) : property :=
  if truthy v then v else Own d.

(** [v === s] for a string [s] *)
Definition strictEq (v : property) (s : string) : bool :=
  match v with
  | Own value => String.eqb value s
  | _ => false
  end.

End Js.

(** ** Node's [path] module (POSIX flavour)

    [build.ts] calls [path.extname], [path.dirname], [path.resolve],
    [path.join] and [path.posix.resolve].  They belong to the runtime, not
    to the repository; [extname] and [dirname] follow the loops of the
    runtime's implementation, [resolve] and [join] its segment
    normalisation. *)

Module Path.

Definition slash : ascii := "/"%char.
Definition dot : ascii := "."%char.

(** The loop state of [extname]. *)
Record scan := Scan {
  startDot : Z;
  startPart : Z;
  endIdx : Z;
  matchedSlash : bool;
  preDotState : Z
}.

Definition scan0 : scan :=
  {| startDot := -1; startPart := 0; endIdx := -1;
     matchedSlash := true; preDotState := 0 |}.

(** One iteration on the character [c] at index [i]; the flag is [break]. *)
Definition extnameStep (c : ascii) (i : Z) (st : scan) : scan * bool :=
  if Ascii.eqb c slash then
    if negb (matchedSlash st)
    then (Scan (startDot st) (i + 1) (endIdx st) (matchedSlash st)
               (preDotState st), true)
    else (st, false)
  else
    let st1 :=
      if endIdx st =? -1
      then Scan (startDot st) (startPart st) (i + 1) false (preDotState st)
      else st in
    let st2 :=
      if Ascii.eqb c dot then
        if startDot st1 =? -1
        then Scan i (startPart st1) (endIdx st1) (matchedSlash st1)
                  (preDotState st1)
        else if negb (preDotState st1 =? 1)
             then Scan (startDot st1) (startPart st1) (endIdx st1)
                       (matchedSlash st1) 1
             else st1
      else if negb (startDot st1 =? -1)
           then Scan (startDot st1) (startPart st1) (endIdx st1)
                     (matchedSlash st1) (-1)
           else st1 in
    (st2, false).

(** The loop [for (i = path.length - 1; i >= 0; --i)], run over the
    characters in reverse; [i] is the index of the head of [cs]. *)
Fixpoint extnameLoop (cs : list ascii) (i : Z) (st : scan) : scan :=
  match cs with
  | [] => st
  | c :: cs' =>
      let '(st', stop) := extnameStep c i st in
      if stop then st' else extnameLoop cs' (i - 1) st'
  end.

(** [path.slice(a, b)] for [0 <= a <= b]. *)
Definition slice (s : string) (a b : Z) : string :=
  substring (Z.to_nat a) (Z.to_nat (b - a)) s.

Definition extname (p : string) : string :=
  let n := Z.of_nat (String.length p) in
  let st := extnameLoop (rev (list_ascii_of_string p)) (n - 1) scan0 in
  if (startDot st =? -1) || (endIdx st =? -1) || (preDotState st =? 0) ||
     ((preDotState st =? 1) && (startDot st =? endIdx st - 1) &&
      (startDot st =? startPart st + 1))
  then EmptyString
  else slice p (startDot st) (endIdx st).

(** The loop of [dirname], [for (i = path.length - 1; i >= 1; --i)]:
    returns [end], or [-1] when no separator ends a directory part. *)
Fixpoint dirnameLoop (cs : list ascii) (i : Z) (matched : bool) : Z :=
  match cs with
  | [] => -1
  | c :: cs' =>
      if i <? 1 then -1
      else if Ascii.eqb c slash then
             if negb matched then i else dirnameLoop cs' (i - 1) matched
           else dirnameLoop cs' (i - 1) false
  end.

Definition dirname (p : string) : string :=
  match p with
  | EmptyString => "."
  | String c0 _ =>
      let hasRoot := Ascii.eqb c0 slash in
      let n := Z.of_nat (String.length p) in
      let e := dirnameLoop (rev (list_ascii_of_string p)) (n - 1) true in
      if e =? -1 then (if hasRoot then "/" else ".")
      else if hasRoot && (e =? 1) then "//"
      else slice p 0 e
  end.

(** Segment normalisation of an absolute path: empty and ["."] segments
    vanish, [".."] removes the segment before it (and nothing at the
    root).  [acc] holds the kept segments, innermost first. *)
Fixpoint normalizeSegs (segs acc : list string) : list string :=
  match segs with
  | [] => rev acc
  | s :: rest =>
      if String.eqb s EmptyString || String.eqb s "." then normalizeSegs rest acc
      else if String.eqb s ".." then normalizeSegs rest (tail acc)
      else normalizeSegs rest (s :: acc)
  end.

Fixpoint joinSegs (segs : list string) : string :=
  match segs with
  | [] => EmptyString
  | s :: rest => "/" +:+ s +:+ joinSegs rest
  end.

Definition normalizeAbs (p : string) : string :=
  match normalizeSegs (Js.splitOn slash p) [] with
  | [] => "/"
  | segs => joinSegs segs
  end.

Definition isAbsolute (p : string) : bool := Js.startsWith p "/".

(** [path.resolve(base, p)] for an absolute [base]: an absolute [p]
    wins, an empty [p] is skipped, anything else is taken under [base]. *)
Definition resolve (base p : string) : string :=
  if isAbsolute p then normalizeAbs p
  else normalizeAbs (base +:+ "/" +:+ p).

(** [path.join(base, p)] for an absolute [base]. *)
Definition join (base p : string) : string :=
  normalizeAbs (base +:+ "/" +:+ p).

End Path.

(** ** Data model *)

(** An entry of [config.scripts]. *)
Record DevScript := { cmd : string; watch : option string }.

(** Events published on [messageBus]. *)
Inductive event :=
| WORKER_UPDATE (id state : string)
| WORKER_MSG (id level msg : string)
| WORKER_COMPLETE (id : string) (error : option string)
| MISSING_WEB_MODULE (specifier : string)
| CONSOLE (level msg : string).

(** Modelled from the spec: the lexer behind [transformEsmImports]
    ([../rewrite-imports] is not part of the sources).  A unit of script
    text is kept in lexed form: the import and export specifiers it
    contains, separated by the text between them. *)
Inductive chunk :=
| Text (t : string)
| Import (spec : string).

Definition code := list chunk.

(** [!stdout]: the text is the empty string. *)
Definition isEmptyCode (c : code) : bool :=
  forallb (fun ch => match ch with Text EmptyString => true | _ => false end) c.

Inductive node :=
| File (content : code)
| Dir.

(** The file system: absolute paths and what they hold. *)
Definition fileSystem := list (string * node).

(** Result of [execa.command]: the promise rejects on a non-zero exit. *)
Record ExecResult := { exitCode : Z; stdout : code; stderr : string }.

(** Everything [command] reads from its surroundings. *)
Record World := {
  (** [./src-file-extension-mapping], a table that is not part of the
      sources; its keys and values are extension names without the dot.
      The map holds the properties of the table object itself; what the
      object inherits is added where the table is read, see [Js.get]. *)
  srcFileExtensionMapping : gmap string string;
  (** [require(dependencyImportMapLoc)]: [None] when the file is absent;
      the properties of the [imports] object itself otherwise. *)
  importMapFile : option (gmap string string);
  (** whether [require.resolve('parcel-bundler')] succeeds *)
  parcelInstalled : bool;
  (** matcher for [config.exclude] *)
  excluded : string -> bool;
  (** a build or lint process: command line, then the file piped in *)
  execa : fileSystem -> string -> string -> ExecResult;
  (** [require(require.resolve(cmd)).build]: [None] when the module cannot
      be resolved; the operation fails with a message or yields a result *)
  plugins : string -> option (fileSystem -> string -> string + code);
  (** [wrapEsmProxyResponse] of [./build-util] *)
  wrapEsmProxyResponse : string -> code -> string -> code
}.

Record Config := {
  scripts : list (string * DevScript);   (* [Object.entries] order *)
  bundle : option bool;                  (* [devOptions.bundle] *)
  out : string                           (* [devOptions.out], absolute *)
}.

(** The mutable state [command] works on.  The two sets are declared by
    [const] in the middle of the function body (lines 264-265): until
    control reaches the declaration the binding is uninitialised, which is
    [None] here, and any use of it throws (a [ReferenceError]; were the
    declaration lowered to [var], the call of a method of [undefined]
    would throw a [TypeError] at the same place). *)
Record state := {
  bus : list event;                        (* oldest first *)
  disk : fileSystem;
  allBuiltFromFiles : option (list string);
  allProxiedFiles : option (list string)   (* insertion order, no repeats *)
}.

Inductive outcome (A : Type) :=
| Ok (a : A) (st : state)
| Throw (err : string) (st : state).
Arguments Ok {A} a st.
Arguments Throw {A} err st.

Definition M (A : Type) : Type := state -> outcome A.

Definition ret {A} (a : A) : M A := fun st => Ok a st.

Definition bind {A B} (m : M A) (k : A -> M B) : M B :=
  fun st => match m st with
            | Ok a st' => k a st'
            | Throw e st' => Throw e st'
            end.

Definition throw {A} (e : string) : M A := fun st => Throw e st.

Notation "'do' x <- m ; k" := (bind m (fun x => k))
  (at level 10, x name, m at level 100, k at level 200).
Notation "'run' m ; k" := (bind m (fun _ => k))
  (at level 10, m at level 100, k at level 200).

Definition finalState {A} (o : outcome A) : state :=
  match o with Ok _ st => st | Throw _ st => st end.

Definition threw {A} (o : outcome A) : bool :=
  match o with Ok _ _ => false | Throw _ _ => true end.

(** [messageBus.emit] *)
Definition emit (e : event) : M unit :=
  fun st => Ok tt {| bus := bus st ++ [e]; disk := disk st;
                     allBuiltFromFiles := allBuiltFromFiles st;
                     allProxiedFiles := allProxiedFiles st |}.

Definition setDisk (d : fileSystem) : M unit :=
  fun st => Ok tt {| bus := bus st; disk := d;
                     allBuiltFromFiles := allBuiltFromFiles st;
                     allProxiedFiles := allProxiedFiles st |}.

Definition getDisk : M fileSystem := fun st => Ok (disk st) st.

(** [Set.prototype.add] on a set kept in insertion order. *)
Definition setAdd (x : string) (l : list string) : list string :=
  if existsb (String.eqb x) l then l else l ++ [x].

(** [allProxiedFiles.add(x)] *)
Definition proxiedAdd (x : string) : M unit :=
  fun st => match allProxiedFiles st with
            | None =>
                Throw "ReferenceError: Cannot access 'allProxiedFiles' before initialization" st
            | Some l =>
                Ok tt {| bus := bus st; disk := disk st;
                         allBuiltFromFiles := allBuiltFromFiles st;
                         allProxiedFiles := Some (setAdd x l) |}
            end.

(** [allBuiltFromFiles.add(x)] *)
Definition builtAdd (x : string) : M unit :=
  fun st => match allBuiltFromFiles st with
            | None =>
                Throw "ReferenceError: Cannot access 'allBuiltFromFiles' before initialization" st
            | Some l =>
                Ok tt {| bus := bus st; disk := disk st;
                         allBuiltFromFiles := Some (setAdd x l);
                         allProxiedFiles := allProxiedFiles st |}
            end.

(** Lines 264-265: [new Set()] twice. *)
Definition declareSets : M unit :=
  fun st => Ok tt {| bus := bus st; disk := disk st;
                     allBuiltFromFiles := Some [];
                     allProxiedFiles := Some [] |}.

(** ** File-system operations *)

Module Fs.

Fixpoint lookup (p : string) (d : fileSystem) : option node :=
  match d with
  | [] => None
  | (q, n) :: rest => if String.eqb p q then Some n else lookup p rest
  end.

(** [p] lies strictly below directory [dir]. *)
Definition under (dir p : string) : bool := Js.startsWith p (dir +:+ "/").

Definition within (dir p : string) : bool := String.eqb p dir || under dir p.

(** [rimraf.sync(dir)] *)
Definition rimraf (dir : string) (d : fileSystem) : fileSystem :=
  List.filter (fun e => negb (within dir (fst e))) d.

Definition put (p : string) (n : node) (d : fileSystem) : fileSystem :=
  List.filter (fun e => negb (String.eqb (fst e) p)) d ++ [(p, n)].

(** The directory [dir] and the directories above it, outermost first. *)
Fixpoint prefixes (acc : string) (segs : list string) : list string :=
  match segs with
  | [] => []
  | s :: rest => (acc +:+ "/" +:+ s) :: prefixes (acc +:+ "/" +:+ s) rest
  end.

Definition ancestors (dir : string) : list string :=
  prefixes EmptyString (Path.normalizeSegs (Js.splitOn Path.slash dir) []).

(** [mkdirp.sync(dir)] and [fs.mkdir(dir, {recursive: true})]: fails
    when a path on the way is a file. *)
Fixpoint mkdirs (dirs : list string) (d : fileSystem) : option fileSystem :=
  match dirs with
  | [] => Some d
  | p :: rest =>
      match lookup p d with
      | Some Dir => mkdirs rest d
      | Some (File _) => None
      | None => mkdirs rest (d ++ [(p, Dir)])
      end
  end.

Definition isDir (p : string) (d : fileSystem) : bool :=
  String.eqb p "/" ||
  match lookup p d with Some Dir => true | _ => false end.

(** regular files below [dir], in directory order *)
Definition filesUnder (dir : string) (d : fileSystem) : list string :=
  map fst (List.filter
             (fun e => match snd e with
                       | File _ => under dir (fst e)
                       | Dir => false
                       end) d).

End Fs.

Definition mkdirp (dir : string) : M unit :=
  do d <- getDisk;
  match Fs.mkdirs (Fs.ancestors dir) d with
  | Some d' => setDisk d'
  | None => throw ("EEXIST: " +:+ dir)
  end.

Definition rimraf (dir : string) : M unit :=
  do d <- getDisk; setDisk (Fs.rimraf dir d).

Definition readFile (p : string) : M code :=
  do d <- getDisk;
  match Fs.lookup p d with
  | Some (File c) => ret c
  | Some Dir => throw ("EISDIR: " +:+ p)
  | None => throw ("ENOENT: " +:+ p)
  end.

Definition writeFile (p : string) (c : code) : M unit :=
  do d <- getDisk;
  if negb (Fs.isDir (Path.dirname p) d) then throw ("ENOENT: " +:+ p)
  else match Fs.lookup p d with
       | Some Dir => throw ("EISDIR: " +:+ p)
       | _ => setDisk (Fs.put p (File c) d)
       end.

Definition copyFile (src dst : string) : M unit :=
  do c <- readFile src; writeFile dst c.

(** ** The pipeline *)

Inductive pass := MountPass | BuildPass | PluginPass.

(** The first conjunct of the proxy test in each of the three rewriting
    callbacks: [!isBundled] on lines 240 and 315, nothing on line 365. *)
Definition proxyGuard (p : pass) (isBundled : bool) : bool :=
  match p with
  | MountPass => negb isBundled
  | BuildPass => negb isBundled
  | PluginPass => true
  end.

(** [spec.startsWith('/') || spec.startsWith('./') || spec.startsWith('../')] *)
Definition isPathSpec (spec : string) : bool :=
  Js.startsWith spec "/" || Js.startsWith spec "./" || Js.startsWith spec "../".

(** Modelled from the spec: [transformEsmImports] of [../rewrite-imports],
    which is not part of the sources.  It hands every import or export
    specifier of the unit to the callback and puts the answer in its
    place; the text around the specifiers is kept. *)
Fixpoint transformEsmImports (c : code) (replaceImport : string -> M string)
  : M code :=
  match c with
  | [] => ret []
  | Text t :: rest =>
      do rest' <- transformEsmImports rest replaceImport;
      ret (Text t :: rest')
  | Import spec :: rest =>
      do spec' <- replaceImport spec;
      do rest' <- transformEsmImports rest replaceImport;
      ret (Import spec' :: rest')
  end.

(** yargs-parser on the tokens of a mount command, read at the [to]
    option: the value that follows [--to].  The other spelling of the
    option, [--to=value], and the values that the parser would not keep
    as a string (a text that reads as a number, a repeated or value-less
    flag), which [path.resolve] then rejects, are outside this model. *)
Fixpoint yargsTo (args : list string) : option string :=
  match args with
  | flag :: ((value :: _) as rest) =>
      if String.eqb flag "--to" then Some value else yargsTo rest
  | _ => None
  end.

(** [path.resolve] rejects an argument that is not a string. *)
Definition typeError : string :=
  "TypeError: The path argument must be of type string".

(** A method of [Object.prototype] called without a receiver. *)
Definition receiverError : string :=
  "TypeError: Cannot convert undefined or null to object".

Definition orThrow {A} (err : string) (o : option A) : M A :=
  match o with
  | Some a => ret a
  | None => throw err
  end.

Section Pipeline.

Variable w : World.
Variable cwd : string.
Variable config : Config.

Definition allRegisteredWorkers : list (string * DevScript) := scripts config.

(** Lines 34-40. *)
Definition dependencyImportMap : gmap string string :=
  match importMapFile w with
  | Some m => m
  | None => ∅
  end.

(** Lines 42-51. *)
Definition isBundledHardcoded : bool :=
  match bundle config with Some _ => true | None => false end.

Definition isBundled : bool :=
  match bundle config with
  | Some b => b
  | None => parcelInstalled w
  end.

(** Lines 53-54. *)
Definition buildDirectoryLoc : string :=
  if isBundled then Path.join cwd ".build" else out config.

Definition finalDirectoryLoc : string := out config.

(** *** The import rewriter (lines 227-252, 302-327 and 352-377)

    The three callbacks are the same text up to the proxy test, which
    [proxyGuard] tells apart. *)
Definition rewriteImport (p : pass) (outPath spec : string) : M string :=
  if Js.startsWith spec "http" then ret spec
  else if isPathSpec spec then
    let ext := Js.substr1 (Path.extname spec) in
    if String.eqb ext EmptyString then ret (spec +:+ ".js")
    else
      let extToReplace := Js.get (srcFileExtensionMapping w) ext in
      do spec1 <- (if Js.truthy extToReplace
                   then orThrow receiverError
                                (Js.replaceAtEndBy spec ext extToReplace)
                   else ret spec);
      if proxyGuard p isBundled &&
         negb (Js.strictEq (Js.orElse extToReplace ext) "js")
      then
        let resolvedUrl := Path.resolve (Path.dirname outPath) spec1 in
        run proxiedAdd resolvedUrl;
        ret (spec1 +:+ ".proxy.js")
      else ret spec1
  else
    let target := Js.get dependencyImportMap spec in
    if Js.truthy target then
      match target with
      | Js.Own t => ret (Path.resolve "/web_modules" t)
      | _ => throw typeError
      end
    else
      run emit (MISSING_WEB_MODULE spec);
      ret ("/web_modules/" +:+ spec +:+ ".js").

(** *** Mount commands *)

(** Lines 67-71 and 183-187: split, check the directive, [shift]. *)
Definition mountTokens (id : string) (script : DevScript) : M (list string) :=
  match Js.splitWs (cmd script) with
  | first :: rest =>
      if String.eqb first "mount" then ret rest
      else throw ("script[" +:+ id +:+ "] must use the mount command")
  | [] => throw ("script[" +:+ id +:+ "] must use the mount command")
  end.

(** Lines 62-81, one iteration: [None] for scripts that are not mounts. *)
Definition mountedDirectory (entry : string * DevScript)
  : M (option (string * option string)) :=
  let '(id, workerConfig) := entry in
  if negb (Js.startsWith id "mount:") then ret None
  else
    do cmdArr <- mountTokens id workerConfig;
    match cmdArr with
    | [] => throw typeError
    | [src] => ret (Some (Path.resolve cwd src, Some src))
    | src :: _ => ret (Some (Path.resolve cwd src, yargsTo cmdArr))
    end.

Fixpoint mountedDirectories (entries : list (string * DevScript))
  : M (list (string * option string)) :=
  match entries with
  | [] => ret []
  | e :: rest =>
      do r <- mountedDirectory e;
      do rs <- mountedDirectories rest;
      ret (match r with Some m => m :: rs | None => rs end)
  end.

(** Lines 178-198, one element of the [map]; [None] is the [false] that
    [filter(Boolean)] drops. *)
Definition mountDirDetail (entry : string * DevScript)
  : M (option (string * string * string)) :=
  let '(id, scriptConfig) := entry in
  if negb (Js.startsWith id "mount:") then ret None
  else
    do cmdArr <- mountTokens id scriptConfig;
    match cmdArr with
    | [] => throw typeError
    | [src] =>
        ret (Some (id, Path.resolve cwd src, Path.resolve buildDirectoryLoc src))
    | src :: _ =>
        match yargsTo cmdArr with
        | Some to =>
            ret (Some (id, Path.resolve cwd src, Path.resolve buildDirectoryLoc to))
        | None => throw typeError
        end
    end.

Fixpoint mountDirDetails (entries : list (string * DevScript))
  : M (list (string * string * string)) :=
  match entries with
  | [] => ret []
  | e :: rest =>
      do r <- mountDirDetail e;
      do rs <- mountDirDetails rest;
      ret (match r with Some m => m :: rs | None => rs end)
  end.

(** *** Worker registry (lines 91-109) *)

Definition isRelevant (id : string) : bool :=
  Js.startsWith id "build:" || Js.startsWith id "plugin:" ||
  Js.startsWith id "lintall:" || Js.startsWith id "mount:".

Definition isTransformer (id : string) : bool :=
  Js.startsWith id "build:" || Js.startsWith id "plugin:".

(** [id.split(':')[1].split(',')] *)
Definition declaredExtensions (id : string) : list string :=
  Js.splitOn ","%char (nth 1 (Js.splitOn ":"%char id) EmptyString).

Definition relevantWorkers : list (string * DevScript) :=
  List.filter (fun e => isRelevant (fst e)) allRegisteredWorkers
  ++ [("bundle:*", {| cmd := "NA"; watch := None |})].

Definition allBuildExtensions : list string :=
  flat_map (fun e => if isTransformer (fst e)
                     then declaredExtensions (fst e) else [])
           allRegisteredWorkers.

(** Lines 83-88. *)
Definition cleanOutput : M unit :=
  run rimraf finalDirectoryLoc;
  run mkdirp finalDirectoryLoc;
  if negb (String.eqb finalDirectoryLoc buildDirectoryLoc)
  then run rimraf buildDirectoryLoc; mkdirp buildDirectoryLoc
  else ret tt.

(** *** Lint workers (lines 133-176 and 387)

    A lint process runs beside the pipeline and is awaited on line 387.
    Its messages reach the bus at times the model does not fix; they are
    placed at the point where the promise is awaited. *)
Fixpoint startLintWorkers (workers : list (string * DevScript))
  : M (list (string * ExecResult)) :=
  match workers with
  | [] => ret []
  | (id, workerConfig) :: rest =>
      if negb (Js.startsWith id "lintall:") then startLintWorkers rest
      else
        run emit (WORKER_UPDATE id "RUNNING");
        do d <- getDisk;
        do ps <- startLintWorkers rest;
        ret ((id, execa w d (cmd workerConfig) EmptyString) :: ps)
  end.

Fixpoint awaitLintWorkers (ps : list (string * ExecResult)) : M bool :=
  match ps with
  | [] => ret true
  | (id, r) :: rest =>
      run (if negb (String.eqb (stderr r) EmptyString)
           then emit (WORKER_MSG id "error" (stderr r)) else ret tt);
      if exitCode r =? 0
      then run emit (WORKER_COMPLETE id None); awaitLintWorkers rest
      else
        run emit (WORKER_MSG id "error" "Command failed");
        run emit (WORKER_COMPLETE id (Some "Command failed"));
        run awaitLintWorkers rest;
        ret false
  end.

(** *** Mount-level pass (lines 200-262) *)

(** [glob.sync('**/*', {cwd: dirDisk, ignore, absolute, nodir, dot})].
    The files come in the order in which the disk lists them, which
    stands for the sorted order of [glob]. *)
Definition globSync (dirDisk : string) : M (list string) :=
  do d <- getDisk;
  ret (List.filter (fun f => negb (excluded w f)) (Fs.filesUnder dirDisk d)).

(** The body of the [allFiles.map] callback (lines 215-253).  [Some f]
    means the file was pushed onto [allBuildNeededFiles]. *)
Definition mountFileTask (dirDisk dirDest f0 : string) : M (option string) :=
  let f := Path.resolve cwd f0 in
  if existsb (String.eqb (Js.substr1 (Path.extname f))) allBuildExtensions
  then ret (Some f)
  else
    let outPath := Js.replace f dirDisk dirDest in
    run mkdirp (Path.dirname outPath);
    if negb (String.eqb (Path.extname f) ".js")
    then run copyFile f outPath; ret None
    else
      do code0 <- readFile f;
      do code1 <- transformEsmImports code0 (rewriteImport MountPass outPath);
      run writeFile outPath code1;
      ret None.

(** [Promise.all] over the tasks of one mount.  Every task has been
    started before any of them settles, so all of them run whether or
    not another one fails; they are taken in enumeration order.  The
    result holds the files pushed onto [allBuildNeededFiles] and the
    first rejection, if any.

    This is one schedule among those the program has: the one in which
    every task has settled when the mount is reported.  [Promise.all]
    itself rejects with the first rejection, and the tasks that are still
    pending then go on while the function proceeds, so that what they
    publish and write can come later than it does here.  For a mount none
    of whose tasks fails the schedules differ in the order of the tasks
    only. *)
Fixpoint settleAll (dirDisk dirDest : string) (files : list string)
         (st : state) : list string * option string * state :=
  match files with
  | [] => ([], None, st)
  | f :: rest =>
      match mountFileTask dirDisk dirDest f st with
      | Ok r st1 =>
          let '(needed, err, st2) := settleAll dirDisk dirDest rest st1 in
          (match r with Some g => g :: needed | None => needed end, err, st2)
      | Throw e st1 =>
          let '(needed, _, st2) := settleAll dirDisk dirDest rest st1 in
          (needed, Some e, st2)
      end
  end.

(** One iteration of the loop on line 201, with its [try]/[catch]. *)
Definition mountOne (detail : string * string * string)
  : M (option (string * string * list string)) :=
  let '(id, dirDisk, dirDest) := detail in
  run emit (WORKER_UPDATE id "RUNNING");
  do allFiles <- globSync dirDisk;
  fun st =>
    match settleAll dirDisk dirDest allFiles st with
    | (allBuildNeededFiles, None, st1) =>
        (run emit (WORKER_COMPLETE id None);
         ret (Some (dirDisk, dirDest, allBuildNeededFiles))) st1
    | (_, Some err, st1) =>
        (run emit (WORKER_MSG id "error" err);
         run emit (WORKER_COMPLETE id (Some err));
         ret None) st1
    end.

Fixpoint mountAll (details : list (string * string * string))
  : M (list (string * string * list string)) :=
  match details with
  | [] => ret []
  | d :: rest =>
      do r <- mountOne d;
      do rs <- mountAll rest;
      ret (match r with Some s => s :: rs | None => rs end)
  end.

(** *** Build and plugin workers (lines 266-385) *)

(** Line 274: the test that lets a worker take a file. *)
Definition takesFile (id f : string) : bool :=
  let fileExtension := Js.substr1 (Path.extname f) in
  Js.includes id (":" +:+ fileExtension) ||
  Js.includes id ("," +:+ fileExtension).

(** Lines 294-299 and 344-349; [None] is the [TypeError] of a replacer
    that has no receiver. *)
Definition outputPath (dirDisk dirDest f : string) : option string :=
  let outPath := Js.replace f dirDisk dirDest in
  let extToFind := Js.substr1 (Path.extname f) in
  let extToReplace := Js.get (srcFileExtensionMapping w) extToFind in
  if Js.truthy extToReplace
  then Js.replaceAtEndBy outPath extToFind extToReplace
  else Some outPath.

(** Lines 300-330 and 350-380. *)
Definition writeOutput (p : pass) (outPath : string) (result : code) : M unit :=
  do code1 <- (if String.eqb (Path.extname outPath) ".js"
               then transformEsmImports result (rewriteImport p outPath)
               else ret result);
  run mkdirp (Path.dirname outPath);
  writeFile outPath code1.

(** Lines 279-332. *)
Definition runBuildWorker (workerConfig : DevScript)
           (dirDisk dirDest f : string) : M unit :=
  let cmd1 := Js.replace (cmd workerConfig) "$FILE" f in
  do d <- getDisk;
  let r := execa w d cmd1 f in
  if negb (exitCode r =? 0) then throw ("Command failed: " +:+ cmd1)
  else
    run (if negb (String.eqb (stderr r) EmptyString)
         then emit (CONSOLE "error" (stderr r)) else ret tt);
    if isEmptyCode (stdout r) then ret tt
    else
      do outPath <- orThrow receiverError (outputPath dirDisk dirDest f);
      run writeOutput BuildPass outPath (stdout r);
      builtAdd f.

(** Lines 333-381. *)
Definition runPluginWorker (id : string) (workerConfig : DevScript)
           (dirDisk dirDest f : string) : M unit :=
  match plugins w (cmd workerConfig) with
  | None => throw ("Cannot find module '" +:+ cmd workerConfig +:+ "'")
  | Some build =>
      do d <- getDisk;
      match build d f with
      | inl message =>
          let err := "[" +:+ id +:+ "] " +:+ message in
          run emit (CONSOLE "error" err);
          emit (WORKER_COMPLETE id (Some err))
      | inr result =>
          do outPath <- orThrow receiverError (outputPath dirDisk dirDest f);
          writeOutput PluginPass outPath result
      end
  end.

(** The body of the loop on line 272.  An id starts with at most one of
    the two prefixes, so the two [if] statements are alternatives. *)
Definition transformFile (id : string) (workerConfig : DevScript)
           (dirDisk dirDest f : string) : M unit :=
  if negb (takesFile id f) then ret tt
  else if Js.startsWith id "build:"
       then runBuildWorker workerConfig dirDisk dirDest f
       else if Js.startsWith id "plugin:"
            then runPluginWorker id workerConfig dirDisk dirDest f
            else ret tt.

Fixpoint transformFiles (id : string) (workerConfig : DevScript)
         (dirDisk dirDest : string) (allFiles : list string) : M unit :=
  match allFiles with
  | [] => ret tt
  | f :: rest =>
      run transformFile id workerConfig dirDisk dirDest f;
      transformFiles id workerConfig dirDisk dirDest rest
  end.

Fixpoint transformSets (id : string) (workerConfig : DevScript)
         (includeFileSets : list (string * string * list string)) : M unit :=
  match includeFileSets with
  | [] => ret tt
  | (dirDisk, dirDest, allFiles) :: rest =>
      run transformFiles id workerConfig dirDisk dirDest allFiles;
      transformSets id workerConfig rest
  end.

Fixpoint workerPass (workers : list (string * DevScript))
         (includeFileSets : list (string * string * list string)) : M unit :=
  match workers with
  | [] => ret tt
  | (id, workerConfig) :: rest =>
      if negb (isTransformer id) then workerPass rest includeFileSets
      else
        run emit (WORKER_UPDATE id "RUNNING");
        run transformSets id workerConfig includeFileSets;
        run emit (WORKER_COMPLETE id None);
        workerPass rest includeFileSets
  end.

(** *** Proxy modules (lines 389-396) *)

Fixpoint writeProxies (locs : list string) : M unit :=
  match locs with
  | [] => ret tt
  | proxiedFileLoc :: rest =>
      do proxiedCode <- readFile proxiedFileLoc;
      let proxiedExt := Path.extname proxiedFileLoc in
      let proxiedUrl :=
        substring (String.length buildDirectoryLoc)
                  (String.length proxiedFileLoc) proxiedFileLoc in
      let proxyCode := wrapEsmProxyResponse w proxiedUrl proxiedCode proxiedExt in
      run writeFile (proxiedFileLoc +:+ ".proxy.js") proxyCode;
      writeProxies rest
  end.

Definition proxyPass : M unit :=
  fun st => match allProxiedFiles st with
            | Some locs => writeProxies locs st
            | None => Throw "ReferenceError" st
            end.

(** *** The copy that precedes bundling (lines 417-425) *)

(** The [filter] option of [copy]: line 419. *)
Definition copyFilter (built : list string) (srcLoc : string) : bool :=
  negb (existsb (String.eqb srcLoc) built).

(** [copy] walks the tree from [buildDirectoryLoc] and asks the filter
    at every directory and file on the way; a refused directory is not
    entered. *)
Definition copied (built : list string) (p : string) : bool :=
  Fs.within buildDirectoryLoc p &&
  forallb (fun q => negb (Fs.within buildDirectoryLoc q) || copyFilter built q)
          (Fs.ancestors p).

Definition copyTarget (p : string) : string :=
  finalDirectoryLoc +:+
  substring (String.length buildDirectoryLoc) (String.length p) p.

Fixpoint copyEntries (built : list string) (entries d : fileSystem)
  : fileSystem :=
  match entries with
  | [] => d
  | (p, n) :: rest =>
      copyEntries built rest
        (if copied built p then Fs.put (copyTarget p) n d else d)
  end.

Definition prepareBuildDirectoryForParcel : M unit :=
  fun st => match allBuiltFromFiles st with
            | Some built => setDisk (copyEntries built (disk st) (disk st)) st
            | None => Throw "ReferenceError" st
            end.

(** *** [command] *)

(** Lines 90-425: everything that follows the cleaning of the output
    directories.  With bundling disabled this is the rest of the
    function.  With bundling enabled the model stops after the filtered
    copy: the staging of the manifest and the run of the bundler are not
    part of it. *)
Definition afterClean : M unit :=
  run (if negb isBundled then emit (WORKER_UPDATE "bundle:*" "SKIP")
       else ret tt);
  do lint <- startLintWorkers relevantWorkers;
  do details <- mountDirDetails relevantWorkers;
  do includeFileSets <- mountAll details;
  run declareSets;
  run workerPass relevantWorkers includeFileSets;
  do lintOk <- awaitLintWorkers lint;
  run (if lintOk then ret tt else throw "Command failed");
  run proxyPass;
  if negb isBundled then
    run emit (WORKER_COMPLETE "bundle:*" None);
    run emit (WORKER_UPDATE "bundle:*" "SKIP");
    if negb isBundledHardcoded
    then emit (WORKER_MSG "bundle:*" "log"
                 "npm install --save-dev parcel-bundler")
    else ret tt
  else
    run emit (WORKER_UPDATE "bundle:*" "RUNNING");
    prepareBuildDirectoryForParcel.

(** Lines 126-387: the part of [afterClean] that ends where the lint
    processes are awaited.  The answer tells whether all of them have
    succeeded. *)
Definition untilLintAwaited : M bool :=
  run (if negb isBundled then emit (WORKER_UPDATE "bundle:*" "SKIP")
       else ret tt);
  do lint <- startLintWorkers relevantWorkers;
  do details <- mountDirDetails relevantWorkers;
  do includeFileSets <- mountAll details;
  run declareSets;
  run workerPass relevantWorkers includeFileSets;
  awaitLintWorkers lint.

(** Lines 25-89, then [afterClean]. *)
Definition command : M unit :=
  if (List.length allRegisteredWorkers =? 0)%nat then ret tt
  else
    run mountedDirectories allRegisteredWorkers;
    run cleanOutput;
    afterClean.

End Pipeline.

(** The state [command] starts from: an empty bus, the disk as found, and
    neither set declared yet. *)
Definition initialState (d : fileSystem) : state :=
  {| bus := []; disk := d; allBuiltFromFiles := None; allProxiedFiles := None |}.

(** ** Output of a lint worker (lines 153-172)

    The handler of the [data] events of the worker's standard output.  It
    publishes one kind of event more than the rest of the function. *)
Inductive lintEvent :=
| WORKER_RESET (id : string)
| Published (e : event).

Definition escape : ascii := ascii_of_nat 27.

(** The text of ['\u001bc'] and of ['\x1Bc'], and of both patterns. *)
Definition clearScreen : string := String escape "c".

(** [.] in a pattern: any character but a line terminator. *)
Definition isLineTerminator (a : ascii) : bool :=
  let n := nat_of_ascii a in (n =? 10)%nat || (n =? 13)%nat.

(** [/Watching for file changes./gm.test(s)] *)
Fixpoint watching (s : string) : bool :=
  (Js.startsWith s "Watching for file changes" &&
   match substring 25 1 s with
   | String a _ => negb (isLineTerminator a)
   | EmptyString => false
   end) ||
  match s with
  | EmptyString => false
  | String _ s' => watching s'
  end.

Definition isDigit (a : ascii) : bool :=
  let n := nat_of_ascii a in ((48 <=? n) && (n <=? 57))%nat.

(** The longest run of digits at the head of [s]. *)
Fixpoint digits (s : string) : string :=
  match s with
  | EmptyString => EmptyString
  | String a s' => if isDigit a then String a (digits s') else EmptyString
  end.

(** A match of [/Found (\d+) error/] at the head of [s]: the group. *)
Definition foundHere (s : string) : option string :=
  if Js.startsWith s "Found " then
    let rest := substring 6 (String.length s - 6) s in
    let group := digits rest in
    if negb (String.eqb group EmptyString) &&
       Js.startsWith (substring (String.length group)
                                (String.length rest - String.length group) rest)
                     " error"
    then Some group else None
  else None.

(** [s.match(/Found (\d+) error/)]: the group of the leftmost match. *)
Fixpoint errorMatch (s : string) : option string :=
  match foundHere s with
  | Some group => Some group
  | None => match s with
            | EmptyString => None
            | String _ s' => errorMatch s'
            end
  end.

(** The handler, on the chunk [b] of worker [id]: the events it
    publishes, in order. *)
Definition onStdout (id b : string) : list lintEvent :=
  let reset := Js.includes b clearScreen in
  let stdOutput :=
    if reset then Js.replace (Js.replace b clearScreen EmptyString)
                             clearScreen EmptyString
    else b in
  (if reset then [WORKER_RESET id] else []) ++
  (if Js.endsWith id ":tsc" then
     (if Js.includes stdOutput clearScreen
      then [Published (WORKER_UPDATE id "RUNNING")] else []) ++
     (if watching stdOutput
      then [Published (WORKER_UPDATE id "WATCHING")] else []) ++
     match errorMatch stdOutput with
     | Some group =>
         if negb (String.eqb group "0")
         then [Published (WORKER_UPDATE id "ERROR")] else []
     | None => []
     end
   else []) ++
  [Published (WORKER_MSG id "log" stdOutput)].

(** ** Counting on the status channel *)

Definition isMissingEvent (spec : string) (e : event) : bool :=
  match e with
  | MISSING_WEB_MODULE s => String.eqb s spec
  | _ => false
  end.

(** How many [MISSING_WEB_MODULE] events name [spec]. *)
Definition missingCount (spec : string) (b : list event) : nat :=
  List.length (List.filter (isMissingEvent spec) b).

Definition isImportOf (spec : string) (ch : chunk) : bool :=
  match ch with
  | Import s => String.eqb s spec
  | Text _ => false
  end.

(** How many import clauses of the unit name [spec]. *)
Definition occurrences (spec : string) (c : code) : nat :=
  List.length (List.filter (isImportOf spec) c).

(** A specifier that is neither a URL nor a path. *)
Definition isBare (spec : string) : bool :=
  negb (Js.startsWith spec "http") && negb (isPathSpec spec).

(** The unit without its imports of [spec]. *)
Definition withoutImport (spec : string) (c : code) : code :=
  List.filter (fun ch => negb (isImportOf spec ch)) c.

(** The unit with the placeholder path in place of every specifier. *)
Definition placeholders (c : code) : code :=
  map (fun ch => match ch with
                 | Import s => Import ("/web_modules/" +:+ s +:+ ".js")
                 | Text t => Text t
                 end) c.

(** One notice for every import of the unit, in order. *)
Definition missingNotices (c : code) : list event :=
  flat_map (fun ch => match ch with
                      | Import s => [MISSING_WEB_MODULE s]
                      | Text _ => []
                      end) c.

(** A missing module: a bare specifier that the dependency import map
    does not hold and that is not the name of a property every object
    inherits. *)
Definition isMissingModule (w : World) (spec : string) : bool :=
  isBare spec &&
  match dependencyImportMap w !! spec with Some _ => false | None => true end &&
  negb (Js.inherited spec).

(** A notice of a missing module, whatever the specifier. *)
Definition isNotice (e : event) : bool :=
  match e with
  | MISSING_WEB_MODULE _ => true
  | _ => false
  end.

(** ** What a mount reports

    The notices its tasks have published, and how it ended: with an
    error, or with the files it hands to the workers. *)
Record mountReport := {
  notices : list event;
  ending : string + list string
}.

Definition wellReported (r : mountReport) : bool := forallb isNotice (notices r).

(** The events of one iteration of the loop on line 201. *)
Definition reportEvents (id : string) (r : mountReport) : list event :=
  WORKER_UPDATE id "RUNNING" :: notices r ++
  match ending r with
  | inr _ => [WORKER_COMPLETE id None]
  | inl err => [WORKER_MSG id "error" err; WORKER_COMPLETE id (Some err)]
  end.

(** What the iteration pushes onto [includeFileSets]. *)
Definition reportSet (detail : string * string * string) (r : mountReport)
  : option (string * string * list string) :=
  match ending r with
  | inr needed => Some (snd (fst detail), snd detail, needed)
  | inl _ => None
  end.

Fixpoint reportsEvents (details : list (string * string * string))
         (reports : list mountReport) : list event :=
  match details, reports with
  | d :: ds, r :: rs => reportEvents (fst (fst d)) r ++ reportsEvents ds rs
  | _, _ => []
  end.

Fixpoint reportsSets (details : list (string * string * string))
         (reports : list mountReport) : list (string * string * list string) :=
  match details, reports with
  | d :: ds, r :: rs =>
      match reportSet d r with
      | Some s => s :: reportsSets ds rs
      | None => reportsSets ds rs
      end
  | _, _ => []
  end.

(** The state after one more event. *)
Definition emitted (e : event) (st : state) : state :=
  {| bus := bus st ++ [e]; disk := disk st;
     allBuiltFromFiles := allBuiltFromFiles st;
     allProxiedFiles := allProxiedFiles st |}.


(** ** Shapes of names and paths used in the statements *)

Fixpoint allChars (f : ascii -> bool) (s : string) : bool :=
  match s with
  | EmptyString => true
  | String a s' => f a && allChars f s'
  end.

Definition isLetter (a : ascii) : bool :=
  let n := nat_of_ascii a in
  ((65 <=? n) && (n <=? 90))%nat || ((97 <=? n) && (n <=? 122))%nat.

(** A directory name as it appears in a mount command: letters only. *)
Definition isWord (s : string) : bool :=
  negb (String.eqb s EmptyString) && allChars isLetter s.

Definition notSlash (a : ascii) : bool := negb (Ascii.eqb a Path.slash).

Definition extChar (a : ascii) : bool :=
  negb (Ascii.eqb a Path.slash) && negb (Ascii.eqb a Path.dot).

(** An extension name: not empty, without dot or slash. *)
Definition isExtName (s : string) : bool :=
  negb (String.eqb s EmptyString) && allChars extChar s.

(** A segment of a normalised path. *)
Definition plainSeg (s : string) : bool :=
  negb (String.eqb s EmptyString) && negb (String.eqb s ".") &&
  negb (String.eqb s "..") && allChars notSlash s.

(** [segs] are the segments of a normalised absolute path below the root,
    which is then [Path.joinSegs segs]. *)
Definition plainSegs (segs : list string) : bool :=
  negb (Nat.eqb (List.length segs) 0) && forallb plainSeg segs.

(** A mount script whose command starts with the directive and names a
    source directory; scripts of other kinds pass. *)
Definition wellFormedMount (entry : string * DevScript) : bool :=
  if Js.startsWith (fst entry) "mount:"
  then match Js.splitWs (cmd (snd entry)) with
       | first :: _ :: _ => String.eqb first "mount"
       | _ => false
       end
  else true.

(** The first token of a command. *)
Definition firstToken (command : string) : string :=
  match Js.splitWs command with
  | first :: _ => first
  | [] => EmptyString
  end.


(** A computation that leaves the record of built files as it is. *)
Definition keepsBuilt {A} (m : M A) : Prop :=
  forall st, allBuiltFromFiles (finalState (m st)) = allBuiltFromFiles st.

(** Requests that are recorded stay recorded, without repeats. *)
Definition extends (l l' : list string) : Prop :=
  List.NoDup l' /\ forall x, In x l -> In x l'.

(** ** Relations between the state before and after a computation *)

(** A computation takes every state to one that is related to it by [R],
    whether it answers or throws. *)
Definition keeps (R : state -> state -> Prop) {A} (m : M A) : Prop :=
  forall st, R st (finalState (m st)).

(** Events have been added at the end of the bus, all of them notices of
    missing modules. *)
Definition onlyNotices (st st' : state) : Prop :=
  exists published,
    bus st' = bus st ++ published /\ forallb isNotice published = true.

(** Whatever was on disk outside the paths [inside] is still there,
    unchanged. *)
Definition untouchedOutside (inside : string -> Prop) (st st' : state) : Prop :=
  forall p n, Fs.lookup p (disk st) = Some n -> ~ inside p ->
              Fs.lookup p (disk st') = Some n.

(** The paths below a directory. *)
Definition below (dest : string) (p : string) : Prop := Fs.under dest p = true.

(** The paths below the destination of one of the file sets. *)
Definition belowSome (sets : list (string * string * list string))
           (p : string) : Prop :=
  exists dirDisk dirDest files,
    In (dirDisk, dirDest, files) sets /\ Fs.under dirDest p = true.

(** A regular file stays a regular file. *)
Definition filesStay (st st' : state) : Prop :=
  forall q c, Fs.lookup q (disk st) = Some (File c) ->
              exists c', Fs.lookup q (disk st') = Some (File c').

(** An absolute path in normal form, and a disk all of whose paths are. *)
Definition canonical (p : string) : bool :=
  Path.isAbsolute p && String.eqb (Path.normalizeAbs p) p.

Definition canonicalDisk (d : fileSystem) : bool :=
  forallb (fun e => canonical (fst e)) d.

(** A token that the option parser takes as a positional argument. *)
Definition positional (token : string) : bool :=
  negb (Js.startsWith token "-").

(** A token of a command: not empty, without white space. *)
Definition noSpace (s : string) : bool :=
  negb (String.eqb s EmptyString) && allChars (fun a => negb (Js.isSpace a)) s.

(** A text without the escape character. *)
Definition noEscape (s : string) : bool :=
  allChars (fun a => negb (Ascii.eqb a escape)) s.

(** A text without the dollar sign: as a replacement it stands for
    itself. *)
Definition noDollar (s : string) : bool :=
  allChars (fun a => negb (Ascii.eqb a "$")) s.

(** A plain name: letters and digits only, and not empty. *)
Definition plainName (s : string) : bool :=
  negb (String.eqb s EmptyString) &&
  allChars (fun a => isLetter a || isDigit a) s.

(** A table all of whose keys are plain names. *)
Definition plainTable (table : gmap string string) : bool :=
  forallb (fun e => plainName (fst e)) (map_to_list table).

(** The test of line 216 on a file of the mount. *)
Definition registered (config : Config) (f : string) : bool :=
  existsb (String.eqb (Js.substr1 (Path.extname f))) (allBuildExtensions config).

(** A string of [k] slashes. *)
Fixpoint slashes (k : nat) : string :=
  match k with
  | O => EmptyString
  | S k' => String Path.slash (slashes k')
  end.

(** A relative path from its segments. *)
Definition relPath (segs : list string) : string :=
  Js.substr1 (Path.joinSegs segs).

(** ** Sample surroundings used to run the pipeline *)

Module Sample.

Definition script (c : string) : DevScript := {| cmd := c; watch := None |}.

(** A table of the documented shape: compile-to-script extensions and a
    style-sheet dialect. *)
Definition mapping : gmap string string :=
  <["ts" := "js"]> (<["svelte" := "js"]> (<["scss" := "css"]> ∅)).

(** The table without any remap. *)
Definition noRemap : gmap string string := ∅.

(** A project directory [/p] with two plain scripts that import the same
    package, two typed scripts and an asset; [/p/out] holds the output of
    an earlier build. *)
Definition tree : fileSystem :=
  [("/p", Dir); ("/p/src", Dir);
   ("/p/src/index.js", File [Text "import "; Import "./util"; Import "vue"]);
   ("/p/src/util.js", File [Text "import "; Import "vue"]);
   ("/p/src/a.ts", File [Text "a"]);
   ("/p/src/b.ts", File [Text "b"]);
   ("/p/src/logo.svg", File [Text "<svg/>"]);
   ("/p/out", Dir);
   ("/p/out/stale.js", File [Text "stale"])].

(** A project whose only file is the plain script [/p/src/index.js]. *)
Definition project (c : code) : fileSystem :=
  [("/p", Dir); ("/p/src", Dir); ("/p/src/index.js", File c)].

(** A project with a plain script that imports the asset. *)
Definition treeWithAssetImport : fileSystem :=
  [("/p", Dir); ("/p/src", Dir);
   ("/p/src/index.js", File [Text "import "; Import "./logo.svg"]);
   ("/p/src/a.ts", File [Text "a"]);
   ("/p/src/logo.svg", File [Text "<svg/>"])].

(** A project whose first plain script makes the plugin fail. *)
Definition treeWithBrokenScript : fileSystem :=
  [("/p", Dir); ("/p/src", Dir);
   ("/p/src/broken.js", File [Text "import {"]);
   ("/p/src/index.js", File [Text "import "; Import "./util"]);
   ("/p/src/logo.svg", File [Text "<svg/>"])].

(** A compiler that fails on [/p/src/a.ts] when [failing] is set, and
    otherwise prints its command line followed by the text of a unit. *)
Definition compiler (failing : bool) (_ : fileSystem) (command file : string)
  : ExecResult :=
  {| exitCode := if failing && String.eqb file "/p/src/a.ts" then 1 else 0;
     stdout := [Text command; Text " compiled"];
     stderr := EmptyString |}.

(** A plugin whose [build] fails on [/p/src/broken.js] and otherwise
    answers a unit that imports the asset. *)
Definition plugin (_ : fileSystem) (file : string) : string + code :=
  if String.eqb file "/p/src/broken.js" then inl "unexpected token"
  else inr [Text "compiled "; Import "./logo.svg"].

Definition world (table : gmap string string) (failing : bool) : World :=
  {| srcFileExtensionMapping := table;
     importMapFile := None;
     parcelInstalled := false;
     excluded := fun _ => false;
     execa := compiler failing;
     plugins := fun _ => Some plugin;
     wrapEsmProxyResponse := fun url _ _ => [Text url] |}.

Definition config (bundled : bool) (ss : list (string * DevScript)) : Config :=
  {| scripts := ss; bundle := Some bundled; out := "/p/out" |}.

Definition mountSrc : string * DevScript := ("mount:src", script "mount src --to .").

(** State of a worker pass: both sets declared and empty. *)
Definition declared : state :=
  {| bus := []; disk := tree;
     allBuiltFromFiles := Some []; allProxiedFiles := Some [] |}.

(** The same surroundings with a dependency import map. *)
Definition worldWithImports (imports : gmap string string) : World :=
  {| srcFileExtensionMapping := mapping;
     importMapFile := Some imports;
     parcelInstalled := false;
     excluded := fun _ => false;
     execa := compiler false;
     plugins := fun _ => Some plugin;
     wrapEsmProxyResponse := fun url _ _ => [Text url] |}.


(** A linter that reports problems, beside the compiler. *)
Definition toolchain (d : fileSystem) (command file : string) : ExecResult :=
  if String.eqb command "eslint src"
  then {| exitCode := 1; stdout := []; stderr := "2 problems" |}
  else compiler false d command file.

Definition worldWithLinter : World :=
  {| srcFileExtensionMapping := noRemap;
     importMapFile := None;
     parcelInstalled := false;
     excluded := fun _ => false;
     execa := toolchain;
     plugins := fun _ => Some plugin;
     wrapEsmProxyResponse := fun url _ _ => [Text url] |}.

End Sample.

(** * Lemmas *)

(** ** Basic facts about the monad and the rewriter *)

(** Split on the condition of the outermost conditional of the goal. *)
Ltac case_if :=
  match goal with
  | |- context [if ?b then _ else _] => destruct b eqn:?
  end.

Lemma prefix_cons_false (a b : ascii) (s t : string) :
  a <> b -> String.prefix (String a s) (String b t) = false.
Proof.
  intros Hne. simpl. destruct (ascii_dec a b); [contradiction | reflexivity].
Qed.

(** A path specifier starts with a slash or a dot, never with [http]. *)
Lemma isPathSpec_not_http (spec : string) :
  isPathSpec spec = true -> Js.startsWith spec "http" = false.
Proof.
  unfold isPathSpec, Js.startsWith.
  destruct spec as [|c s]; [reflexivity|].
  intros H.
  destruct (ascii_dec "h"%char c) as [<-|Hne].
  - vm_compute in H. discriminate.
  - apply prefix_cons_false. exact Hne.
Qed.

Lemma missingCount_app (spec : string) (b1 b2 : list event) :
  missingCount spec (b1 ++ b2) = (missingCount spec b1 + missingCount spec b2)%nat.
Proof.
  unfold missingCount. rewrite List.filter_app, List.length_app. reflexivity.
Qed.

(** Close a goal that asks for the answer of a computation which has
    been reduced to [ret] and [emit]. *)
Ltac answered := unfold bind, emit, ret; simpl; eauto 8.

Section RewriterFacts.

Variable w : World.
Variable config : Config.

Lemma rewriteImport_extensionless p outPath spec st :
  isPathSpec spec = true ->
  Js.substr1 (Path.extname spec) = EmptyString ->
  rewriteImport w config p outPath spec st = Ok (spec +:+ ".js") st.
Proof.
  intros Hpath Hext. unfold rewriteImport.
  rewrite (isPathSpec_not_http _ Hpath), Hpath, Hext. reflexivity.
Qed.

Lemma rewriteImport_missing p outPath spec st :
  isBare spec = true ->
  dependencyImportMap w !! spec = None ->
  Js.inherited spec = false ->
  rewriteImport w config p outPath spec st
  = Ok ("/web_modules/" +:+ spec +:+ ".js")
       (emitted (MISSING_WEB_MODULE spec) st).
Proof.
  unfold isBare. intros Hbare Habsent Hown.
  apply andb_prop in Hbare as [Hhttp Hpath].
  apply negb_true_iff in Hhttp. apply negb_true_iff in Hpath.
  unfold rewriteImport, Js.get. rewrite Hhttp, Hpath, Habsent, Hown.
  reflexivity.
Qed.

(** What a call of the rewriter can do to the state: nothing, publish
    the notice of a missing module, or record a request. *)
Lemma rewriteImport_final p outPath s st :
  finalState (rewriteImport w config p outPath s st) = st
  \/ finalState (rewriteImport w config p outPath s st)
     = emitted (MISSING_WEB_MODULE s) st
  \/ exists l x,
      allProxiedFiles st = Some l
      /\ finalState (rewriteImport w config p outPath s st)
         = {| bus := bus st; disk := disk st;
              allBuiltFromFiles := allBuiltFromFiles st;
              allProxiedFiles := Some (setAdd x l) |}.
Proof.
  remember (finalState (rewriteImport w config p outPath s st)) as st' eqn:Hst'.
  unfold rewriteImport in Hst'.
  destruct (Js.startsWith s "http"); [now left|].
  destruct (isPathSpec s).
  - destruct (String.eqb _ EmptyString); [now left|].
    unfold bind at 1 in Hst'.
    set (spec1 := if Js.truthy _ then orThrow _ _ else ret s) in Hst'.
    assert (Hspec1 : (exists s1, spec1 st = Ok s1 st)
                     \/ exists e, spec1 st = Throw e st).
    { unfold spec1. destruct (Js.truthy _); [|left; now eexists].
      destruct (Js.replaceAtEndBy _ _ _); [left | right]; now eexists. }
    destruct Hspec1 as [[s1 Hs1] | [e He]]; rewrite ?Hs1, ?He in Hst';
      [|now left].
    destruct (_ && _); [|now left].
    unfold bind, proxiedAdd in Hst'.
    destruct (allProxiedFiles st) as [l|] eqn:Hl; [|now left].
    right. right. exists l. eexists. split; [reflexivity | exact Hst'].
  - destruct (Js.truthy _).
    + destruct (Js.get _ _); now left.
    + right. now left.
Qed.

(** Before the sets are declared, every specifier that asks for a proxy
    makes the rewriter throw. *)
Lemma rewriteImport_undeclared p outPath spec st :
  allProxiedFiles st = None ->
  isPathSpec spec = true ->
  Js.substr1 (Path.extname spec) <> EmptyString ->
  proxyGuard p (isBundled w config) = true ->
  Js.strictEq
    (Js.orElse (Js.get (srcFileExtensionMapping w)
                       (Js.substr1 (Path.extname spec)))
               (Js.substr1 (Path.extname spec))) "js" = false ->
  exists e, rewriteImport w config p outPath spec st = Throw e st.
Proof.
  intros Hnone Hpath Hext Hguard Hjs. unfold rewriteImport.
  rewrite (isPathSpec_not_http _ Hpath), Hpath.
  apply String.eqb_neq in Hext. rewrite Hext.
  rewrite Hjs, Hguard. cbn [andb negb].
  unfold bind at 1.
  destruct (Js.truthy _).
  - destruct (Js.replaceAtEndBy _ _ _); cbn [orThrow]; unfold ret, throw.
    + unfold bind, proxiedAdd. rewrite Hnone. eauto.
    + eauto.
  - unfold ret, bind, proxiedAdd. rewrite Hnone. eauto.
Qed.

End RewriterFacts.

(** ** Facts about strings *)

Lemma str_app_cons (a : ascii) (s t : string) :
  String a s +:+ t = String a (s +:+ t).
Proof. reflexivity. Qed.

Lemma str_app_empty_r (s : string) : s +:+ EmptyString = s.
Proof.
  induction s as [|a s IH]; [reflexivity | now rewrite str_app_cons, IH].
Qed.

Lemma str_app_assoc (a b c : string) : (a +:+ b) +:+ c = a +:+ (b +:+ c).
Proof. induction a as [|x a IH]; [reflexivity | rewrite !str_app_cons; simpl; now rewrite IH]. Qed.

Lemma str_length_app (a b : string) :
  String.length (a +:+ b) = (String.length a + String.length b)%nat.
Proof. induction a as [|x a IH]; [reflexivity | rewrite !str_app_cons; simpl; now rewrite IH]. Qed.

Lemma prefix_spec (a b : string) :
  String.prefix a b = true <-> exists t, b = a +:+ t.
Proof.
  revert b. induction a as [|x a IH]; intros b.
  - split; [intros _; now exists b | intros _; destruct b; reflexivity].
  - destruct b as [|y b]; simpl.
    + split; [discriminate | intros [t Ht]; discriminate].
    + destruct (ascii_dec x y) as [->|Hne].
      * rewrite IH. split; intros [t Ht]; exists t; rewrite str_app_cons in *; congruence.
      * split; [discriminate | intros [t Ht]; rewrite str_app_cons in Ht; congruence].
Qed.

Lemma prefix_app (a b : string) : String.prefix a (a +:+ b) = true.
Proof. apply prefix_spec. now exists b. Qed.

Lemma prefix_length (a b : string) :
  String.prefix a b = true -> (String.length a <= String.length b)%nat.
Proof. intros [t ->]%prefix_spec. rewrite str_length_app. lia. Qed.

Lemma list_ascii_app (a b : string) :
  list_ascii_of_string (a +:+ b)
  = list_ascii_of_string a ++ list_ascii_of_string b.
Proof. induction a as [|x a IH]; [reflexivity | rewrite !str_app_cons; simpl; now rewrite IH]. Qed.

Lemma length_list_ascii (s : string) :
  List.length (list_ascii_of_string s) = String.length s.
Proof. induction s as [|a s IH]; simpl; [reflexivity | now rewrite IH]. Qed.

Lemma substring_all (s : string) (n : nat) :
  (String.length s <= n)%nat -> substring 0 n s = s.
Proof.
  revert n. induction s as [|a s IH]; intros n Hn.
  - destruct n; reflexivity.
  - destruct n; cbn in *; [lia|]. rewrite IH; [reflexivity | lia].
Qed.

Lemma substring_app_l (a b : string) :
  substring 0 (String.length a) (a +:+ b) = a.
Proof. apply prefix_correct, prefix_app. Qed.

Lemma substring_app_r (a b : string) (n : nat) :
  substring (String.length a) n (a +:+ b) = substring 0 n b.
Proof. induction a as [|x a IH]; [reflexivity | rewrite str_app_cons; exact IH]. Qed.


(** A replacement text without dollar sign is put in as it is. *)
Lemma expand_noDollar (rep matched before after : string) :
  noDollar rep = true -> Js.expand rep matched before after = rep.
Proof.
  unfold noDollar. induction rep as [|a rep IH]; [reflexivity|].
  cbn [allChars Js.expand]. intros [Ha Hrest]%andb_prop.
  apply negb_true_iff in Ha. rewrite Ha, IH by exact Hrest. reflexivity.
Qed.



(** ** Facts about [Path.extname] *)

Lemma allChars_forallb (f : ascii -> bool) (s : string) :
  allChars f s = forallb f (list_ascii_of_string s).
Proof. induction s as [|a s IH]; simpl; [reflexivity | now rewrite IH]. Qed.

Lemma forallb_rev {A} (f : A -> bool) (l : list A) :
  forallb f (rev l) = forallb f l.
Proof.
  induction l as [|a l IH]; [reflexivity|].
  simpl. rewrite forallb_app, IH. simpl. rewrite andb_true_r. apply andb_comm.
Qed.


Section ExtnameFacts.

Import Path.

(** While only extension characters have been seen, the loop keeps its
    state. *)
Lemma extnameLoop_ext_chars (xs rest : list ascii) (i e : Z) :
  forallb extChar xs = true ->
  e <> -1 ->
  extnameLoop (xs ++ rest) i (Scan (-1) 0 e false 0)
  = extnameLoop rest (i - Z.of_nat (List.length xs)) (Scan (-1) 0 e false 0).
Proof.
  revert i. induction xs as [|c xs IH]; intros i Hxs He.
  - simpl. f_equal. lia.
  - simpl in Hxs. apply andb_prop in Hxs as [Hc Hxs].
    unfold extChar in Hc. apply andb_prop in Hc as [Hs Hd].
    apply negb_true_iff in Hs. apply negb_true_iff in Hd.
    change ((c :: xs) ++ rest) with (c :: (xs ++ rest)).
    cbn [extnameLoop]. unfold extnameStep. rewrite Hs. cbn [endIdx].
    apply Z.eqb_neq in He. rewrite He. rewrite Hd. cbn.
    rewrite IH by (try assumption; now apply Z.eqb_neq).
    f_equal. lia.
Qed.



End ExtnameFacts.

(** A last segment without a dot has no extension. *)
Lemma extname_dotless (dir name : string) :
  isExtName name = true ->
  Path.extname (dir +:+ "/" +:+ name) = EmptyString.
Proof.
  intros Hname. unfold isExtName in Hname.
  apply andb_prop in Hname as [Hne Hchars].
  apply negb_true_iff, String.eqb_neq in Hne.
  rewrite allChars_forallb in Hchars.
  unfold Path.extname.
  set (n := Z.of_nat (String.length (dir +:+ "/" +:+ name))).
  assert (Hstart : Path.startDot
            (Path.extnameLoop
               (rev (list_ascii_of_string (dir +:+ "/" +:+ name)))
               (n - 1) Path.scan0) = -1).
  { rewrite !list_ascii_app, !rev_app_distr.
    change (list_ascii_of_string "/") with [Path.slash].
    simpl (rev [Path.slash]). rewrite <- List.app_assoc.
    destruct (rev (list_ascii_of_string name)) as [|c xs] eqn:Hxs.
    { apply (f_equal (@List.length ascii)) in Hxs.
      rewrite length_rev, length_list_ascii in Hxs.
      destruct name; [congruence | discriminate]. }
    assert (Hall : forallb extChar (c :: xs) = true).
    { rewrite <- Hxs, forallb_rev. exact Hchars. }
    simpl in Hall. apply andb_prop in Hall as [Hc Hall].
    pose proof Hc as Hc'. unfold extChar in Hc'.
    apply andb_prop in Hc' as [Hs Hd].
    apply negb_true_iff in Hs. apply negb_true_iff in Hd.
    change ((c :: xs) ++ [Path.slash] ++ rev (list_ascii_of_string dir))
      with (c :: (xs ++ Path.slash :: rev (list_ascii_of_string dir))).
    cbn [Path.extnameLoop]. unfold Path.extnameStep at 1.
    rewrite Hs. cbn [Path.endIdx Path.scan0]. rewrite Hd.
    cbn -[Path.extnameLoop Z.add Z.sub].
    assert (Hn : n - 1 + 1 <> -1) by (unfold n; lia).
    rewrite (extnameLoop_ext_chars xs _ _ _ Hall Hn).
    cbn [Path.extnameLoop]. unfold Path.extnameStep at 1.
    rewrite Ascii.eqb_refl. reflexivity. }
  rewrite Hstart. reflexivity.
Qed.

Lemma prefix_app_r (a b s : string) :
  String.prefix a b = true -> String.prefix a (b +:+ s) = true.
Proof.
  intros [t ->]%prefix_spec. apply prefix_spec. exists (t +:+ s).
  apply str_app_assoc.
Qed.

Lemma isPathSpec_app (pre s : string) :
  isPathSpec pre = true -> isPathSpec (pre +:+ s) = true.
Proof.
  unfold isPathSpec, Js.startsWith. intros H.
  apply orb_true_iff in H as [H|H]; [apply orb_true_iff in H as [H|H]|].
  - now rewrite (prefix_app_r _ _ s H).
  - rewrite (prefix_app_r _ _ s H). now rewrite orb_true_r.
  - rewrite (prefix_app_r _ _ s H). now rewrite !orb_true_r.
Qed.



Lemma truthy_nonempty (x : string) :
  String.eqb x EmptyString = false -> Js.truthy (Js.Own x) = true.
Proof. intros H. cbn. now rewrite H. Qed.

Lemma get_own (o : gmap string string) (key value : string) :
  o !! key = Some value -> Js.get o key = Js.Own value.
Proof. intros H. unfold Js.get. now rewrite H. Qed.

Lemma get_absent (o : gmap string string) (key : string) :
  o !! key = None -> Js.inherited key = false -> Js.get o key = Js.Absent.
Proof. intros H Hown. unfold Js.get. now rewrite H, Hown. Qed.

(** ** Facts about splitting and joining *)

Lemma splitOn_nonempty (c : ascii) (s : string) : Js.splitOn c s <> [].
Proof.
  induction s as [|a s IH]; simpl; [discriminate|].
  destruct (Ascii.eqb a c); [discriminate|].
  destruct (Js.splitOn c s); discriminate.
Qed.

Lemma splitOn_word (c : ascii) (word s : string) :
  allChars (fun a => negb (Ascii.eqb a c)) word = true ->
  Js.splitOn c (word +:+ s)
  = match Js.splitOn c s with
    | h :: t => (word +:+ h) :: t
    | [] => [word]
    end.
Proof.
  induction word as [|a word IH]; intros Hw.
  - change (EmptyString +:+ s) with s.
    pose proof (splitOn_nonempty c s). destruct (Js.splitOn c s); [congruence | reflexivity].
  - simpl in Hw. apply andb_prop in Hw as [Ha Hw]. apply negb_true_iff in Ha.
    rewrite str_app_cons. simpl. rewrite Ha, (IH Hw).
    destruct (Js.splitOn c s); reflexivity.
Qed.

Lemma plainSeg_notSlash (s : string) :
  plainSeg s = true -> allChars (fun a => negb (Ascii.eqb a Path.slash)) s = true.
Proof. unfold plainSeg. now intros [_ H]%andb_prop. Qed.

Lemma splitOn_joinSegs (segs : list string) :
  forallb plainSeg segs = true ->
  Js.splitOn Path.slash (Path.joinSegs segs)
  = match segs with
    | [] => [EmptyString]
    | _ => EmptyString :: segs
    end.
Proof.
  induction segs as [|s segs IH]; intros Hsegs; [reflexivity|].
  simpl in Hsegs. apply andb_prop in Hsegs as [Hs Hsegs].
  cbn [Path.joinSegs]. change ("/" +:+ s +:+ Path.joinSegs segs)
    with (String Path.slash (s +:+ Path.joinSegs segs)).
  cbn [Js.splitOn]. rewrite Ascii.eqb_refl.
  rewrite (splitOn_word _ _ _ (plainSeg_notSlash _ Hs)), (IH Hsegs).
  destruct segs; now rewrite str_app_empty_r.
Qed.

Lemma normalizeSegs_plain (segs acc : list string) :
  forallb plainSeg segs = true ->
  Path.normalizeSegs segs acc = rev acc ++ segs.
Proof.
  revert acc. induction segs as [|s segs IH]; intros acc Hsegs.
  - simpl. now rewrite List.app_nil_r.
  - simpl in Hsegs. apply andb_prop in Hsegs as [Hs Hsegs].
    unfold plainSeg in Hs.
    apply andb_prop in Hs as [Hs _]. apply andb_prop in Hs as [Hs H2].
    apply andb_prop in Hs as [H0 H1].
    apply negb_true_iff in H0, H1, H2.
    cbn [Path.normalizeSegs]. rewrite H0, H1, H2. cbn [orb].
    rewrite (IH _ Hsegs). simpl. now rewrite <- List.app_assoc.
Qed.

Lemma joinSegs_app (a b : list string) :
  Path.joinSegs (a ++ b) = Path.joinSegs a +:+ Path.joinSegs b.
Proof.
  induction a as [|s a IH]; [reflexivity|].
  simpl. rewrite IH. now rewrite !str_app_assoc.
Qed.

Lemma joinSegs_snoc (segs : list string) (name : string) :
  Path.joinSegs (segs ++ [name]) = Path.joinSegs segs +:+ "/" +:+ name.
Proof.
  rewrite joinSegs_app. cbn [Path.joinSegs]. now rewrite str_app_empty_r.
Qed.

Lemma normalizeAbs_joinSegs (segs : list string) :
  plainSegs segs = true ->
  Path.normalizeAbs (Path.joinSegs segs) = Path.joinSegs segs.
Proof.
  unfold plainSegs. intros [Hlen Hsegs]%andb_prop.
  unfold Path.normalizeAbs. rewrite (splitOn_joinSegs _ Hsegs).
  destruct segs as [|s segs]; [discriminate|].
  change (Path.normalizeSegs (EmptyString :: s :: segs) [])
    with (Path.normalizeSegs (s :: segs) []).
  rewrite (normalizeSegs_plain _ _ Hsegs). reflexivity.
Qed.

Lemma plainSegs_snoc (segs : list string) (name : string) :
  forallb plainSeg segs = true -> plainSeg name = true ->
  plainSegs (segs ++ [name]) = true.
Proof.
  intros Hsegs Hname. unfold plainSegs.
  rewrite forallb_app, Hsegs. simpl. rewrite Hname.
  destruct segs; reflexivity.
Qed.

Lemma plainSeg_not_absolute (name : string) :
  plainSeg name = true -> Path.isAbsolute name = false.
Proof.
  intros H. apply plainSeg_notSlash in H.
  destruct name as [|a name]; [reflexivity|].
  simpl in H. apply andb_prop in H as [Ha _]. apply negb_true_iff in Ha.
  unfold Path.isAbsolute, Js.startsWith. apply prefix_cons_false.
  intros <-. discriminate.
Qed.

(** Resolving a plain name against a normalised absolute path appends it. *)
Lemma resolve_child (segs : list string) (name : string) :
  forallb plainSeg segs = true -> plainSeg name = true ->
  Path.resolve (Path.joinSegs segs) name = Path.joinSegs segs +:+ "/" +:+ name.
Proof.
  intros Hsegs Hname. unfold Path.resolve.
  rewrite (plainSeg_not_absolute _ Hname), <- joinSegs_snoc.
  apply normalizeAbs_joinSegs, plainSegs_snoc; assumption.
Qed.

Lemma join_child (segs : list string) (name : string) :
  forallb plainSeg segs = true -> plainSeg name = true ->
  Path.join (Path.joinSegs segs) name = Path.joinSegs (segs ++ [name]).
Proof.
  intros Hsegs Hname. unfold Path.join. rewrite <- joinSegs_snoc.
  apply normalizeAbs_joinSegs, plainSegs_snoc; assumption.
Qed.

Lemma plainSegs_forallb (segs : list string) :
  plainSegs segs = true -> forallb plainSeg segs = true.
Proof. unfold plainSegs. now intros [_ H]%andb_prop. Qed.

(** ** Facts about words *)

Lemma allChars_impl (f g : ascii -> bool) (s : string) :
  (forall a, f a = true -> g a = true) ->
  allChars f s = true -> allChars g s = true.
Proof.
  intros Hfg. induction s as [|a s IH]; [reflexivity|].
  simpl. intros [Ha Hs]%andb_prop. now rewrite (Hfg _ Ha), (IH Hs).
Qed.

Lemma isLetter_cases (a : ascii) :
  isLetter a = true ->
  Js.isSpace a = false /\ Ascii.eqb a Path.slash = false /\
  Ascii.eqb a Path.dot = false /\ Ascii.eqb a "-" = false.
Proof.
  destruct a as [[] [] [] [] [] [] [] []]; vm_compute; intuition discriminate.
Qed.






Lemma isWord_plainSeg (s : string) : isWord s = true -> plainSeg s = true.
Proof.
  unfold isWord, plainSeg. intros [Hne Hs]%andb_prop.
  rewrite Hne. cbn [andb].
  assert (Hslash : allChars notSlash s = true).
  { revert Hs. apply allChars_impl. intros a Ha.
    unfold notSlash. now destruct (isLetter_cases a Ha) as (_ & -> & _). }
  rewrite Hslash, andb_true_r.
  destruct s as [|a s]; [discriminate|].
  simpl in Hs. apply andb_prop in Hs as [Ha _].
  destruct (isLetter_cases a Ha) as (_ & _ & Hdot & _).
  assert (Hd : a <> "."%char) by now apply Ascii.eqb_neq.
  assert (H1 : String.eqb (String a s) "." = false).
  { apply String.eqb_neq. congruence. }
  assert (H2 : String.eqb (String a s) ".." = false).
  { apply String.eqb_neq. congruence. }
  now rewrite H1, H2.
Qed.

Lemma isWord_not_flag (s : string) :
  isWord s = true -> String.eqb s "--to" = false.
Proof.
  unfold isWord. intros [_ Hs]%andb_prop. apply String.eqb_neq. intros ->.
  vm_compute in Hs. discriminate.
Qed.

(** A token without white space comes out of [split(/\s+/)] in one piece. *)
Lemma splitWsFrom_token (inSep : bool) (token rest : string) :
  token <> EmptyString ->
  allChars (fun a => negb (Js.isSpace a)) token = true ->
  Js.splitWsFrom inSep (token +:+ rest)
  = match Js.splitWsFrom false rest with
    | h :: t => (token +:+ h) :: t
    | [] => [token]
    end.
Proof.
  revert inSep. induction token as [|a token IH]; intros inSep Hne Htok;
    [congruence|].
  simpl in Htok. apply andb_prop in Htok as [Ha Htok].
  apply negb_true_iff in Ha.
  rewrite str_app_cons. cbn [Js.splitWsFrom]. rewrite Ha.
  destruct token as [|b token].
  - change (EmptyString +:+ rest) with rest.
    destruct (Js.splitWsFrom false rest); reflexivity.
  - rewrite (IH false) by (congruence || assumption).
    destruct (Js.splitWsFrom false rest); reflexivity.
Qed.

Lemma isWord_token (s : string) :
  isWord s = true ->
  s <> EmptyString /\ allChars (fun a => negb (Js.isSpace a)) s = true.
Proof.
  unfold isWord. intros [Hne Hs]%andb_prop. split.
  - now apply negb_true_iff, String.eqb_neq in Hne.
  - revert Hs. apply allChars_impl. intros a Ha.
    now destruct (isLetter_cases a Ha) as (-> & _).
Qed.

Lemma splitWsFrom_last (inSep : bool) (token : string) :
  token <> EmptyString ->
  allChars (fun a => negb (Js.isSpace a)) token = true ->
  Js.splitWsFrom inSep token = [token].
Proof.
  intros Hne Htok. rewrite <- (str_app_empty_r token) at 1.
  rewrite (splitWsFrom_token inSep token EmptyString Hne Htok).
  cbn [Js.splitWsFrom]. now rewrite str_app_empty_r.
Qed.

Lemma splitWsFrom_space (inSep : bool) (rest : string) :
  Js.splitWsFrom inSep (" " +:+ rest)
  = if inSep then Js.splitWsFrom true rest
    else EmptyString :: Js.splitWsFrom true rest.
Proof. reflexivity. Qed.

Lemma splitWs_mount_to (src dest : string) :
  isWord src = true -> isWord dest = true ->
  Js.splitWs ("mount " +:+ src +:+ " --to " +:+ dest)
  = ["mount"; src; "--to"; dest].
Proof.
  intros [Hs1 Hs2]%isWord_token [Hd1 Hd2]%isWord_token.
  unfold Js.splitWs.
  change ("mount " +:+ src +:+ " --to " +:+ dest)
    with ("mount" +:+ " " +:+ src +:+ " " +:+ "--to" +:+ " " +:+ dest).
  rewrite (splitWsFrom_token false "mount") by (discriminate || reflexivity).
  rewrite splitWsFrom_space.
  rewrite (splitWsFrom_token true src) by assumption.
  rewrite splitWsFrom_space.
  rewrite (splitWsFrom_token true "--to") by (discriminate || reflexivity).
  rewrite splitWsFrom_space.
  rewrite (splitWsFrom_last true dest) by assumption.
  now rewrite !str_app_empty_r.
Qed.

Lemma splitWs_mount (src : string) :
  isWord src = true ->
  Js.splitWs ("mount " +:+ src) = ["mount"; src].
Proof.
  intros [Hs1 Hs2]%isWord_token. unfold Js.splitWs.
  change ("mount " +:+ src) with ("mount" +:+ " " +:+ src).
  rewrite (splitWsFrom_token false "mount") by (discriminate || reflexivity).
  rewrite splitWsFrom_space.
  rewrite (splitWsFrom_last true src) by assumption.
  now rewrite !str_app_empty_r.
Qed.

(** ** Facts about the file system *)


Lemma lookup_snoc (p q : string) (n : node) (d : fileSystem) :
  Fs.lookup p (d ++ [(q, n)])
  = match Fs.lookup p d with
    | Some x => Some x
    | None => if String.eqb p q then Some n else None
    end.
Proof.
  induction d as [|[q' n'] d IH]; [reflexivity|].
  cbn [app Fs.lookup]. destruct (String.eqb p q'); [reflexivity | exact IH].
Qed.


Lemma existsb_eqb_In (p : string) (l : list string) :
  existsb (String.eqb p) l = true <-> In p l.
Proof.
  rewrite existsb_exists. split.
  - intros (x & Hin & ->%String.eqb_eq). exact Hin.
  - intros Hin. exists p. split; [exact Hin | apply String.eqb_refl].
Qed.


Lemma under_longer (a b : string) :
  Fs.under a b = true -> (String.length a < String.length b)%nat.
Proof.
  unfold Fs.under, Js.startsWith. intros H%prefix_length.
  rewrite str_length_app in H. simpl in H. lia.
Qed.

Lemma under_irrefl (a : string) : Fs.under a a = false.
Proof.
  destruct (Fs.under a a) eqn:H; [|reflexivity].
  apply under_longer in H. lia.
Qed.










(** ** Worker failures *)

Section WorkerFacts.

Variable w : World.
Variable cwd : string.
Variable config : Config.

(** A plugin whose [build] fails is reported under the worker's id and
    the loop goes on: nothing is written and nothing is thrown. *)
Lemma runPluginWorker_failure id workerConfig dirDisk dirDest f build message st :
  plugins w (cmd workerConfig) = Some build ->
  build (disk st) f = inl message ->
  runPluginWorker w config id workerConfig dirDisk dirDest f st
  = Ok tt (emitted (WORKER_COMPLETE id (Some ("[" +:+ id +:+ "] " +:+ message)))
             (emitted (CONSOLE "error" ("[" +:+ id +:+ "] " +:+ message)) st)).
Proof.
  intros Hmod Hfail. unfold runPluginWorker. rewrite Hmod.
  unfold bind at 1. unfold getDisk at 1. rewrite Hfail. reflexivity.
Qed.

(** A build process that exits with a non-zero code makes the worker
    throw, with no event published. *)
Lemma runBuildWorker_failure workerConfig dirDisk dirDest f st :
  exitCode (execa w (disk st) (Js.replace (cmd workerConfig) "$FILE" f) f) <> 0 ->
  runBuildWorker w config workerConfig dirDisk dirDest f st
  = Throw ("Command failed: " +:+ Js.replace (cmd workerConfig) "$FILE" f) st.
Proof.
  intros Hexit. unfold runBuildWorker. unfold bind at 1. unfold getDisk at 1.
  apply Z.eqb_neq in Hexit. rewrite Hexit. reflexivity.
Qed.

(** The plugin worker never touches the record of built files. *)
Lemma transformEsmImports_built p outPath c :
  forall st,
    allBuiltFromFiles
      (finalState (transformEsmImports c (rewriteImport w config p outPath) st))
    = allBuiltFromFiles st.
Proof.
  induction c as [|ch c IH]; intros st; [reflexivity|].
  destruct ch as [t|s]; cbn.
  - unfold bind at 1. specialize (IH st).
    destruct (transformEsmImports c _ st); exact IH.
  - unfold bind at 1.
    assert (Hone : allBuiltFromFiles
              (finalState (rewriteImport w config p outPath s st))
            = allBuiltFromFiles st).
    { destruct (rewriteImport_final w config p outPath s st)
        as [-> | [-> | (l & x & _ & ->)]]; reflexivity. }
    destruct (rewriteImport w config p outPath s st) as [s' st1|e st1];
      [|exact Hone].
    unfold bind at 1. specialize (IH st1).
    destruct (transformEsmImports c _ st1); cbn in *; congruence.
Qed.

End WorkerFacts.

(** ** Facts about the two sets *)

Lemma setAdd_In (x y : string) (l : list string) :
  In y (setAdd x l) <-> y = x \/ In y l.
Proof.
  unfold setAdd. destruct (existsb (String.eqb x) l) eqn:Hx.
  - apply existsb_eqb_In in Hx. split; [now right | now intros [-> | H]].
  - rewrite in_app_iff. simpl. intuition congruence.
Qed.

Lemma setAdd_NoDup (x : string) (l : list string) :
  List.NoDup l -> List.NoDup (setAdd x l).
Proof.
  intros Hl. unfold setAdd. destruct (existsb (String.eqb x) l) eqn:Hx;
    [exact Hl|].
  assert (Hnot : ~ In x l).
  { intros Hin. apply existsb_eqb_In in Hin. congruence. }
  clear Hx. induction Hl as [|a l Ha Hl IH]; simpl.
  - constructor; [intros [] | constructor].
  - constructor.
    + rewrite in_app_iff. simpl. intros [H | [H | []]]; [contradiction|].
      subst. apply Hnot. now left.
    + apply IH. intros H. apply Hnot. now right.
Qed.

Lemma setAdd_again (x : string) (l : list string) :
  setAdd x (setAdd x l) = setAdd x l.
Proof.
  assert (H : existsb (String.eqb x) (setAdd x l) = true).
  { apply existsb_eqb_In, setAdd_In. now left. }
  unfold setAdd at 1. now rewrite H.
Qed.

Lemma keepsBuilt_ret {A} (a : A) : keepsBuilt (ret a).
Proof. intros st. reflexivity. Qed.

Lemma keepsBuilt_throw {A} (e : string) : keepsBuilt (@throw A e).
Proof. intros st. reflexivity. Qed.

Lemma keepsBuilt_emit (e : event) : keepsBuilt (emit e).
Proof. intros st. reflexivity. Qed.

Lemma keepsBuilt_getDisk : keepsBuilt getDisk.
Proof. intros st. reflexivity. Qed.

Lemma keepsBuilt_setDisk (d : fileSystem) : keepsBuilt (setDisk d).
Proof. intros st. reflexivity. Qed.

Lemma keepsBuilt_bind {A B} (m : M A) (k : A -> M B) :
  keepsBuilt m -> (forall a, keepsBuilt (k a)) -> keepsBuilt (bind m k).
Proof.
  intros Hm Hk st. unfold bind. specialize (Hm st).
  destruct (m st) as [a st1|e st1]; [|exact Hm].
  rewrite (Hk a st1). exact Hm.
Qed.

Lemma keepsBuilt_mkdirp (dir : string) : keepsBuilt (mkdirp dir).
Proof.
  unfold mkdirp. apply keepsBuilt_bind; [apply keepsBuilt_getDisk|]. intros d.
  destruct (Fs.mkdirs (Fs.ancestors dir) d);
    [apply keepsBuilt_setDisk | apply keepsBuilt_throw].
Qed.

Lemma keepsBuilt_writeFile (p : string) (c : code) : keepsBuilt (writeFile p c).
Proof.
  unfold writeFile. apply keepsBuilt_bind; [apply keepsBuilt_getDisk|]. intros d.
  case_if; [apply keepsBuilt_throw|].
  destruct (Fs.lookup p d) as [[|]|];
    first [apply keepsBuilt_setDisk | apply keepsBuilt_throw].
Qed.

Section SetFacts.

Variable w : World.
Variable config : Config.

Lemma rewriteImport_requests p outPath s st l :
  allProxiedFiles st = Some l ->
  List.NoDup l ->
  exists l',
    allProxiedFiles (finalState (rewriteImport w config p outPath s st))
    = Some l' /\ extends l l'.
Proof.
  intros Hl Hnd. unfold extends.
  destruct (rewriteImport_final w config p outPath s st)
    as [-> | [-> | (l0 & x & Hl0 & ->)]].
  - exists l. auto.
  - exists l. auto.
  - rewrite Hl in Hl0. injection Hl0 as <-. cbn [allProxiedFiles].
    eexists. split; [reflexivity|]. split.
    + now apply setAdd_NoDup.
    + intros y Hy. apply setAdd_In. now right.
Qed.

(** Once the sets are declared, the requests of a unit are recorded once
    each, whether the rewriting of the unit answers or throws. *)
Lemma transformEsmImports_requests p outPath c :
  forall st l,
    allProxiedFiles st = Some l ->
    List.NoDup l ->
    exists l',
      allProxiedFiles
        (finalState (transformEsmImports c (rewriteImport w config p outPath) st))
      = Some l' /\ extends l l'.
Proof.
  induction c as [|ch c IH]; intros st l Hl Hnd.
  - exists l. cbn. unfold extends. auto.
  - destruct ch as [t|s].
    + destruct (IH st l Hl Hnd) as (l' & Hl' & Hext).
      exists l'. cbn. unfold bind at 1.
      destruct (transformEsmImports c _ st); split; assumption.
    + destruct (rewriteImport_requests p outPath s st l Hl Hnd)
        as (l1 & Hl1 & Hnd1 & Hsub1).
      cbn. unfold bind at 1.
      destruct (rewriteImport w config p outPath s st) as [s' st1|e st1].
      * destruct (IH st1 l1 Hl1 Hnd1) as (l' & Hl' & Hnd' & Hsub').
        exists l'. unfold bind at 1.
        destruct (transformEsmImports c _ st1);
          (split; [exact Hl' | split; [exact Hnd'|]]);
          intros x Hx; apply Hsub', Hsub1, Hx.
      * exists l1. split; [exact Hl1 | split; assumption].
Qed.

(** With bundling enabled the rewriters of the mount-level pass and of the
    build pass record nothing. *)
Lemma rewriteImport_bundled p outPath s st :
  isBundled w config = true ->
  p <> PluginPass ->
  allProxiedFiles (finalState (rewriteImport w config p outPath s st))
  = allProxiedFiles st.
Proof.
  intros Hb Hp. unfold rewriteImport.
  assert (Hguard : proxyGuard p (isBundled w config) = false).
  { rewrite Hb. now destruct p. }
  rewrite Hguard. cbn [andb].
  destruct (Js.startsWith s "http"); [reflexivity|].
  destruct (isPathSpec s).
  - destruct (String.eqb _ EmptyString); [reflexivity|].
    unfold bind. destruct (Js.truthy _); [|reflexivity].
    destruct (Js.replaceAtEndBy _ _ _); reflexivity.
  - destruct (Js.truthy _); [|reflexivity].
    destruct (Js.get _ _); reflexivity.
Qed.

(** The plugin worker leaves the record of built files as it is, whatever
    the plugin answers. *)
Lemma runPluginWorker_built id workerConfig dirDisk dirDest f :
  keepsBuilt (runPluginWorker w config id workerConfig dirDisk dirDest f).
Proof.
  unfold runPluginWorker.
  destruct (plugins w (cmd workerConfig)) as [build|]; [|apply keepsBuilt_throw].
  apply keepsBuilt_bind; [apply keepsBuilt_getDisk|]. intros d.
  destruct (build d f) as [message|result].
  - apply keepsBuilt_bind; [apply keepsBuilt_emit | intros _; apply keepsBuilt_emit].
  - apply keepsBuilt_bind.
    { destruct (outputPath _ _ _ _);
        [apply keepsBuilt_ret | apply keepsBuilt_throw]. }
    intros outPath. unfold writeOutput. apply keepsBuilt_bind.
    + case_if; [|apply keepsBuilt_ret].
      intros st. apply transformEsmImports_built.
    + intros code1. apply keepsBuilt_bind; [apply keepsBuilt_mkdirp|].
      intros _. apply keepsBuilt_writeFile.
Qed.

End SetFacts.

(** The rewriter of the plugin pass does not look at the bundling mode. *)
Lemma rewriteImport_plugin_any_mode (w : World) (config1 config2 : Config)
      (outPath spec : string) (st : state) :
  rewriteImport w config1 PluginPass outPath spec st
  = rewriteImport w config2 PluginPass outPath spec st.
Proof. reflexivity. Qed.

(** The filter of the copy refuses exactly the recorded paths. *)
Lemma copyFilter_recorded (built : list string) (srcLoc : string) :
  copyFilter built srcLoc = false <-> In srcLoc built.
Proof.
  unfold copyFilter. rewrite negb_false_iff. apply existsb_eqb_In.
Qed.

(** ** Facts about routing *)

Lemma includes_prefix (s sub : string) :
  String.prefix sub s = true -> Js.includes s sub = true.
Proof. intros H. destruct s; cbn [Js.includes]; now rewrite H. Qed.

Lemma includes_cons (a : ascii) (s sub : string) :
  Js.includes s sub = true -> Js.includes (String a s) sub = true.
Proof. intros H. cbn [Js.includes]. rewrite H. apply orb_true_r. Qed.

Lemma includes_app_l (a s sub : string) :
  Js.includes s sub = true -> Js.includes (a +:+ s) sub = true.
Proof.
  intros H. induction a as [|x a IH]; [exact H|].
  rewrite str_app_cons. now apply includes_cons.
Qed.

Lemma includes_app_r (s b sub : string) :
  Js.includes s sub = true -> Js.includes (s +:+ b) sub = true.
Proof.
  induction s as [|x s IH]; intros H.
  - simpl in H. rewrite orb_false_r in H.
    apply includes_prefix. change (EmptyString +:+ b) with b.
    destruct sub; [now destruct b | discriminate].
  - cbn [Js.includes] in H. rewrite str_app_cons.
    apply orb_true_iff in H as [H|H].
    + apply includes_prefix. rewrite <- str_app_cons. now apply prefix_app_r.
    + apply includes_cons. now apply IH.
Qed.

Lemma prefix_trans (a b c : string) :
  String.prefix a b = true -> String.prefix b c = true ->
  String.prefix a c = true.
Proof.
  intros [t ->]%prefix_spec [u ->]%prefix_spec. apply prefix_spec.
  exists (t +:+ u). apply str_app_assoc.
Qed.

Lemma prefix_cons_same (a : ascii) (s t : string) :
  String.prefix s t = true -> String.prefix (String a s) (String a t) = true.
Proof.
  intros [u ->]%prefix_spec. apply prefix_spec. exists u. reflexivity.
Qed.

(** The first piece of a split starts the string; every later piece
    follows a separator. *)
Lemma splitOn_shape (c : ascii) (s : string) :
  exists h t,
    Js.splitOn c s = h :: t /\
    String.prefix h s = true /\
    forall x, In x t -> Js.includes s (String c x) = true.
Proof.
  induction s as [|a s (h & t & Hsplit & Hh & Ht)].
  - exists EmptyString, []. repeat split. intros x [].
  - cbn [Js.splitOn]. rewrite Hsplit.
    destruct (Ascii.eqb_spec a c) as [->|Hne].
    + exists EmptyString, (h :: t). repeat split.
      intros x [<- | Hx].
      * apply includes_prefix. now apply prefix_cons_same.
      * apply includes_cons. now apply Ht.
    + exists (String a h), t. repeat split.
      * now apply prefix_cons_same.
      * intros x Hx. apply includes_cons. now apply Ht.
Qed.

(** A worker takes every file whose extension it declares. *)
Lemma declared_extension_taken (id f : string) :
  isTransformer id = true ->
  In (Js.substr1 (Path.extname f)) (declaredExtensions id) ->
  takesFile id f = true.
Proof.
  intros Hid Hin. unfold takesFile.
  set (ext := Js.substr1 (Path.extname f)) in *.
  assert (Hrest : exists kind rest,
             id = kind +:+ ":" +:+ rest /\
             allChars (fun a => negb (Ascii.eqb a ":")) kind = true).
  { unfold isTransformer, Js.startsWith in Hid.
    apply orb_true_iff in Hid as [[t ->]%prefix_spec | [t ->]%prefix_spec].
    - now exists "build", t.
    - now exists "plugin", t. }
  destruct Hrest as (kind & rest & -> & Hkind).
  unfold declaredExtensions in Hin.
  rewrite (splitOn_word _ _ _ Hkind) in Hin.
  change (":" +:+ rest) with (String ":" rest) in Hin.
  cbn [Js.splitOn] in Hin. rewrite Ascii.eqb_refl in Hin.
  destruct (splitOn_shape ":" rest) as (seg & t & Hsplit & Hseg & _).
  rewrite Hsplit in Hin. cbn [nth] in Hin.
  destruct (splitOn_shape "," seg) as (h & t2 & Hsplit2 & Hh & Ht2).
  rewrite Hsplit2 in Hin.
  destruct Hin as [<- | Hin].
  - assert (H : Js.includes (kind +:+ ":" +:+ rest) (":" +:+ h) = true).
    { apply includes_app_l, includes_prefix.
      apply (prefix_cons_same ":"), (prefix_trans _ _ _ Hh Hseg). }
    now rewrite H.
  - assert (H : Js.includes (kind +:+ ":" +:+ rest) ("," +:+ ext) = true).
    { apply includes_app_l, includes_cons.
      apply prefix_spec in Hseg as [u ->].
      apply includes_app_r. now apply Ht2. }
    rewrite H. apply orb_true_r.
Qed.

Section RoutingFacts.

Variable w : World.
Variable cwd : string.
Variable config : Config.

(** A file whose extension is in the registry is deferred to the workers
    and nothing is done with it in the mount-level pass. *)
Lemma mountFileTask_registered dirDisk dirDest f st :
  existsb (String.eqb (Js.substr1 (Path.extname (Path.resolve cwd f))))
          (allBuildExtensions config) = true ->
  mountFileTask w cwd config dirDisk dirDest f st
  = Ok (Some (Path.resolve cwd f)) st.
Proof. intros H. unfold mountFileTask. now rewrite H. Qed.

(** A file whose extension is not in the registry is copied or rewritten
    on the spot and never reaches the list handed to the workers. *)
Lemma mountFileTask_unregistered dirDisk dirDest f st :
  existsb (String.eqb (Js.substr1 (Path.extname (Path.resolve cwd f))))
          (allBuildExtensions config) = false ->
  forall r st', mountFileTask w cwd config dirDisk dirDest f st = Ok r st' ->
                r = None.
Proof.
  intros H r st' Hrun. unfold mountFileTask in Hrun. rewrite H in Hrun.
  unfold bind in Hrun.
  destruct (mkdirp _ st) as [u st1|e st1]; [|discriminate].
  destruct (negb (String.eqb (Path.extname (Path.resolve cwd f)) ".js")).
  - destruct (copyFile _ _ st1); [unfold ret in Hrun; congruence | discriminate].
  - destruct (readFile _ st1) as [c0 st2|]; [|discriminate].
    destruct (transformEsmImports _ _ st2) as [c1 st3|]; [|discriminate].
    destruct (writeFile _ _ st3); [unfold ret in Hrun; congruence | discriminate].
Qed.

End RoutingFacts.

(** ** Facts about the mount commands *)

Lemma mountTokens_malformed (id : string) (script : DevScript) (st : state) :
  firstToken (cmd script) <> "mount" ->
  mountTokens id script st
  = Throw ("script[" +:+ id +:+ "] must use the mount command") st.
Proof.
  unfold firstToken, mountTokens. intros Hfirst.
  destruct (Js.splitWs (cmd script)) as [|first rest]; [reflexivity|].
  apply String.eqb_neq in Hfirst. now rewrite Hfirst.
Qed.

(** The first loop over the scripts reads the configuration only: it
    leaves the state as it found it, whether it throws or not. *)
Lemma mountedDirectory_pure (cwd : string) (entry : string * DevScript)
      (st : state) :
  finalState (mountedDirectory cwd entry st) = st.
Proof.
  destruct entry as [id script]. unfold mountedDirectory.
  destruct (negb (Js.startsWith id "mount:")); [reflexivity|].
  unfold bind, mountTokens.
  destruct (Js.splitWs (cmd script)) as [|first rest]; [reflexivity|].
  destruct (String.eqb first "mount"); [|reflexivity].
  destruct rest as [|src [|x rest]]; reflexivity.
Qed.

Lemma mountedDirectories_pure (cwd : string) (entries : list (string * DevScript))
      (st : state) :
  finalState (mountedDirectories cwd entries st) = st.
Proof.
  induction entries as [|e entries IH]; [reflexivity|].
  cbn [mountedDirectories]. unfold bind at 1.
  pose proof (mountedDirectory_pure cwd e st) as He.
  destruct (mountedDirectory cwd e st) as [r st1|err st1]; cbn in He; subst st1;
    [|reflexivity].
  unfold bind at 1.
  destruct (mountedDirectories cwd entries st) as [rs st1|err st1];
    cbn in IH; subst st1; reflexivity.
Qed.

Lemma mountedDirectories_malformed (cwd id : string) (script : DevScript)
      (entries : list (string * DevScript)) (st : state) :
  In (id, script) entries ->
  Js.startsWith id "mount:" = true ->
  firstToken (cmd script) <> "mount" ->
  exists e, mountedDirectories cwd entries st = Throw e st.
Proof.
  intros Hin Hid Hfirst. induction entries as [|e entries IH]; [contradiction|].
  cbn [mountedDirectories]. unfold bind at 1.
  pose proof (mountedDirectory_pure cwd e st) as He.
  destruct Hin as [-> | Hin].
  - unfold mountedDirectory. rewrite Hid. cbn [negb]. unfold bind at 1.
    rewrite (mountTokens_malformed id script st Hfirst). eauto.
  - destruct (mountedDirectory cwd e st) as [r st1|err st1]; cbn in He; subst st1;
      [|eauto].
    unfold bind at 1. destruct (IH Hin) as [err Herr]. rewrite Herr. eauto.
Qed.

Lemma mountedDirectories_wellFormed (cwd : string)
      (entries : list (string * DevScript)) (st : state) :
  forallb wellFormedMount entries = true ->
  exists r, mountedDirectories cwd entries st = Ok r st.
Proof.
  induction entries as [|e entries IH]; intros Hwf; [now exists []|].
  simpl in Hwf. apply andb_prop in Hwf as [He Hwf].
  destruct (IH Hwf) as [rs Hrs].
  cbn [mountedDirectories]. unfold bind at 1.
  assert (Hone : exists r, mountedDirectory cwd e st = Ok r st).
  { destruct e as [id script]. unfold wellFormedMount in He. cbn [fst snd] in He.
    unfold mountedDirectory.
    destruct (Js.startsWith id "mount:"); cbn [negb]; [|now eexists].
    unfold bind, mountTokens.
    destruct (Js.splitWs (cmd script)) as [|first [|src rest]]; try discriminate.
    rewrite He. destruct rest; now eexists. }
  destruct Hone as [r Hr]. rewrite Hr. unfold bind at 1. rewrite Hrs.
  now eexists.
Qed.

(** The intermediate directory is a normalised absolute path when the
    working directory and the output directory are. *)
Lemma buildDirectoryLoc_plain (w : World) (config : Config)
      (cwdSegs outSegs : list string) :
  plainSegs cwdSegs = true ->
  plainSegs outSegs = true ->
  out config = Path.joinSegs outSegs ->
  exists segs, plainSegs segs = true /\
               buildDirectoryLoc w (Path.joinSegs cwdSegs) config
               = Path.joinSegs segs.
Proof.
  intros Hcwd Hout Heq. unfold buildDirectoryLoc.
  destruct (isBundled w config).
  - exists (cwdSegs ++ [".build"]). split.
    + apply plainSegs_snoc; [now apply plainSegs_forallb | reflexivity].
    + apply join_child; [now apply plainSegs_forallb | reflexivity].
  - exists outSegs. now split.
Qed.

Lemma yargsTo_flag (src dest : string) :
  isWord src = true -> yargsTo [src; "--to"; dest] = Some dest.
Proof.
  intros Hsrc. cbn [yargsTo]. now rewrite (isWord_not_flag _ Hsrc).
Qed.

(** ** Relations kept along the pipeline

    [R] relates the state before a step to the state after it, and
    [allowed] tells where files may be written.  Once the primitive
    operations keep [R], every part of the pipeline does, whether it
    answers or throws. *)

Section Frame.

Variable R : state -> state -> Prop.
Variable allowed : string -> Prop.

Hypothesis R_refl : forall st, R st st.
Hypothesis R_trans : forall a b c, R a b -> R b c -> R a c.
Hypothesis R_emit : forall e st, R st (emitted e st).
Hypothesis R_mkdirp : forall dir, keeps R (mkdirp dir).
Hypothesis R_writeFile : forall p c, allowed p -> keeps R (writeFile p c).
Hypothesis R_proxied :
  forall x l st,
    allProxiedFiles st = Some l ->
    R st {| bus := bus st; disk := disk st;
            allBuiltFromFiles := allBuiltFromFiles st;
            allProxiedFiles := Some (setAdd x l) |}.
Hypothesis R_built :
  forall x l st,
    allBuiltFromFiles st = Some l ->
    R st {| bus := bus st; disk := disk st;
            allBuiltFromFiles := Some (setAdd x l);
            allProxiedFiles := allProxiedFiles st |}.

Lemma keeps_ret {A} (a : A) : keeps R (ret a).
Proof. intros st. apply R_refl. Qed.

Lemma keeps_throw {A} (e : string) : keeps R (@throw A e).
Proof. intros st. apply R_refl. Qed.

Lemma keeps_bind {A B} (m : M A) (k : A -> M B) :
  keeps R m -> (forall a, keeps R (k a)) -> keeps R (bind m k).
Proof.
  intros Hm Hk st. unfold bind. specialize (Hm st).
  destruct (m st) as [a st1|e st1]; [|exact Hm].
  exact (R_trans _ _ _ Hm (Hk a st1)).
Qed.

Lemma keeps_if {A} (b : bool) (m1 m2 : M A) :
  keeps R m1 -> keeps R m2 -> keeps R (if b then m1 else m2).
Proof. now destruct b. Qed.

Lemma keeps_emit (e : event) : keeps R (emit e).
Proof. intros st. apply R_emit. Qed.

Lemma keeps_getDisk : keeps R getDisk.
Proof. intros st. apply R_refl. Qed.

Lemma keeps_proxiedAdd (x : string) : keeps R (proxiedAdd x).
Proof.
  intros st. unfold proxiedAdd.
  destruct (allProxiedFiles st) as [l|] eqn:Hl; [|apply R_refl].
  now apply R_proxied.
Qed.

Lemma keeps_builtAdd (x : string) : keeps R (builtAdd x).
Proof.
  intros st. unfold builtAdd.
  destruct (allBuiltFromFiles st) as [l|] eqn:Hl; [|apply R_refl].
  now apply R_built.
Qed.

Lemma keeps_readFile (p : string) : keeps R (readFile p).
Proof.
  unfold readFile. apply keeps_bind; [apply keeps_getDisk|]. intros d.
  destruct (Fs.lookup p d) as [[c|]|];
    first [apply keeps_ret | apply keeps_throw].
Qed.

Lemma keeps_copyFile (src dst : string) :
  allowed dst -> keeps R (copyFile src dst).
Proof.
  intros Hdst. unfold copyFile. apply keeps_bind; [apply keeps_readFile|].
  intros c. now apply R_writeFile.
Qed.

Lemma keeps_orThrow {A} (err : string) (o : option A) :
  keeps R (orThrow err o).
Proof. destruct o; [apply keeps_ret | apply keeps_throw]. Qed.

Lemma keeps_orThrow_bind {A B} (err : string) (o : option A) (k : A -> M B) :
  (forall a, o = Some a -> keeps R (k a)) -> keeps R (bind (orThrow err o) k).
Proof.
  intros Hk st. destruct o as [a|]; unfold bind, orThrow, ret, throw.
  - now apply Hk.
  - apply R_refl.
Qed.

Section WithWorld.

Variable w : World.
Variable cwd : string.
Variable config : Config.

Lemma keeps_rewriteImport p outPath spec :
  keeps R (rewriteImport w config p outPath spec).
Proof.
  unfold rewriteImport.
  apply keeps_if; [apply keeps_ret|].
  apply keeps_if.
  - apply keeps_if; [apply keeps_ret|].
    apply keeps_bind.
    { apply keeps_if; [apply keeps_orThrow | apply keeps_ret]. }
    intros spec1.
    apply keeps_if; [|apply keeps_ret].
    apply keeps_bind; [apply keeps_proxiedAdd | intros _; apply keeps_ret].
  - apply keeps_if.
    + destruct (Js.get _ _); [apply keeps_throw | apply keeps_ret | apply keeps_throw].
    + apply keeps_bind; [apply keeps_emit | intros _; apply keeps_ret].
Qed.

Lemma keeps_transformEsmImports (f : string -> M string) (c : code) :
  (forall s, keeps R (f s)) -> keeps R (transformEsmImports c f).
Proof.
  intros Hf. induction c as [|ch c IH]; [apply keeps_ret|].
  destruct ch as [t|s]; cbn [transformEsmImports].
  - apply keeps_bind; [exact IH | intros; apply keeps_ret].
  - apply keeps_bind; [apply Hf|]. intros s'.
    apply keeps_bind; [exact IH | intros; apply keeps_ret].
Qed.

(** *** The mount-level pass *)

Lemma keeps_mountFileTask dirDisk dirDest f :
  allowed (Js.replace (Path.resolve cwd f) dirDisk dirDest) ->
  keeps R (mountFileTask w cwd config dirDisk dirDest f).
Proof.
  intros Hout. unfold mountFileTask. apply keeps_if; [apply keeps_ret|].
  apply keeps_bind; [apply R_mkdirp|]. intros _.
  apply keeps_if.
  - apply keeps_bind; [now apply keeps_copyFile | intros; apply keeps_ret].
  - apply keeps_bind; [apply keeps_readFile|]. intros c0.
    apply keeps_bind.
    + apply keeps_transformEsmImports. intros s. apply keeps_rewriteImport.
    + intros c1. apply keeps_bind; [now apply R_writeFile | intros; apply keeps_ret].
Qed.

Lemma settleAll_keeps dirDisk dirDest files :
  (forall f, In f files ->
             allowed (Js.replace (Path.resolve cwd f) dirDisk dirDest)) ->
  forall st, R st (snd (settleAll w cwd config dirDisk dirDest files st)).
Proof.
  induction files as [|f files IH]; intros Hfiles st; [apply R_refl|].
  cbn [settleAll].
  assert (Hf : allowed (Js.replace (Path.resolve cwd f) dirDisk dirDest))
    by (apply Hfiles; now left).
  assert (Hrest : forall g, In g files ->
                            allowed (Js.replace (Path.resolve cwd g) dirDisk dirDest))
    by (intros g Hg; apply Hfiles; now right).
  pose proof (keeps_mountFileTask dirDisk dirDest f Hf st) as Hone.
  destruct (mountFileTask w cwd config dirDisk dirDest f st) as [r st1|e st1];
    cbn [finalState] in Hone; specialize (IH Hrest st1);
    destruct (settleAll w cwd config dirDisk dirDest files st1) as [[needed err] st2];
    cbn [snd] in *; eapply R_trans; eassumption.
Qed.

Lemma mountOne_keeps id dirDisk dirDest st :
  (forall f, In f (Fs.filesUnder dirDisk (disk st)) ->
             allowed (Js.replace (Path.resolve cwd f) dirDisk dirDest)) ->
  R st (finalState (mountOne w cwd config (id, dirDisk, dirDest) st)).
Proof.
  intros Hfiles. unfold mountOne. unfold bind at 1. unfold emit at 1.
  unfold bind at 1. unfold globSync at 1, bind at 1, getDisk at 1, ret at 1.
  set (st1 := {| bus := bus st ++ [WORKER_UPDATE id "RUNNING"]; disk := disk st;
                 allBuiltFromFiles := allBuiltFromFiles st;
                 allProxiedFiles := allProxiedFiles st |}).
  cbn [disk]. set (files := List.filter _ _).
  assert (Hall : forall f, In f files ->
                   allowed (Js.replace (Path.resolve cwd f) dirDisk dirDest)).
  { intros f [Hf _]%filter_In. now apply Hfiles. }
  pose proof (settleAll_keeps dirDisk dirDest files Hall st1) as Hrun.
  apply (R_trans _ st1); [apply (R_emit _ st)|].
  destruct (settleAll w cwd config dirDisk dirDest files st1) as [[needed [err|]] st2];
    cbn [snd] in Hrun.
  - refine (R_trans _ _ _ Hrun _).
    apply (keeps_bind (emit _) (fun _ => run emit _; ret None));
      [apply keeps_emit|]. intros _.
    apply keeps_bind; [apply keeps_emit | intros; apply keeps_ret].
  - refine (R_trans _ _ _ Hrun _).
    apply (keeps_bind (emit _) (fun _ => ret _));
      [apply keeps_emit | intros; apply keeps_ret].
Qed.

Lemma keeps_mountAll details :
  (forall p, allowed p) -> keeps R (mountAll w cwd config details).
Proof.
  intros Hany. induction details as [|[[id dirDisk] dirDest] details IH];
    [apply keeps_ret|].
  cbn [mountAll]. apply keeps_bind.
  - intros st. apply mountOne_keeps. intros; apply Hany.
  - intros r. apply keeps_bind; [exact IH | intros; apply keeps_ret].
Qed.

(** *** The worker passes *)

Lemma keeps_writeOutput p outPath result :
  allowed outPath -> keeps R (writeOutput w config p outPath result).
Proof.
  intros Hout. unfold writeOutput. apply keeps_bind.
  - apply keeps_if; [|apply keeps_ret].
    apply keeps_transformEsmImports. intros s. apply keeps_rewriteImport.
  - intros c1. apply keeps_bind; [apply R_mkdirp | intros; now apply R_writeFile].
Qed.

Lemma keeps_runBuildWorker workerConfig dirDisk dirDest f :
  (forall out, outputPath w dirDisk dirDest f = Some out -> allowed out) ->
  keeps R (runBuildWorker w config workerConfig dirDisk dirDest f).
Proof.
  intros Hout. unfold runBuildWorker.
  apply keeps_bind; [apply keeps_getDisk|]. intros d.
  apply keeps_if; [apply keeps_throw|].
  apply keeps_bind.
  - apply keeps_if; [apply keeps_emit | apply keeps_ret].
  - intros _. apply keeps_if; [apply keeps_ret|].
    apply keeps_orThrow_bind. intros out Hpath.
    apply keeps_bind; [apply keeps_writeOutput; now apply Hout
                      | intros; apply keeps_builtAdd].
Qed.

Lemma keeps_runPluginWorker id workerConfig dirDisk dirDest f :
  (forall out, outputPath w dirDisk dirDest f = Some out -> allowed out) ->
  keeps R (runPluginWorker w config id workerConfig dirDisk dirDest f).
Proof.
  intros Hout. unfold runPluginWorker.
  destruct (plugins w (cmd workerConfig)) as [build|]; [|apply keeps_throw].
  apply keeps_bind; [apply keeps_getDisk|]. intros d.
  destruct (build d f) as [message|result].
  - apply keeps_bind; [apply keeps_emit | intros; apply keeps_emit].
  - apply keeps_orThrow_bind. intros out Hpath.
    apply keeps_writeOutput. now apply Hout.
Qed.

Lemma keeps_transformFile id workerConfig dirDisk dirDest f :
  (forall out, outputPath w dirDisk dirDest f = Some out -> allowed out) ->
  keeps R (transformFile w config id workerConfig dirDisk dirDest f).
Proof.
  intros Hout. unfold transformFile. apply keeps_if; [apply keeps_ret|].
  apply keeps_if; [now apply keeps_runBuildWorker|].
  apply keeps_if; [now apply keeps_runPluginWorker | apply keeps_ret].
Qed.

Lemma keeps_transformFiles id workerConfig dirDisk dirDest files :
  (forall f, In f files -> (forall out, outputPath w dirDisk dirDest f = Some out -> allowed out)) ->
  keeps R (transformFiles w config id workerConfig dirDisk dirDest files).
Proof.
  induction files as [|f files IH]; intros Hfiles; [apply keeps_ret|].
  cbn [transformFiles]. apply keeps_bind.
  - apply keeps_transformFile, Hfiles. now left.
  - intros _. apply IH. intros g Hg. apply Hfiles. now right.
Qed.

Lemma keeps_transformSets id workerConfig sets :
  (forall dirDisk dirDest files f,
      In (dirDisk, dirDest, files) sets -> In f files ->
      (forall out, outputPath w dirDisk dirDest f = Some out -> allowed out)) ->
  keeps R (transformSets w config id workerConfig sets).
Proof.
  induction sets as [|[[dirDisk dirDest] files] sets IH]; intros Hsets;
    [apply keeps_ret|].
  cbn [transformSets]. apply keeps_bind.
  - apply keeps_transformFiles. intros f Hf.
    apply (Hsets dirDisk dirDest files f); [now left | exact Hf].
  - intros _. apply IH. intros dd de fs f Hin Hf.
    apply (Hsets dd de fs f); [now right | exact Hf].
Qed.

Lemma keeps_workerPass workers sets :
  (forall dirDisk dirDest files f,
      In (dirDisk, dirDest, files) sets -> In f files ->
      (forall out, outputPath w dirDisk dirDest f = Some out -> allowed out)) ->
  keeps R (workerPass w config workers sets).
Proof.
  intros Hsets.
  induction workers as [|[id workerConfig] workers IH]; [apply keeps_ret|].
  cbn [workerPass]. apply keeps_if; [exact IH|].
  apply keeps_bind; [apply keeps_emit|]. intros _.
  apply keeps_bind; [now apply keeps_transformSets|]. intros _.
  apply keeps_bind; [apply keeps_emit | intros; exact IH].
Qed.

(** *** Proxy modules, lint workers, mount commands *)

Lemma keeps_writeProxies locs :
  (forall loc, In loc locs -> allowed (loc +:+ ".proxy.js")) ->
  keeps R (writeProxies w cwd config locs).
Proof.
  induction locs as [|loc locs IH]; intros Hlocs; [apply keeps_ret|].
  cbn [writeProxies]. apply keeps_bind; [apply keeps_readFile|]. intros c.
  apply keeps_bind.
  - apply R_writeFile, Hlocs. now left.
  - intros _. apply IH. intros l Hl. apply Hlocs. now right.
Qed.

Lemma keeps_proxyPass :
  (forall p, allowed p) -> keeps R (proxyPass w cwd config).
Proof.
  intros Hany st. unfold proxyPass.
  destruct (allProxiedFiles st); [|apply R_refl].
  apply keeps_writeProxies. intros; apply Hany.
Qed.

Lemma keeps_startLintWorkers workers : keeps R (startLintWorkers w workers).
Proof.
  induction workers as [|[id workerConfig] workers IH]; [apply keeps_ret|].
  cbn [startLintWorkers]. apply keeps_if; [exact IH|].
  apply keeps_bind; [apply keeps_emit|]. intros _.
  apply keeps_bind; [apply keeps_getDisk|]. intros d.
  apply keeps_bind; [exact IH | intros; apply keeps_ret].
Qed.

Lemma keeps_awaitLintWorkers ps : keeps R (awaitLintWorkers ps).
Proof.
  induction ps as [|[id r] ps IH]; [apply keeps_ret|].
  cbn [awaitLintWorkers]. apply keeps_bind.
  - apply keeps_if; [apply keeps_emit | apply keeps_ret].
  - intros _. apply keeps_if.
    + apply keeps_bind; [apply keeps_emit | intros; exact IH].
    + apply keeps_bind; [apply keeps_emit|]. intros _.
      apply keeps_bind; [apply keeps_emit|]. intros _.
      apply keeps_bind; [exact IH | intros; apply keeps_ret].
Qed.

Lemma keeps_mountTokens id script : keeps R (mountTokens id script).
Proof.
  unfold mountTokens. destruct (Js.splitWs (cmd script)); [apply keeps_throw|].
  apply keeps_if; [apply keeps_ret | apply keeps_throw].
Qed.

Lemma keeps_mountDirDetail entry : keeps R (mountDirDetail w cwd config entry).
Proof.
  destruct entry as [id script]. unfold mountDirDetail.
  apply keeps_if; [apply keeps_ret|].
  apply keeps_bind; [apply keeps_mountTokens|]. intros cmdArr.
  destruct cmdArr as [|src [|x rest]];
    [apply keeps_throw | apply keeps_ret |].
  destruct (yargsTo (src :: x :: rest)); [apply keeps_ret | apply keeps_throw].
Qed.

Lemma keeps_mountDirDetails entries :
  keeps R (mountDirDetails w cwd config entries).
Proof.
  induction entries as [|e entries IH]; [apply keeps_ret|].
  cbn [mountDirDetails].
  apply keeps_bind; [apply keeps_mountDirDetail|]. intros r.
  apply keeps_bind; [exact IH | intros; apply keeps_ret].
Qed.

(** *** The whole function *)

Lemma keeps_afterClean :
  (forall p, allowed p) ->
  keeps R declareSets ->
  (isBundled w config = true ->
   keeps R (prepareBuildDirectoryForParcel w cwd config)) ->
  keeps R (afterClean w cwd config).
Proof.
  intros Hany Hdecl Hstage. unfold afterClean.
  apply keeps_bind; [apply keeps_if; [apply keeps_emit | apply keeps_ret]|].
  intros _. apply keeps_bind; [apply keeps_startLintWorkers|]. intros lint.
  apply keeps_bind; [apply keeps_mountDirDetails|]. intros details.
  apply keeps_bind; [now apply keeps_mountAll|]. intros sets.
  apply keeps_bind; [exact Hdecl|]. intros _.
  apply keeps_bind; [apply keeps_workerPass; intros; apply Hany|]. intros _.
  apply keeps_bind; [apply keeps_awaitLintWorkers|]. intros ok.
  apply keeps_bind; [apply keeps_if; [apply keeps_ret | apply keeps_throw]|].
  intros _. apply keeps_bind; [now apply keeps_proxyPass|]. intros _.
  destruct (isBundled w config); cbn [negb].
  - apply keeps_bind; [apply keeps_emit|]. intros _.
    now apply Hstage.
  - apply keeps_bind; [apply keeps_emit|]. intros _.
    apply keeps_bind; [apply keeps_emit|]. intros _.
    apply keeps_if; [apply keeps_emit | apply keeps_ret].
Qed.

End WithWorld.

End Frame.

(** ** The status channel *)

Lemma mkdirp_bus (dir : string) (st : state) :
  bus (finalState (mkdirp dir st)) = bus st.
Proof.
  unfold mkdirp, bind, getDisk.
  now destruct (Fs.mkdirs (Fs.ancestors dir) (disk st)).
Qed.

Lemma writeFile_bus (p : string) (c : code) (st : state) :
  bus (finalState (writeFile p c st)) = bus st.
Proof.
  unfold writeFile, bind, getDisk. case_if; [reflexivity|].
  now destruct (Fs.lookup p (disk st)) as [[|]|].
Qed.

Section BusFacts.

Variable w : World.
Variable cwd : string.
Variable config : Config.

(** The files handed to the workers are the registered ones, whatever
    happens to the other tasks of the mount. *)
Lemma settleAll_needed dirDisk dirDest files :
  forall st,
    fst (fst (settleAll w cwd config dirDisk dirDest files st))
    = List.filter (registered config) (map (Path.resolve cwd) files).
Proof.
  induction files as [|f files IH]; intros st; [reflexivity|].
  cbn [settleAll map List.filter]. unfold registered at 1.
  destruct (existsb _ (allBuildExtensions config)) eqn:Hreg.
  - rewrite (mountFileTask_registered w cwd config dirDisk dirDest f st Hreg).
    specialize (IH st).
    destruct (settleAll w cwd config dirDisk dirDest files st) as [[needed err] st2].
    cbn [fst] in *. now rewrite IH.
  - pose proof (mountFileTask_unregistered w cwd config dirDisk dirDest f st Hreg) as Hnone.
    destruct (mountFileTask w cwd config dirDisk dirDest f st) as [r st1|e st1].
    + rewrite (Hnone r st1 eq_refl). specialize (IH st1).
      destruct (settleAll w cwd config dirDisk dirDest files st1) as [[needed err] st2].
      exact IH.
    + specialize (IH st1).
      destruct (settleAll w cwd config dirDisk dirDest files st1) as [[needed err] st2].
      exact IH.
Qed.

End BusFacts.

(** ** The shape of a path that has an extension *)

Lemma string_of_list_app (a b : list ascii) :
  string_of_list_ascii (a ++ b)
  = string_of_list_ascii a +:+ string_of_list_ascii b.
Proof. induction a as [|c a IH]; [reflexivity|]. simpl. now rewrite IH. Qed.

Lemma string_of_repeat_slash (k : nat) :
  string_of_list_ascii (repeat Path.slash k) = slashes k.
Proof. induction k as [|k IH]; [reflexivity|]. simpl. now rewrite IH. Qed.

Lemma rev_repeat {A} (a : A) (k : nat) : rev (repeat a k) = repeat a k.
Proof.
  induction k as [|k IH]; [reflexivity|].
  simpl. rewrite IH. clear IH. induction k as [|k IH]; [reflexivity|].
  simpl. now rewrite IH.
Qed.

Lemma allChars_string_of_list (f : ascii -> bool) (l : list ascii) :
  allChars f (string_of_list_ascii l) = forallb f l.
Proof. induction l as [|c l IH]; [reflexivity|]. simpl. now rewrite IH. Qed.

(** Read from its end, a path is a run of slashes, then a run of
    characters that are neither dot nor slash, then the rest. *)
Lemma reversed_path_shape (cs : list ascii) :
  exists k xs tail,
    cs = repeat Path.slash k ++ xs ++ tail /\
    forallb extChar xs = true /\
    (tail = [] \/ (exists t, tail = Path.dot :: t) \/
     (exists t, tail = Path.slash :: t /\ xs <> [])).
Proof.
  induction cs as [|c cs (k & xs & tail & Hcs & Hxs & Htail)].
  - exists O, [], []. repeat split; auto.
  - destruct (Ascii.eqb_spec c Path.slash) as [->|Hs].
    + exists (S k), xs, tail. subst cs. repeat split; auto.
    + destruct (Ascii.eqb_spec c Path.dot) as [->|Hd].
      * exists O, [], (Path.dot :: cs). repeat split; eauto.
      * assert (Hc : extChar c = true).
        { unfold extChar. apply Ascii.eqb_neq in Hs, Hd. now rewrite Hs, Hd. }
        destruct k as [|k].
        -- exists O, (c :: xs), tail. subst cs. cbn [forallb]. rewrite Hc, Hxs.
           split; [reflexivity|]. split; [reflexivity|].
           destruct Htail as [H | [H | (t & H & _)]];
             [eauto | eauto |
              right; right; exists t; split; [exact H | discriminate]].
        -- exists O, [c], cs. cbn [forallb]. rewrite Hc.
           split; [reflexivity|]. split; [reflexivity|].
           right. right. subst cs. eexists. split; [reflexivity | discriminate].
Qed.

Section ExtnameShape.

Import Path.

Lemma extnameLoop_slashes (k : nat) (rest : list ascii) (i : Z) :
  extnameLoop (repeat slash k ++ rest) i scan0
  = extnameLoop rest (i - Z.of_nat k) scan0.
Proof.
  revert i. induction k as [|k IH]; intros i.
  - cbn [repeat app]. f_equal. lia.
  - cbn [repeat app extnameLoop]. unfold extnameStep.
    change (Ascii.eqb slash slash) with true. cbn [matchedSlash scan0 negb].
    rewrite IH. f_equal. lia.
Qed.

Lemma extnameLoop_dot_found (j e : Z) (cs : list ascii) :
  j <> -1 -> e <> -1 ->
  forall i st,
    startDot st = j -> endIdx st = e ->
    startDot (extnameLoop cs i st) = j /\ endIdx (extnameLoop cs i st) = e.
Proof.
  intros Hj He. apply Z.eqb_neq in Hj as Hj'. apply Z.eqb_neq in He as He'.
  induction cs as [|c cs IH]; intros i st Hd Hend; [now split|].
  cbn [extnameLoop]. unfold extnameStep.
  destruct (Ascii.eqb c slash).
  - destruct (negb (matchedSlash st)); [now split | now apply IH].
  - rewrite Hend, He'. destruct (Ascii.eqb c dot).
    + rewrite Hd, Hj'. destruct (negb (preDotState st =? 1)); now apply IH.
    + rewrite Hd, Hj'. cbn [negb]. now apply IH.
Qed.

(** The loop after the trailing slashes and the characters of the
    extension. *)
Lemma extnameLoop_run (k : nat) (xs tail : list ascii) (i : Z) :
  forallb extChar xs = true ->
  0 <= i - Z.of_nat k + 1 ->
  extnameLoop (repeat slash k ++ xs ++ tail) i scan0
  = match xs with
    | [] => extnameLoop tail (i - Z.of_nat k) scan0
    | _ => extnameLoop tail (i - Z.of_nat k - Z.of_nat (List.length xs))
                       (Scan (-1) 0 (i - Z.of_nat k + 1) false 0)
    end.
Proof.
  intros Hxs Hi. rewrite extnameLoop_slashes.
  destruct xs as [|c xs]; [reflexivity|].
  cbn [forallb] in Hxs. apply andb_prop in Hxs as [Hc Hxs].
  unfold extChar in Hc. apply andb_prop in Hc as [Hs Hd].
  apply negb_true_iff in Hs. apply negb_true_iff in Hd.
  change ((c :: xs) ++ tail) with (c :: (xs ++ tail)).
  cbn [extnameLoop]. unfold extnameStep. rewrite Hs.
  cbn [endIdx scan0]. rewrite Hd.
  cbn -[extnameLoop Z.add Z.sub Z.of_nat].
  rewrite extnameLoop_ext_chars by (try assumption; lia).
  f_equal. cbn [List.length]. lia.
Qed.

(** Where the loop leaves the two indexes, for a path read from its
    end. *)
Lemma extnameLoop_shape (k : nat) (xs tail : list ascii) (n : Z) :
  forallb extChar xs = true ->
  n = Z.of_nat (k + List.length xs + List.length tail) ->
  let st := extnameLoop (repeat slash k ++ xs ++ tail) (n - 1) scan0 in
  match tail with
  | c :: t =>
      if Ascii.eqb c dot
      then startDot st = Z.of_nat (List.length t) /\
           endIdx st = Z.of_nat (List.length t) + 1 + Z.of_nat (List.length xs)
      else xs <> [] -> Ascii.eqb c slash = true -> startDot st = -1
  | [] => startDot st = -1
  end.
Proof.
  intros Hxs Hn st.
  destruct tail as [|c t].
  - unfold st. rewrite extnameLoop_run by (try assumption; cbn [List.length] in Hn; lia).
    now destruct xs.
  - cbn [List.length] in Hn.
    assert (Hst : st = extnameLoop (c :: t) (Z.of_nat (List.length t))
                         (match xs with
                          | [] => scan0
                          | _ => Scan (-1) 0 (n - Z.of_nat k) false 0
                          end)).
    { unfold st. rewrite extnameLoop_run by (try assumption; lia).
      destruct xs; cbn [List.length] in *; f_equal; try lia.
      f_equal. lia. }
    clearbody st. subst st.
    destruct (Ascii.eqb_spec c dot) as [->|Hd].
    + cbn [extnameLoop]. unfold extnameStep.
      change (Ascii.eqb dot slash) with false.
      change (Ascii.eqb dot dot) with true.
      destruct xs as [|x xs].
      * cbn -[extnameLoop Z.add Z.sub Z.of_nat].
        apply extnameLoop_dot_found; cbn [startDot endIdx List.length]; lia.
      * cbn [endIdx].
        assert (He : (n - Z.of_nat k =? -1) = false)
          by (apply Z.eqb_neq; cbn [List.length] in Hn; lia).
        rewrite He. cbn -[extnameLoop Z.add Z.sub Z.of_nat].
        cbn [List.length] in Hn.
        apply extnameLoop_dot_found; cbn [startDot endIdx List.length]; lia.
    + intros Hne Hslash. destruct xs as [|x xs]; [congruence|].
      cbn [extnameLoop]. unfold extnameStep. rewrite Hslash. reflexivity.
Qed.

End ExtnameShape.

(** A path with an extension ends with a dot, the extension, and slashes
    at most; the extension holds neither dot nor slash. *)
Lemma extname_shape (p : string) :
  Path.extname p = EmptyString \/
  exists pre x k,
    p = pre +:+ "." +:+ x +:+ slashes k /\
    allChars extChar x = true /\
    Path.extname p = "." +:+ x.
Proof.
  destruct (reversed_path_shape (rev (list_ascii_of_string p)))
    as (k & xs & tail & Hcs & Hxs & Htail).
  assert (Hn : Z.of_nat (String.length p)
               = Z.of_nat (k + List.length xs + List.length tail)).
  { rewrite <- length_list_ascii, <- length_rev, Hcs, !length_app, repeat_length.
    f_equal. lia. }
  pose proof (extnameLoop_shape k xs tail _ Hxs Hn) as Hloop.
  cbn zeta in Hloop. rewrite <- Hcs in Hloop.
  unfold Path.extname.
  set (st := Path.extnameLoop _ _ _) in *.
  destruct Htail as [-> | [(t & ->) | (t & -> & Hne)]].
  - rewrite Hloop. now left.
  - change (Ascii.eqb Path.dot Path.dot) with true in Hloop.
    destruct Hloop as [Hd He].
    case_if; [now left|]. right.
    exists (string_of_list_ascii (rev t)), (string_of_list_ascii (rev xs)), k.
    assert (Hp : p = string_of_list_ascii (rev t) +:+ "." +:+
                     string_of_list_ascii (rev xs) +:+ slashes k).
    { rewrite <- (string_of_list_ascii_of_string p).
      rewrite <- (rev_involutive (list_ascii_of_string p)), Hcs.
      rewrite !rev_app_distr, rev_repeat. cbn [rev].
      rewrite <- !List.app_assoc. cbn [app].
      rewrite string_of_list_app. cbn [string_of_list_ascii].
      rewrite string_of_list_app, string_of_repeat_slash. reflexivity. }
    split; [exact Hp|]. split.
    + now rewrite allChars_string_of_list, forallb_rev.
    + rewrite Hd, He. unfold Path.slice.
      rewrite Nat2Z.id.
      replace (Z.to_nat (Z.of_nat (List.length t) + 1 + Z.of_nat (List.length xs)
                         - Z.of_nat (List.length t)))
        with (S (List.length xs)) by lia.
      rewrite Hp at 1.
      replace (List.length t)
        with (String.length (string_of_list_ascii (rev t))).
      2:{ rewrite <- length_list_ascii, list_ascii_of_string_of_list_ascii.
          apply length_rev. }
      rewrite substring_app_r.
      rewrite <- !str_app_assoc.
      replace (S (List.length xs))
        with (String.length ("." +:+ string_of_list_ascii (rev xs))).
      2:{ rewrite str_length_app, <- (length_list_ascii (string_of_list_ascii _)),
            list_ascii_of_string_of_list_ascii, length_rev. reflexivity. }
      apply substring_app_l.
  - assert (Hs : Path.startDot st = -1).
    { apply Hloop; [exact Hne | reflexivity]. }
    rewrite Hs. now left.
Qed.

(** ** Where the passes write *)

Lemma replaceFrom_unfold (before s pat rep : string) :
  Js.replaceFrom before s pat rep
  = if String.prefix pat s
    then Js.expand rep pat before
                   (substring (String.length pat)
                              (String.length s - String.length pat) s)
         +:+ substring (String.length pat)
                       (String.length s - String.length pat) s
    else match s with
         | EmptyString => EmptyString
         | String c s' =>
             String c (Js.replaceFrom (before +:+ String c EmptyString) s' pat rep)
         end.
Proof. destruct s; reflexivity. Qed.

(** Replacing a prefix. *)
Lemma replace_prefix_expand (a t rep : string) :
  Js.replace (a +:+ t) a rep = Js.expand rep a EmptyString t +:+ t.
Proof.
  unfold Js.replace. rewrite replaceFrom_unfold, prefix_app, str_length_app.
  replace (String.length a + String.length t - String.length a)%nat
    with (String.length t) by lia.
  rewrite substring_app_r, substring_all by lia. reflexivity.
Qed.

Lemma replace_prefix (a t rep : string) :
  noDollar rep = true -> Js.replace (a +:+ t) a rep = rep +:+ t.
Proof.
  intros Hrep. now rewrite replace_prefix_expand, expand_noDollar.
Qed.

Lemma under_spec (dir p : string) :
  Fs.under dir p = true <-> exists t, p = dir +:+ "/" +:+ t.
Proof.
  unfold Fs.under, Js.startsWith. rewrite prefix_spec. split.
  - intros [t ->]. exists t. now rewrite !str_app_assoc.
  - intros [t ->]. exists t. now rewrite !str_app_assoc.
Qed.

Lemma replace_under (dirDisk dirDest f : string) :
  noDollar dirDest = true ->
  Fs.under dirDisk f = true ->
  Fs.under dirDest (Js.replace f dirDisk dirDest) = true.
Proof.
  intros Hdest [t ->]%under_spec. apply under_spec. exists t.
  now rewrite replace_prefix.
Qed.

Lemma substring_split (s : string) :
  forall k m, (k + m = String.length s)%nat ->
              s = substring 0 k s +:+ substring k m s.
Proof.
  induction s as [|c s IH]; intros k m Hlen.
  - cbn in Hlen. assert (k = O) by lia. assert (m = O) by lia. now subst.
  - cbn [String.length] in Hlen. destruct k as [|k].
    + cbn [substring]. change (EmptyString +:+ ?x) with x.
      destruct m as [|m]; [discriminate|].
      cbn [substring]. now rewrite substring_all by lia.
    + cbn [substring]. rewrite str_app_cons. f_equal. apply IH. lia.
Qed.

Lemma endsWith_spec (s b : string) :
  Js.endsWith s b = true ->
  s = substring 0 (String.length s - String.length b) s +:+ b.
Proof.
  unfold Js.endsWith. intros [Hlen Heq]%andb_prop.
  apply Nat.leb_le in Hlen. apply String.eqb_eq in Heq.
  rewrite <- Heq at 2. apply substring_split. lia.
Qed.

Lemma allChars_app (f : ascii -> bool) (a b : string) :
  allChars f (a +:+ b) = allChars f a && allChars f b.
Proof.
  induction a as [|c a IH]; [reflexivity|].
  rewrite str_app_cons. cbn [allChars]. now rewrite IH, andb_assoc.
Qed.

(** A suffix made of extension characters does not reach into a leading
    run of dots and slashes. *)
Lemma prefix_before_suffix (q a x : string) :
  allChars (fun c => negb (extChar c)) q = true ->
  allChars extChar x = true ->
  String.prefix q (a +:+ x) = true ->
  String.prefix q a = true.
Proof.
  revert a. induction q as [|c q IH]; intros a Hq Hx Hpre.
  - now destruct a.
  - cbn [allChars] in Hq. apply andb_prop in Hq as [Hc Hq].
    apply negb_true_iff in Hc.
    destruct a as [|c' a].
    + change (EmptyString +:+ x) with x in Hpre.
      destruct x as [|c' x]; [discriminate|].
      cbn [allChars] in Hx. apply andb_prop in Hx as [Hc' _].
      apply prefix_spec in Hpre as [t Ht]. rewrite str_app_cons in Ht.
      inversion Ht; subst. congruence.
    + rewrite str_app_cons in Hpre.
      apply prefix_spec in Hpre as [t Ht]. rewrite str_app_cons in Ht.
      inversion Ht as [[Hcc Hrest]]. subst c'.
      apply prefix_cons_same, (IH a Hq Hx).
      apply prefix_spec. now exists t.
Qed.

(** A suffix without a slash lies inside what follows the last slash. *)
Lemma under_before_suffix (dir a x : string) :
  allChars notSlash x = true ->
  Fs.under dir (a +:+ x) = true ->
  Fs.under dir a = true.
Proof.
  unfold Fs.under, Js.startsWith.
  revert a. induction dir as [|c dir IH]; intros a Hx Hpre.
  - change (EmptyString +:+ "/") with "/" in *.
    destruct a as [|c' a].
    + change (EmptyString +:+ x) with x in Hpre.
      destruct x as [|c' x]; [discriminate|].
      cbn [allChars] in Hx. apply andb_prop in Hx as [Hc' _].
      apply prefix_spec in Hpre as [t Ht]. inversion Ht; subst. discriminate.
    + rewrite str_app_cons in Hpre.
      apply prefix_spec in Hpre as [t Ht]. inversion Ht; subst.
      apply prefix_spec. now exists a.
  - rewrite str_app_cons in *.
    destruct a as [|c' a].
    + change (EmptyString +:+ x) with x in Hpre.
      apply prefix_spec in Hpre as [t Ht]. rewrite str_app_cons in Ht.
      subst x. cbn [allChars] in Hx. apply andb_prop in Hx as [_ Hx].
      rewrite !allChars_app in Hx.
      apply andb_prop in Hx as [Hx _]. apply andb_prop in Hx as [_ Hx].
      discriminate.
    + rewrite str_app_cons in Hpre.
      apply prefix_spec in Hpre as [t Ht]. rewrite str_app_cons in Ht.
      inversion Ht as [[Hcc Hrest]]. subst c'.
      apply prefix_cons_same, (IH a Hx).
      apply prefix_spec. now exists t.
Qed.

(** The extension of a path holds neither dot nor slash. *)
Lemma extname_chars (p : string) :
  allChars extChar (Js.substr1 (Path.extname p)) = true.
Proof.
  destruct (extname_shape p) as [-> | (pre & x & k & _ & Hx & ->)];
    [reflexivity | exact Hx].
Qed.

Lemma extChar_notSlash (x : string) :
  allChars extChar x = true -> allChars notSlash x = true.
Proof.
  apply allChars_impl. intros a Ha. unfold extChar in Ha.
  now apply andb_prop in Ha as [Ha _].
Qed.

(** What replaces the extension stands after the last slash, whatever it
    is. *)
Lemma before_under (dir s ext tail : string) :
  allChars notSlash ext = true ->
  Fs.under dir s = true ->
  Js.endsWith s ext = true ->
  Fs.under dir (substring 0 (String.length s - String.length ext) s +:+ tail)
  = true.
Proof.
  intros Hext Hs Hends.
  apply endsWith_spec in Hends.
  set (a := substring 0 _ s) in *.
  rewrite Hends in Hs. apply (under_before_suffix _ _ _ Hext) in Hs.
  apply under_spec in Hs as [t ->]. apply under_spec. exists (t +:+ tail).
  now rewrite !str_app_assoc.
Qed.

Lemma replaceAtEnd_under (dir s ext rep : string) :
  allChars notSlash ext = true ->
  Fs.under dir s = true ->
  Fs.under dir (Js.replaceAtEnd s ext rep) = true.
Proof.
  intros Hext Hs. unfold Js.replaceAtEnd.
  destruct (Js.endsWith s ext) eqn:Hends; [|exact Hs].
  now apply before_under.
Qed.

Lemma replaceAtEndBy_under (dir s ext out : string) (v : Js.property) :
  allChars notSlash ext = true ->
  Fs.under dir s = true ->
  Js.replaceAtEndBy s ext v = Some out ->
  Fs.under dir out = true.
Proof.
  intros Hext Hs. destruct v as [|rep|name]; cbn [Js.replaceAtEndBy].
  - intros [= <-]. now apply replaceAtEnd_under.
  - intros [= <-]. now apply replaceAtEnd_under.
  - destruct (Js.endsWith s ext) eqn:Hends; [|now intros [= <-]].
    destruct (Js.inheritedReplacement name ext); [|discriminate].
    intros [= <-]. now apply before_under.
Qed.

(** The output of a worker lies below the destination of the mount
    whenever the source lies below the mounted directory. *)
Lemma outputPath_under (w : World) (dirDisk dirDest f out : string) :
  noDollar dirDest = true ->
  Fs.under dirDisk f = true ->
  outputPath w dirDisk dirDest f = Some out ->
  Fs.under dirDest out = true.
Proof.
  intros Hdest Hf. unfold outputPath.
  destruct (Js.truthy _).
  - apply replaceAtEndBy_under; [|now apply replace_under].
    apply extChar_notSlash, extname_chars.
  - intros [= <-]. now apply replace_under.
Qed.

(** *** What stays on disk *)

Lemma lookup_filter_other (p q : string) (d : fileSystem) :
  String.eqb p q = false ->
  Fs.lookup p (List.filter (fun e => negb (String.eqb (fst e) q)) d)
  = Fs.lookup p d.
Proof.
  intros Hpq. induction d as [|[k n] d IH]; [reflexivity|].
  cbn [List.filter fst]. destruct (String.eqb_spec k q) as [->|Hk]; cbn [negb].
  - cbn [Fs.lookup]. now rewrite Hpq.
  - cbn [Fs.lookup]. now rewrite IH.
Qed.

Lemma lookup_filter_same (q : string) (d : fileSystem) :
  Fs.lookup q (List.filter (fun e => negb (String.eqb (fst e) q)) d) = None.
Proof.
  induction d as [|[k n] d IH]; [reflexivity|].
  cbn [List.filter fst]. destruct (String.eqb_spec k q) as [->|Hk]; cbn [negb].
  - exact IH.
  - cbn [Fs.lookup]. apply not_eq_sym in Hk. apply String.eqb_neq in Hk.
    now rewrite Hk.
Qed.

Lemma lookup_put (p q : string) (n : node) (d : fileSystem) :
  Fs.lookup p (Fs.put q n d)
  = if String.eqb p q then Some n else Fs.lookup p d.
Proof.
  unfold Fs.put. rewrite lookup_snoc.
  destruct (String.eqb_spec p q) as [->|Hne].
  - now rewrite lookup_filter_same.
  - apply String.eqb_neq in Hne. rewrite (lookup_filter_other _ _ _ Hne).
    now destruct (Fs.lookup p d).
Qed.

Lemma mkdirs_keeps (dirs : list string) :
  forall d d', Fs.mkdirs dirs d = Some d' ->
               forall p n, Fs.lookup p d = Some n -> Fs.lookup p d' = Some n.
Proof.
  induction dirs as [|q dirs IH]; intros d d' Hmk p n Hp.
  - cbn in Hmk. congruence.
  - cbn [Fs.mkdirs] in Hmk. destruct (Fs.lookup q d) as [[c|]|] eqn:Hq.
    + discriminate.
    + exact (IH _ _ Hmk _ _ Hp).
    + apply (IH _ _ Hmk). rewrite lookup_snoc. now rewrite Hp.
Qed.

Section Outside.

Variable inside : string -> Prop.

Lemma untouchedOutside_refl (st : state) : untouchedOutside inside st st.
Proof. intros p n Hp _. exact Hp. Qed.

Lemma untouchedOutside_trans (a b c : state) :
  untouchedOutside inside a b -> untouchedOutside inside b c ->
  untouchedOutside inside a c.
Proof. intros Hab Hbc p n Hp Hout. apply Hbc; [now apply Hab | exact Hout]. Qed.

Lemma untouchedOutside_same (st st' : state) :
  disk st' = disk st -> untouchedOutside inside st st'.
Proof. intros H p n Hp _. now rewrite H. Qed.

Lemma untouchedOutside_mkdirp (dir : string) :
  keeps (untouchedOutside inside) (mkdirp dir).
Proof.
  intros st. unfold mkdirp, bind, getDisk.
  destruct (Fs.mkdirs (Fs.ancestors dir) (disk st)) as [d'|] eqn:Hmk;
    [|apply untouchedOutside_refl].
  intros p n Hp _. exact (mkdirs_keeps _ _ _ Hmk _ _ Hp).
Qed.

Lemma untouchedOutside_writeFile (q : string) (c : code) :
  inside q -> keeps (untouchedOutside inside) (writeFile q c).
Proof.
  intros Hq st. unfold writeFile, bind, getDisk.
  case_if; [apply untouchedOutside_refl|].
  assert (Hput : untouchedOutside inside st
                   (finalState (setDisk (Fs.put q (File c) (disk st)) st))).
  { intros p n Hp Hout. cbn. rewrite lookup_put.
    destruct (String.eqb_spec p q) as [->|]; [contradiction | exact Hp]. }
  destruct (Fs.lookup q (disk st)) as [[|]|];
    [exact Hput | apply untouchedOutside_refl | exact Hput].
Qed.

End Outside.

Ltac outside_frame :=
  first [ exact (untouchedOutside_refl _)
        | exact (untouchedOutside_trans _)
        | exact (untouchedOutside_mkdirp _)
        | exact (untouchedOutside_writeFile _)
        | intros; now apply untouchedOutside_same ].

Lemma canonical_resolve (cwd p : string) :
  canonical p = true -> Path.resolve cwd p = p.
Proof.
  unfold canonical, Path.resolve. intros [Habs Hnorm]%andb_prop.
  rewrite Habs. now apply String.eqb_eq.
Qed.

Lemma filesUnder_In (dir f : string) (d : fileSystem) :
  In f (Fs.filesUnder dir d) ->
  Fs.under dir f = true /\ exists n, In (f, n) d.
Proof.
  unfold Fs.filesUnder. rewrite in_map_iff.
  intros ([q n] & <- & [Hin Hq]%filter_In). cbn [fst snd] in *.
  destruct n; [|discriminate]. split; [exact Hq | eauto].
Qed.

Section Containment.

Variable w : World.
Variable cwd : string.
Variable config : Config.

(** A mount writes below its destination only. *)
Lemma mountOne_outside id dirDisk dirDest st :
  noDollar dirDest = true ->
  canonicalDisk (disk st) = true ->
  untouchedOutside (below dirDest) st
    (finalState (mountOne w cwd config (id, dirDisk, dirDest) st)).
Proof.
  intros Hdest Hdisk.
  apply (mountOne_keeps (untouchedOutside (below dirDest)) (below dirDest));
    try outside_frame.
  intros f [Hunder [n Hin]]%filesUnder_In.
  unfold canonicalDisk in Hdisk. rewrite forallb_forall in Hdisk.
  rewrite (canonical_resolve cwd f (Hdisk _ Hin)).
  now apply replace_under.
Qed.

(** The workers write below the destinations of the mounts only. *)
Lemma workerPass_outside workers sets :
  (forall dirDisk dirDest files,
      In (dirDisk, dirDest, files) sets -> noDollar dirDest = true) ->
  (forall dirDisk dirDest files f,
      In (dirDisk, dirDest, files) sets -> In f files ->
      Fs.under dirDisk f = true) ->
  keeps (untouchedOutside (belowSome sets)) (workerPass w config workers sets).
Proof.
  intros Hdest Hsets.
  apply (keeps_workerPass (untouchedOutside (belowSome sets)) (belowSome sets));
    try outside_frame.
  intros dirDisk dirDest files f Hin Hf out Hout.
  exists dirDisk, dirDest, files. split; [exact Hin|].
  apply (outputPath_under w dirDisk dirDest f out);
    [exact (Hdest _ _ _ Hin) | exact (Hsets _ _ _ _ Hin Hf) | exact Hout].
Qed.

End Containment.

(** ** Mount commands without a destination *)

Lemma yargsTo_positional (args : list string) :
  forallb positional args = true -> yargsTo args = None.
Proof.
  induction args as [|flag [|value rest] IH]; intros Hargs; try reflexivity.
  cbn [forallb] in Hargs. apply andb_prop in Hargs as [Hflag Hrest].
  cbn [yargsTo].
  assert (Hne : String.eqb flag "--to" = false).
  { apply String.eqb_neq. intros ->. discriminate. }
  rewrite Hne. now apply IH.
Qed.

Section MountFacts.

Variable w : World.
Variable cwd : string.
Variable config : Config.

(** On a script that passed the first loop, resolving the destination
    either answers or fails on the missing path argument. *)
Lemma mountDirDetail_wellFormed entry st :
  wellFormedMount entry = true ->
  (exists r, mountDirDetail w cwd config entry st = Ok r st) \/
  mountDirDetail w cwd config entry st = Throw typeError st.
Proof.
  destruct entry as [id script]. unfold wellFormedMount, mountDirDetail.
  cbn [fst snd]. destruct (Js.startsWith id "mount:"); cbn [negb]; [|eauto].
  unfold bind, mountTokens.
  destruct (Js.splitWs (cmd script)) as [|first [|src rest]]; try discriminate.
  intros ->. unfold ret, throw.
  destruct rest as [|x rest]; [eauto|].
  destruct (yargsTo (src :: x :: rest)); eauto.
Qed.

Lemma mountDirDetail_positional id script src x rest st :
  Js.startsWith id "mount:" = true ->
  Js.splitWs (cmd script) = "mount" :: src :: x :: rest ->
  forallb positional (src :: x :: rest) = true ->
  mountDirDetail w cwd config (id, script) st = Throw typeError st.
Proof.
  intros Hid Hsplit Hargs. unfold mountDirDetail. rewrite Hid. cbn [negb].
  unfold bind, mountTokens. rewrite Hsplit. cbn [String.eqb Ascii.eqb Bool.eqb].
  unfold ret at 1. now rewrite (yargsTo_positional _ Hargs).
Qed.

Lemma mountDirDetails_positional entries id script src x rest st :
  forallb wellFormedMount entries = true ->
  In (id, script) entries ->
  Js.startsWith id "mount:" = true ->
  Js.splitWs (cmd script) = "mount" :: src :: x :: rest ->
  forallb positional (src :: x :: rest) = true ->
  mountDirDetails w cwd config entries st = Throw typeError st.
Proof.
  intros Hwf Hin Hid Hsplit Hargs.
  induction entries as [|e entries IH]; [contradiction|].
  cbn [forallb] in Hwf. apply andb_prop in Hwf as [He Hwf].
  cbn [mountDirDetails]. unfold bind at 1.
  destruct Hin as [-> | Hin].
  - now rewrite (mountDirDetail_positional id script src x rest st).
  - destruct (mountDirDetail_wellFormed e st He) as [[r ->] | ->]; [|reflexivity].
    unfold bind at 1. now rewrite (IH Hwf Hin).
Qed.

Lemma relevantWorkers_wellFormed :
  forallb wellFormedMount (scripts config) = true ->
  forallb wellFormedMount (relevantWorkers config) = true.
Proof.
  intros Hwf. unfold relevantWorkers, allRegisteredWorkers.
  rewrite forallb_app. cbn [forallb]. rewrite andb_true_r.
  rewrite forallb_forall in *. intros e [He _]%filter_In. now apply Hwf.
Qed.

Lemma relevantWorkers_mount id script :
  In (id, script) (scripts config) ->
  Js.startsWith id "mount:" = true ->
  In (id, script) (relevantWorkers config).
Proof.
  intros Hin Hid. unfold relevantWorkers, allRegisteredWorkers.
  apply in_or_app. left. apply filter_In. split; [exact Hin|].
  unfold isRelevant. cbn [fst]. rewrite Hid. now rewrite !orb_true_r.
Qed.

Lemma startLintWorkers_answers workers :
  forall st, exists ps st',
    startLintWorkers w workers st = Ok ps st' /\ disk st' = disk st.
Proof.
  induction workers as [|[id workerConfig] workers IH]; intros st.
  - now exists [], st.
  - cbn [startLintWorkers]. case_if; [apply IH|].
    unfold bind at 1. unfold emit at 1. unfold bind at 1. unfold getDisk at 1.
    unfold bind at 1.
    destruct (IH (emitted (WORKER_UPDATE id "RUNNING") st)) as (ps & st' & Hrun & Hdisk).
    unfold emitted in Hrun. rewrite Hrun. unfold ret.
    eexists _, st'. split; [reflexivity | exact Hdisk].
Qed.

End MountFacts.

(** ** Routing *)

Lemma registered_taken (config : Config) (f : string) :
  registered config f = true ->
  exists id workerConfig,
    In (id, workerConfig) (relevantWorkers config) /\
    isTransformer id = true /\
    takesFile id f = true.
Proof.
  unfold registered. intros Hreg. apply existsb_eqb_In in Hreg.
  unfold allBuildExtensions, allRegisteredWorkers in Hreg.
  apply in_flat_map in Hreg as ([id workerConfig] & Hin & Hext).
  cbn [fst] in Hext. destruct (isTransformer id) eqn:Hid; [|contradiction].
  exists id, workerConfig. split; [|split].
  - unfold relevantWorkers, allRegisteredWorkers. apply in_or_app. left.
    apply filter_In. split; [exact Hin|]. cbn [fst].
    unfold isTransformer in Hid. unfold isRelevant.
    apply orb_true_iff in Hid as [-> | ->]; [reflexivity | now rewrite orb_true_r].
  - exact Hid.
  - now apply declared_extension_taken.
Qed.

(** ** What the rewriter answers *)

Lemma normalizeAbs_absolute (p : string) :
  Js.startsWith (Path.normalizeAbs p) "/" = true.
Proof.
  unfold Path.normalizeAbs.
  destruct (Path.normalizeSegs _ _) as [|s segs]; [reflexivity|].
  apply prefix_spec. now exists (s +:+ Path.joinSegs segs).
Qed.

Lemma resolve_absolute (base p : string) :
  Js.startsWith (Path.resolve base p) "/" = true.
Proof. unfold Path.resolve. case_if; apply normalizeAbs_absolute. Qed.

Lemma isPathSpec_cases (s : string) :
  isPathSpec s = true ->
  exists q, allChars (fun c => negb (extChar c)) q = true /\
            String.prefix q s = true /\
            forall t, String.prefix q t = true -> isPathSpec t = true.
Proof.
  unfold isPathSpec, Js.startsWith. intros H.
  apply orb_true_iff in H as [H|H]; [apply orb_true_iff in H as [H|H]|].
  - exists "/". repeat split; auto. intros t ->. reflexivity.
  - exists "./". repeat split; auto. intros t ->. now rewrite orb_true_r.
  - exists "../". repeat split; auto. intros t ->. now rewrite !orb_true_r.
Qed.

Lemma before_isPathSpec (s ext tail : string) :
  allChars extChar ext = true ->
  isPathSpec s = true ->
  Js.endsWith s ext = true ->
  isPathSpec (substring 0 (String.length s - String.length ext) s +:+ tail)
  = true.
Proof.
  intros Hext Hs Hends.
  apply endsWith_spec in Hends. set (a := substring 0 _ s) in *.
  destruct (isPathSpec_cases s Hs) as (q & Hq & Hpre & Hall).
  apply Hall. apply prefix_app_r. rewrite Hends in Hpre.
  exact (prefix_before_suffix q a ext Hq Hext Hpre).
Qed.

Lemma replaceAtEnd_isPathSpec (s ext rep : string) :
  allChars extChar ext = true ->
  isPathSpec s = true ->
  isPathSpec (Js.replaceAtEnd s ext rep) = true.
Proof.
  intros Hext Hs. unfold Js.replaceAtEnd.
  destruct (Js.endsWith s ext) eqn:Hends; [|exact Hs].
  now apply before_isPathSpec.
Qed.

Lemma replaceAtEndBy_isPathSpec (s ext out : string) (v : Js.property) :
  allChars extChar ext = true ->
  isPathSpec s = true ->
  Js.replaceAtEndBy s ext v = Some out ->
  isPathSpec out = true.
Proof.
  intros Hext Hs. destruct v as [|rep|name]; cbn [Js.replaceAtEndBy].
  - intros [= <-]. now apply replaceAtEnd_isPathSpec.
  - intros [= <-]. now apply replaceAtEnd_isPathSpec.
  - destruct (Js.endsWith s ext) eqn:Hends; [|now intros [= <-]].
    destruct (Js.inheritedReplacement name ext); [|discriminate].
    intros [= <-]. now apply before_isPathSpec.
Qed.

Section Answers.

Variable w : World.
Variable config : Config.

Lemma rewriteImport_isPathSpec p outPath spec st s' st' :
  Js.startsWith spec "http" = false ->
  rewriteImport w config p outPath spec st = Ok s' st' ->
  isPathSpec s' = true.
Proof.
  intros Hhttp. unfold rewriteImport. rewrite Hhttp.
  destruct (isPathSpec spec) eqn:Hspec.
  - case_if.
    + intros H. inversion H; subst. now apply isPathSpec_app.
    + unfold bind at 1.
      set (spec1 := if Js.truthy _ then orThrow _ _ else ret spec).
      assert (Hspec1 : (exists s1, spec1 st = Ok s1 st /\ isPathSpec s1 = true)
                       \/ exists e, spec1 st = Throw e st).
      { unfold spec1. destruct (Js.truthy _); [|left; now exists spec].
        destruct (Js.replaceAtEndBy _ _ _) as [s1|] eqn:Hs1;
          [left | right; now eexists].
        exists s1. split; [reflexivity|].
        revert Hs1. apply replaceAtEndBy_isPathSpec;
          [apply extname_chars | exact Hspec]. }
      destruct Hspec1 as [(s1 & -> & Hs1) | [e ->]]; [|discriminate].
      case_if.
      * unfold bind, proxiedAdd. destruct (allProxiedFiles st); [|discriminate].
        intros H. inversion H; subst. now apply isPathSpec_app.
      * intros H. inversion H; subst. exact Hs1.
  - case_if.
    + destruct (Js.get _ _); try discriminate.
      intros H. inversion H; subst. unfold isPathSpec.
      now rewrite resolve_absolute.
    + unfold bind, emit, ret. intros H. inversion H; subst. reflexivity.
Qed.

End Answers.

Lemma mountedDirectories_no_directory (cwd id : string) (script : DevScript)
      (entries : list (string * DevScript)) (st : state) :
  In (id, script) entries ->
  Js.startsWith id "mount:" = true ->
  Js.splitWs (cmd script) = ["mount"] ->
  exists e, mountedDirectories cwd entries st = Throw e st.
Proof.
  intros Hin Hid Hsplit. induction entries as [|e entries IH]; [contradiction|].
  cbn [mountedDirectories]. unfold bind at 1.
  pose proof (mountedDirectory_pure cwd e st) as He.
  destruct Hin as [-> | Hin].
  - unfold mountedDirectory. rewrite Hid. cbn [negb]. unfold bind at 1.
    unfold mountTokens. rewrite Hsplit. cbn [String.eqb Ascii.eqb Bool.eqb].
    unfold ret, throw. eauto.
  - destruct (mountedDirectory cwd e st) as [r st1|err st1]; cbn in He; subst st1;
      [|eauto].
    unfold bind at 1. destruct (IH Hin) as [err Herr]. rewrite Herr. eauto.
Qed.

(** ** Proxied specifiers *)


Section Proxied.

Variable w : World.
Variable config : Config.





(** ** The dependency import map *)

Lemma relPath_joinSegs (segs : list string) :
  segs <> [] -> "/" +:+ relPath segs = Path.joinSegs segs.
Proof. destruct segs; [congruence | reflexivity]. Qed.

Lemma relPath_not_absolute (segs : list string) :
  plainSegs segs = true -> Path.isAbsolute (relPath segs) = false.
Proof.
  intros Hsegs. destruct segs as [|s segs]; [discriminate|].
  apply plainSegs_forallb in Hsegs. cbn [forallb] in Hsegs.
  apply andb_prop in Hsegs as [Hs _].
  unfold relPath. cbn [Path.joinSegs].
  change (Js.substr1 ("/" +:+ s +:+ Path.joinSegs segs))
    with (s +:+ Path.joinSegs segs).
  pose proof (plainSeg_not_absolute _ Hs) as Habs.
  unfold Path.isAbsolute, Js.startsWith in *.
  destruct s as [|a s]; [discriminate|].
  rewrite str_app_cons.
  destruct (Ascii.eqb_spec a "/") as [->|Hne].
  - exfalso. revert Habs. cbn. now destruct s.
  - now apply prefix_cons_false.
Qed.

Lemma relPath_nonempty (segs : list string) :
  plainSegs segs = true -> String.eqb (relPath segs) EmptyString = false.
Proof.
  intros Hsegs. destruct segs as [|s segs]; [discriminate|].
  apply plainSegs_forallb in Hsegs. cbn [forallb] in Hsegs.
  apply andb_prop in Hsegs as [Hs _].
  unfold relPath. cbn [Path.joinSegs].
  change (Js.substr1 ("/" +:+ s +:+ Path.joinSegs segs))
    with (s +:+ Path.joinSegs segs).
  destruct s; [discriminate | reflexivity].
Qed.

(** Resolving a relative path of plain segments appends the segments. *)
Lemma resolve_relPath (base segs : list string) :
  forallb plainSeg base = true ->
  plainSegs segs = true ->
  Path.resolve (Path.joinSegs base) (relPath segs)
  = Path.joinSegs (base ++ segs).
Proof.
  intros Hbase Hsegs. unfold Path.resolve.
  rewrite (relPath_not_absolute _ Hsegs).
  assert (Hne : segs <> []) by (destruct segs; [discriminate | congruence]).
  change (Path.joinSegs base +:+ "/" +:+ relPath segs)
    with (Path.joinSegs base +:+ ("/" +:+ relPath segs)).
  rewrite (relPath_joinSegs _ Hne), <- joinSegs_app.
  apply normalizeAbs_joinSegs. unfold plainSegs.
  rewrite forallb_app, Hbase, (plainSegs_forallb _ Hsegs).
  destruct base, segs; try reflexivity. congruence.
Qed.

Lemma splitOn_joinSegs_any (segs : list string) :
  forallb (allChars notSlash) segs = true ->
  Js.splitOn Path.slash (Path.joinSegs segs)
  = match segs with
    | [] => [EmptyString]
    | _ => EmptyString :: segs
    end.
Proof.
  induction segs as [|s segs IH]; intros Hsegs; [reflexivity|].
  simpl in Hsegs. apply andb_prop in Hsegs as [Hs Hsegs].
  cbn [Path.joinSegs]. change ("/" +:+ s +:+ Path.joinSegs segs)
    with (String Path.slash (s +:+ Path.joinSegs segs)).
  cbn [Js.splitOn]. rewrite Ascii.eqb_refl.
  rewrite (splitOn_word _ _ _ Hs), (IH Hsegs).
  destruct segs; now rewrite str_app_empty_r.
Qed.

Lemma normalizeSegs_app_plain (a b acc : list string) :
  forallb plainSeg a = true ->
  Path.normalizeSegs (a ++ b) acc = Path.normalizeSegs b (rev a ++ acc).
Proof.
  revert acc. induction a as [|s a IH]; intros acc Ha; [reflexivity|].
  simpl in Ha. apply andb_prop in Ha as [Hs Ha].
  unfold plainSeg in Hs.
  apply andb_prop in Hs as [Hs _]. apply andb_prop in Hs as [Hs H2].
  apply andb_prop in Hs as [H0 H1].
  apply negb_true_iff in H0, H1, H2.
  cbn [app Path.normalizeSegs]. rewrite H0, H1, H2. cbn [orb].
  rewrite (IH _ Ha). cbn [rev]. now rewrite <- List.app_assoc.
Qed.

(** Resolving [./] followed by a relative path gives the same. *)
Lemma resolve_dot_relPath (base segs : list string) :
  forallb plainSeg base = true ->
  plainSegs segs = true ->
  Path.resolve (Path.joinSegs base) ("./" +:+ relPath segs)
  = Path.joinSegs (base ++ segs).
Proof.
  intros Hbase Hsegs. unfold Path.resolve.
  change (Path.isAbsolute ("./" +:+ relPath segs)) with false. cbn iota.
  assert (Hne : segs <> []) by (destruct segs; [discriminate | congruence]).
  pose proof (plainSegs_forallb _ Hsegs) as Hall.
  replace (Path.joinSegs base +:+ "/" +:+ "./" +:+ relPath segs)
    with (Path.joinSegs (base ++ ["."] ++ segs)).
  2:{ rewrite !joinSegs_app. cbn [Path.joinSegs]. rewrite str_app_empty_r.
      rewrite <- (relPath_joinSegs _ Hne). now rewrite !str_app_assoc. }
  unfold Path.normalizeAbs. rewrite splitOn_joinSegs_any.
  2:{ rewrite !forallb_app. cbn [forallb allChars].
      assert (H : forall l, forallb plainSeg l = true ->
                            forallb (allChars notSlash) l = true).
      { intros l Hl. rewrite forallb_forall in *. intros x Hx.
        apply plainSeg_notSlash. now apply Hl. }
      now rewrite (H _ Hbase), (H _ Hall). }
  assert (Hcons : base ++ ["."] ++ segs <> []) by (destruct base; discriminate).
  destruct (base ++ ["."] ++ segs) as [|x xs] eqn:Hlist; [congruence|].
  change (Path.normalizeSegs (EmptyString :: x :: xs) [])
    with (Path.normalizeSegs (x :: xs) []).
  rewrite <- Hlist, (normalizeSegs_app_plain _ _ _ Hbase).
  cbn [app Path.normalizeSegs String.eqb Ascii.eqb Bool.eqb orb].
  rewrite (normalizeSegs_plain _ _ Hall), List.app_nil_r, rev_involutive.
  assert (Hbs : base ++ segs <> []).
  { intros [_ ->]%app_eq_nil. congruence. }
  destruct (base ++ segs); [congruence | reflexivity].
Qed.

Lemma rewriteImport_mapped p outPath spec target segs st :
  isBare spec = true ->
  plainSegs segs = true ->
  target = relPath segs \/ target = "./" +:+ relPath segs ->
  dependencyImportMap w !! spec = Some target ->
  rewriteImport w config p outPath spec st
  = Ok ("/web_modules" +:+ Path.joinSegs segs) st.
Proof.
  intros Hbare Hsegs Htarget Hmap. unfold isBare in Hbare.
  apply andb_prop in Hbare as [Hhttp Hpath].
  apply negb_true_iff in Hhttp, Hpath.
  unfold rewriteImport. rewrite Hhttp, Hpath, (get_own _ _ _ Hmap).
  assert (Htruthy : Js.truthy (Js.Own target) = true).
  { apply truthy_nonempty. destruct Htarget as [-> | ->];
      [now apply relPath_nonempty | reflexivity]. }
  rewrite Htruthy. unfold ret. f_equal.
  change "/web_modules" with (Path.joinSegs ["web_modules"]).
  destruct Htarget as [-> | ->].
  - rewrite resolve_relPath by (reflexivity || assumption). apply joinSegs_app.
  - rewrite resolve_dot_relPath by (reflexivity || assumption). apply joinSegs_app.
Qed.

End Proxied.

(** ** Destinations of a mount *)

Lemma noSpace_token (s : string) :
  noSpace s = true ->
  s <> EmptyString /\ allChars (fun a => negb (Js.isSpace a)) s = true.
Proof.
  unfold noSpace. intros [Hne Hs]%andb_prop. split; [|exact Hs].
  now apply negb_true_iff, String.eqb_neq in Hne.
Qed.

Lemma splitWs_mount_to_any (src dest : string) :
  isWord src = true -> noSpace dest = true ->
  Js.splitWs ("mount " +:+ src +:+ " --to " +:+ dest)
  = ["mount"; src; "--to"; dest].
Proof.
  intros [Hs1 Hs2]%isWord_token [Hd1 Hd2]%noSpace_token.
  unfold Js.splitWs.
  change ("mount " +:+ src +:+ " --to " +:+ dest)
    with ("mount" +:+ " " +:+ src +:+ " " +:+ "--to" +:+ " " +:+ dest).
  rewrite (splitWsFrom_token false "mount") by (discriminate || reflexivity).
  rewrite splitWsFrom_space.
  rewrite (splitWsFrom_token true src) by assumption.
  rewrite splitWsFrom_space.
  rewrite (splitWsFrom_token true "--to") by (discriminate || reflexivity).
  rewrite splitWsFrom_space.
  rewrite (splitWsFrom_last true dest) by assumption.
  now rewrite !str_app_empty_r.
Qed.

Lemma resolve_dot (base : list string) :
  plainSegs base = true ->
  Path.resolve (Path.joinSegs base) "." = Path.joinSegs base.
Proof.
  intros Hbase. pose proof (plainSegs_forallb _ Hbase) as Hall.
  unfold Path.resolve. change (Path.isAbsolute ".") with false. cbn iota.
  rewrite <- joinSegs_snoc.
  unfold Path.normalizeAbs. rewrite splitOn_joinSegs_any.
  2:{ rewrite forallb_app. cbn [forallb allChars]. rewrite andb_true_r.
      rewrite forallb_forall in *. intros x Hx.
      apply plainSeg_notSlash. now apply Hall. }
  destruct (base ++ ["."]) as [|x xs] eqn:Hlist.
  { now destruct base. }
  change (Path.normalizeSegs (EmptyString :: x :: xs) [])
    with (Path.normalizeSegs (x :: xs) []).
  rewrite <- Hlist, (normalizeSegs_app_plain _ _ _ Hall).
  cbn [Path.normalizeSegs String.eqb Ascii.eqb Bool.eqb orb].
  rewrite List.app_nil_r, rev_involutive.
  destruct base; [discriminate | reflexivity].
Qed.

Lemma resolve_absolute_plain (base : string) (segs : list string) :
  plainSegs segs = true ->
  Path.resolve base (Path.joinSegs segs) = Path.joinSegs segs.
Proof.
  intros Hsegs. unfold Path.resolve.
  assert (Habs : Path.isAbsolute (Path.joinSegs segs) = true).
  { destruct segs as [|s segs]; [discriminate|].
    apply prefix_spec. now exists (s +:+ Path.joinSegs segs). }
  rewrite Habs. now apply normalizeAbs_joinSegs.
Qed.

Section Destinations.

Variable w : World.
Variable cwd : string.
Variable config : Config.

Lemma mountDirDetail_to id src dest watching st :
  Js.startsWith id "mount:" = true ->
  isWord src = true ->
  noSpace dest = true ->
  mountDirDetail w cwd config
    (id, {| cmd := "mount " +:+ src +:+ " --to " +:+ dest; watch := watching |}) st
  = Ok (Some (id, Path.resolve cwd src,
              Path.resolve (buildDirectoryLoc w cwd config) dest)) st.
Proof.
  intros Hid Hsrc Hdest. unfold mountDirDetail. rewrite Hid. cbn [negb].
  unfold bind, mountTokens. cbn [cmd].
  rewrite (splitWs_mount_to_any _ _ Hsrc Hdest).
  cbn [String.eqb Ascii.eqb Bool.eqb]. unfold ret at 1.
  now rewrite (yargsTo_flag _ _ Hsrc).
Qed.

End Destinations.

(** ** Files stay files *)

Lemma filesStay_refl (st : state) : filesStay st st.
Proof. intros q c Hq. eauto. Qed.

Lemma filesStay_trans (a b c : state) :
  filesStay a b -> filesStay b c -> filesStay a c.
Proof. intros Hab Hbc q x Hq. destruct (Hab q x Hq) as [y Hy]. eauto. Qed.

Lemma filesStay_same (st st' : state) : disk st' = disk st -> filesStay st st'.
Proof. intros H q c Hq. rewrite H. eauto. Qed.

Lemma filesStay_mkdirp (dir : string) : keeps filesStay (mkdirp dir).
Proof.
  intros st. unfold mkdirp, bind, getDisk.
  destruct (Fs.mkdirs (Fs.ancestors dir) (disk st)) as [d'|] eqn:Hmk;
    [|apply filesStay_refl].
  intros q c Hq. exists c. exact (mkdirs_keeps _ _ _ Hmk _ _ Hq).
Qed.

Lemma filesStay_writeFile (p : string) (c : code) : keeps filesStay (writeFile p c).
Proof.
  intros st. unfold writeFile, bind, getDisk.
  case_if; [apply filesStay_refl|].
  assert (Hput : filesStay st (finalState (setDisk (Fs.put p (File c) (disk st)) st))).
  { intros q x Hq. cbn. rewrite lookup_put.
    destruct (String.eqb q p); eauto. }
  destruct (Fs.lookup p (disk st)) as [[|]|];
    [exact Hput | apply filesStay_refl | exact Hput].
Qed.

Ltac files_frame :=
  first [ exact filesStay_refl
        | exact filesStay_trans
        | exact filesStay_mkdirp
        | intros; apply filesStay_writeFile
        | intros; now apply filesStay_same ].

Section ProxyPass.

Variable w : World.
Variable cwd : string.
Variable config : Config.

Lemma writeProxies_filesStay locs : keeps filesStay (writeProxies w cwd config locs).
Proof.
  apply (keeps_writeProxies filesStay (fun _ => True)); try files_frame.
  easy.
Qed.

Lemma writeFile_written (p : string) (c : code) (st st' : state) :
  writeFile p c st = Ok tt st' ->
  Fs.lookup p (disk st') = Some (File c).
Proof.
  unfold writeFile, bind, getDisk. case_if; [discriminate|].
  assert (Hput : forall st1, setDisk (Fs.put p (File c) (disk st)) st = Ok tt st1 ->
                        Fs.lookup p (disk st1) = Some (File c)).
  { intros st1 H. inversion H; subst. cbn. rewrite lookup_put.
    now rewrite String.eqb_refl. }
  destruct (Fs.lookup p (disk st)) as [[|]|]; [apply Hput | discriminate | apply Hput].
Qed.

(** After the proxy pass every recorded target has its proxy module. *)
Lemma writeProxies_written locs :
  forall st st',
    writeProxies w cwd config locs st = Ok tt st' ->
    forall loc, In loc locs ->
      exists c, Fs.lookup (loc +:+ ".proxy.js") (disk st') = Some (File c).
Proof.
  induction locs as [|l locs IH]; intros st st' Hrun loc Hin; [contradiction|].
  cbn [writeProxies] in Hrun. unfold bind at 1 in Hrun.
  destruct (readFile l st) as [c0 st1|]; [|discriminate].
  unfold bind at 1 in Hrun.
  destruct (writeFile (l +:+ ".proxy.js") _ st1) as [[] st2|] eqn:Hwrite; [|discriminate].
  destruct Hin as [<- | Hin].
  - apply writeFile_written in Hwrite.
    pose proof (writeProxies_filesStay locs st2 _ _ Hwrite) as Hstay.
    rewrite Hrun in Hstay. exact Hstay.
  - exact (IH st2 st' Hrun loc Hin).
Qed.

(** A target that is not on disk stops the pass. *)
Lemma readFile_missing (p : string) (st : state) :
  Fs.lookup p (disk st) = None ->
  readFile p st = Throw ("ENOENT: " +:+ p) st.
Proof. intros H. unfold readFile, bind, getDisk. now rewrite H. Qed.

End ProxyPass.

(** ** Assets *)

Section Assets.

Variable w : World.
Variable cwd : string.
Variable config : Config.

Lemma mkdirp_bus_ok (dir : string) (st st' : state) :
  mkdirp dir st = Ok tt st' -> bus st' = bus st.
Proof. intros H. pose proof (mkdirp_bus dir st) as Hb. now rewrite H in Hb. Qed.

Lemma mountFileTask_copy dirDisk dirDest f c st r st' :
  registered config (Path.resolve cwd f) = false ->
  Path.extname (Path.resolve cwd f) <> ".js" ->
  Fs.lookup (Path.resolve cwd f) (disk st) = Some (File c) ->
  mountFileTask w cwd config dirDisk dirDest f st = Ok r st' ->
  r = None /\
  Fs.lookup (Js.replace (Path.resolve cwd f) dirDisk dirDest) (disk st')
  = Some (File c) /\
  bus st' = bus st.
Proof.
  intros Hreg Hext Hfile. unfold mountFileTask. unfold registered in Hreg.
  rewrite Hreg. apply String.eqb_neq in Hext. rewrite Hext. cbn [negb].
  unfold bind at 1.
  destruct (mkdirp _ st) as [[] st1|] eqn:Hmk; [|discriminate].
  assert (Hfile1 : Fs.lookup (Path.resolve cwd f) (disk st1) = Some (File c)).
  { revert Hmk. unfold mkdirp, bind, getDisk.
    destruct (Fs.mkdirs _ (disk st)) as [d'|] eqn:Hd; [|discriminate].
    intros H. inversion H; subst. cbn. exact (mkdirs_keeps _ _ _ Hd _ _ Hfile). }
  unfold bind at 1, copyFile, bind at 1, readFile, bind at 1, getDisk at 1.
  rewrite Hfile1. unfold ret at 1.
  destruct (writeFile _ c st1) as [[] st2|] eqn:Hwrite; [|discriminate].
  intros H. inversion H; subst. split; [reflexivity|]. split.
  - exact (writeFile_written _ _ _ _ Hwrite).
  - pose proof (writeFile_bus (Js.replace (Path.resolve cwd f) dirDisk dirDest)
                 c st1) as Hb.
    rewrite Hwrite in Hb. cbn in Hb.
    rewrite Hb. exact (mkdirp_bus_ok _ _ _ Hmk).
Qed.

End Assets.

(** ** The run after the cleaning *)

Section WholeRun.

Variable w : World.
Variable cwd : string.
Variable config : Config.

Lemma afterClean_filesStay :
  isBundled w config = false -> keeps filesStay (afterClean w cwd config).
Proof.
  intros Hmode.
  apply (keeps_afterClean filesStay (fun _ => True)); try files_frame;
    try easy.
  intros Hb. congruence.
Qed.

End WholeRun.

(** ** Targets that are missing *)

Section MissingTarget.

Variable w : World.
Variable cwd : string.
Variable config : Config.

Lemma writeFile_other (p q : string) (c : code) (st : state) :
  q <> p ->
  Fs.lookup q (disk (finalState (writeFile p c st))) = Fs.lookup q (disk st).
Proof.
  intros Hne. unfold writeFile, bind, getDisk. case_if; [reflexivity|].
  assert (Hput : Fs.lookup q (disk (finalState
                   (setDisk (Fs.put p (File c) (disk st)) st)))
                 = Fs.lookup q (disk st)).
  { cbn. rewrite lookup_put. apply String.eqb_neq in Hne. now rewrite Hne. }
  destruct (Fs.lookup p (disk st)) as [[|]|]; [exact Hput | reflexivity | exact Hput].
Qed.

(** A target that is not on disk, and is not the proxy module of another
    target, stops the pass. *)
Lemma writeProxies_missing locs loc :
  In loc locs ->
  (forall other, In other locs -> other +:+ ".proxy.js" <> loc) ->
  forall st,
    Fs.lookup loc (disk st) = None ->
    threw (writeProxies w cwd config locs st) = true.
Proof.
  induction locs as [|l locs IH]; intros Hin Hother st Hmissing; [contradiction|].
  cbn [writeProxies]. unfold bind at 1.
  destruct (String.eqb_spec l loc) as [->|Hne].
  - now rewrite (readFile_missing loc st Hmissing).
  - destruct Hin as [Heq | Hin]; [congruence|].
    destruct (readFile l st) as [c0 st1|] eqn:Hread; [|reflexivity].
    assert (Hst1 : st1 = st).
    { revert Hread. unfold readFile, bind, getDisk, ret, throw.
      destruct (Fs.lookup l (disk st)) as [[|]|]; congruence. }
    subst st1. unfold bind at 1.
    pose proof (writeFile_other (l +:+ ".proxy.js") loc
                  (wrapEsmProxyResponse w
                     (substring (String.length (buildDirectoryLoc w cwd config))
                                (String.length l) l) c0 (Path.extname l)) st) as Hkeep.
    destruct (writeFile _ _ st) as [[] st2|]; [|reflexivity].
    cbn [finalState] in Hkeep.
    apply IH; [exact Hin | |].
    + intros other Ho. apply Hother. now right.
    + rewrite Hkeep; [exact Hmissing|].
      intros Heq. apply (Hother l); [now left | now symmetry].
Qed.

End MissingTarget.

(** ** Lint workers *)

Section LintFacts.

Variable w : World.
Variable cwd : string.
Variable config : Config.

(** Every lint script is started on the disk as it is, and only events
    are published on the way. *)
Lemma startLintWorkers_started workers id script :
  In (id, script) workers ->
  Js.startsWith id "lintall:" = true ->
  forall st, exists ps st',
    startLintWorkers w workers st = Ok ps st' /\
    disk st' = disk st /\
    In (id, execa w (disk st) (cmd script) EmptyString) ps.
Proof.
  induction workers as [|[id' script'] workers IH]; intros Hin Hid st;
    [contradiction|].
  cbn [startLintWorkers].
  destruct (Js.startsWith id' "lintall:") eqn:Hid'; cbn [negb].
  - unfold bind at 1. unfold emit at 1. unfold bind at 1. unfold getDisk at 1.
    unfold bind at 1. cbn [disk].
    set (st1 := {| bus := bus st ++ [WORKER_UPDATE id' "RUNNING"]; disk := disk st;
                   allBuiltFromFiles := allBuiltFromFiles st;
                   allProxiedFiles := allProxiedFiles st |}).
    destruct Hin as [Heq | Hin].
    + inversion Heq; subst id' script'.
      destruct (startLintWorkers_answers w workers st1) as (ps & st' & -> & Hd).
      unfold ret. eexists _, st'. split; [reflexivity|]. split; [exact Hd | now left].
    + destruct (IH Hin Hid st1) as (ps & st' & -> & Hd & Hps).
      unfold ret. eexists _, st'. split; [reflexivity|].
      split; [exact Hd | now right].
  - destruct Hin as [Heq | Hin]; [inversion Heq; congruence|].
    exact (IH Hin Hid st).
Qed.

(** Awaiting the lint workers always answers; the answer is [false] as
    soon as one of them exited with a non-zero code. *)
Lemma awaitLintWorkers_failed ps id r :
  In (id, r) ps ->
  exitCode r <> 0 ->
  forall st, exists st', awaitLintWorkers ps st = Ok false st'.
Proof.
  assert (Hany : forall qs st, exists ok st', awaitLintWorkers qs st = Ok ok st').
  { induction qs as [|[id' r'] qs IH]; intros st; [now exists true, st|].
    cbn [awaitLintWorkers]. unfold bind at 1.
    set (first := if negb (String.eqb (stderr r') EmptyString) then _ else _).
    assert (Hfirst : exists st1, first st = Ok tt st1).
    { unfold first. destruct (negb _); eexists; reflexivity. }
    destruct Hfirst as [st1 ->].
    destruct (exitCode r' =? 0).
    - unfold bind at 1, emit at 1. apply IH.
    - unfold bind at 1, emit at 1. unfold bind at 1, emit at 1.
      unfold bind at 1.
      match goal with |- context [awaitLintWorkers qs ?s] =>
        destruct (IH s) as (ok & st' & ->) end.
      unfold ret. eauto. }
  induction ps as [|[id' r'] ps IH]; intros Hin Hexit st; [contradiction|].
  cbn [awaitLintWorkers]. unfold bind at 1.
  set (first := if negb (String.eqb (stderr r') EmptyString) then _ else _).
  assert (Hfirst : exists st1, first st = Ok tt st1).
  { unfold first. destruct (negb _); eexists; reflexivity. }
  destruct Hfirst as [st1 ->].
  destruct Hin as [Heq | Hin].
  - inversion Heq; subst id' r'.
    apply Z.eqb_neq in Hexit. rewrite Hexit.
    unfold bind at 1, emit at 1. unfold bind at 1, emit at 1.
    unfold bind at 1.
    match goal with |- context [awaitLintWorkers ps ?s] =>
      destruct (Hany ps s) as (ok & st' & ->) end.
    unfold ret. eauto.
  - destruct (exitCode r' =? 0).
    + unfold bind at 1, emit at 1. now apply IH.
    + unfold bind at 1, emit at 1. unfold bind at 1, emit at 1.
      unfold bind at 1.
      match goal with |- context [awaitLintWorkers ps ?s] =>
        destruct (Hany ps s) as (ok & st' & ->) end.
      unfold ret. eauto.
Qed.

Lemma relevantWorkers_lint id script :
  In (id, script) (scripts config) ->
  Js.startsWith id "lintall:" = true ->
  In (id, script) (relevantWorkers config).
Proof.
  intros Hin Hid. unfold relevantWorkers, allRegisteredWorkers.
  apply in_or_app. left. apply filter_In. split; [exact Hin|].
  unfold isRelevant. cbn [fst]. rewrite Hid. now rewrite !orb_true_r.
Qed.

End LintFacts.

(** ** The output of a lint worker *)

Lemma includes_unfold (s sub : string) :
  Js.includes s sub
  = String.prefix sub s ||
    match s with
    | EmptyString => false
    | String _ s' => Js.includes s' sub
    end.
Proof. destruct s; reflexivity. Qed.

Lemma noEscape_not_cleared (s : string) :
  noEscape s = true -> Js.includes s clearScreen = false.
Proof.
  induction s as [|a s IH]; [reflexivity|].
  unfold noEscape. cbn [allChars]. intros [Ha Hs]%andb_prop.
  apply negb_true_iff, Ascii.eqb_neq in Ha.
  cbn [Js.includes]. rewrite (IH Hs), orb_false_r.
  apply prefix_cons_false. congruence.
Qed.

Lemma includes_clearScreen (a b : string) :
  Js.includes (a +:+ clearScreen +:+ b) clearScreen = true.
Proof. apply includes_app_l, includes_prefix, prefix_app. Qed.

Lemma replaceFrom_clearScreen (a b : string) :
  noEscape a = true ->
  forall before,
    Js.replaceFrom before (a +:+ clearScreen +:+ b) clearScreen EmptyString
    = a +:+ b.
Proof.
  induction a as [|c a IH]; intros Ha before.
  - change (EmptyString +:+ clearScreen +:+ b) with (clearScreen +:+ b).
    rewrite replaceFrom_unfold, prefix_app, str_length_app.
    replace (String.length clearScreen + String.length b
             - String.length clearScreen)%nat
      with (String.length b) by lia.
    rewrite substring_app_r, substring_all by lia. reflexivity.
  - unfold noEscape in Ha. cbn [allChars] in Ha. apply andb_prop in Ha as [Hc Ha].
    apply negb_true_iff, Ascii.eqb_neq in Hc.
    rewrite !str_app_cons, replaceFrom_unfold.
    assert (Hpre : String.prefix clearScreen (String c (a +:+ clearScreen +:+ b)) = false).
    { unfold clearScreen at 1. apply prefix_cons_false. congruence. }
    rewrite Hpre. now rewrite (IH Ha).
Qed.

Lemma replace_clearScreen (a b : string) :
  noEscape a = true ->
  Js.replace (a +:+ clearScreen +:+ b) clearScreen EmptyString = a +:+ b.
Proof. intros Ha. now apply replaceFrom_clearScreen. Qed.

Lemma replaceFrom_absent (s pat rep : string) :
  Js.includes s pat = false ->
  forall before, Js.replaceFrom before s pat rep = s.
Proof.
  induction s as [|c s IH]; intros H before; rewrite includes_unfold in H;
    apply orb_false_iff in H as [Hpre Hrest]; rewrite replaceFrom_unfold, Hpre.
  - reflexivity.
  - now rewrite (IH Hrest).
Qed.

Lemma replace_absent (s pat rep : string) :
  Js.includes s pat = false -> Js.replace s pat rep = s.
Proof. intros H. now apply replaceFrom_absent. Qed.

Lemma noEscape_app (a b : string) :
  noEscape a = true -> noEscape b = true -> noEscape (a +:+ b) = true.
Proof. unfold noEscape. intros Ha Hb. now rewrite allChars_app, Ha, Hb. Qed.

(** A chunk that clears the screen once: the reset is published, the
    sequence is taken out of the message, and the test of line 160 finds
    nothing left. *)
Lemma onStdout_cleared (id a b : string) :
  noEscape a = true -> noEscape b = true ->
  exists updates,
    onStdout id (a +:+ clearScreen +:+ b)
    = WORKER_RESET id :: updates ++ [Published (WORKER_MSG id "log" (a +:+ b))]
    /\ ~ In (Published (WORKER_UPDATE id "RUNNING")) updates.
Proof.
  intros Ha Hb. unfold onStdout.
  rewrite includes_clearScreen, (replace_clearScreen _ _ Ha).
  pose proof (noEscape_not_cleared _ (noEscape_app _ _ Ha Hb)) as Hnone.
  rewrite (replace_absent _ _ _ Hnone), Hnone.
  destruct (Js.endsWith id ":tsc").
  - eexists. split; [cbn [app]; reflexivity|].
    cbn [app]. intros Hin. apply in_app_or in Hin as [Hin | Hin].
    + destruct (watching _); [|contradiction].
      destruct Hin as [H | []]. discriminate.
    + destruct (errorMatch _) as [g|]; [|contradiction].
      destruct (negb _); [|contradiction].
      destruct Hin as [H | []]. discriminate.
  - exists []. split; [reflexivity | intros []].
Qed.

(** The count that follows the leftmost [Found]. *)
Lemma digits_app (ds rest : string) :
  allChars isDigit ds = true ->
  digits (ds +:+ rest) = ds +:+ digits rest.
Proof.
  induction ds as [|a ds IH]; intros Hds; [reflexivity|].
  cbn [allChars] in Hds. apply andb_prop in Hds as [Ha Hds].
  rewrite !str_app_cons. cbn [digits]. now rewrite Ha, (IH Hds).
Qed.

Lemma foundHere_count (ds post : string) :
  ds <> EmptyString ->
  allChars isDigit ds = true ->
  foundHere ("Found " +:+ ds +:+ " error" +:+ post) = Some ds.
Proof.
  intros Hne Hds. unfold foundHere.
  unfold Js.startsWith. rewrite prefix_app.
  assert (Hrest : substring 6 (String.length ("Found " +:+ ds +:+ " error" +:+ post) - 6)
                            ("Found " +:+ ds +:+ " error" +:+ post)
                  = ds +:+ " error" +:+ post).
  { change 6%nat with (String.length "Found ") at 1.
    rewrite substring_app_r. apply substring_all.
    rewrite (str_length_app "Found "). simpl String.length. lia. }
  rewrite Hrest. cbv zeta.
  rewrite (digits_app _ _ Hds). change (digits (" error" +:+ post)) with EmptyString.
  rewrite str_app_empty_r.
  apply String.eqb_neq in Hne. rewrite Hne. cbn [negb andb].
  rewrite substring_app_r.
  rewrite substring_all by (rewrite !str_length_app; lia).
  now rewrite prefix_app.
Qed.

Lemma foundHere_other (c : ascii) (s : string) :
  c <> "F"%char -> foundHere (String c s) = None.
Proof.
  intros Hc. unfold foundHere, Js.startsWith.
  now rewrite prefix_cons_false by congruence.
Qed.

Lemma errorMatch_count (pre ds post : string) :
  allChars (fun a => negb (Ascii.eqb a "F")) pre = true ->
  ds <> EmptyString ->
  allChars isDigit ds = true ->
  errorMatch (pre +:+ "Found " +:+ ds +:+ " error" +:+ post) = Some ds.
Proof.
  intros Hpre Hne Hds. induction pre as [|c pre IH].
  - change (EmptyString +:+ ?x) with x.
    pose proof (foundHere_count ds post Hne Hds) as Hhere.
    change ("Found " +:+ ds +:+ " error" +:+ post)
      with (String "F" ("ound " +:+ ds +:+ " error" +:+ post)) in *.
    cbn [errorMatch]. now rewrite Hhere.
  - cbn [allChars] in Hpre. apply andb_prop in Hpre as [Hc Hpre].
    apply negb_true_iff, Ascii.eqb_neq in Hc.
    rewrite str_app_cons. cbn [errorMatch].
    rewrite (foundHere_other _ _ Hc). exact (IH Hpre).
Qed.

Lemma onStdout_count (id pre ds post : string) :
  Js.endsWith id ":tsc" = true ->
  noEscape (pre +:+ "Found " +:+ ds +:+ " error" +:+ post) = true ->
  allChars (fun a => negb (Ascii.eqb a "F")) pre = true ->
  ds <> EmptyString ->
  allChars isDigit ds = true ->
  In (Published (WORKER_UPDATE id "ERROR"))
     (onStdout id (pre +:+ "Found " +:+ ds +:+ " error" +:+ post))
  <-> ds <> "0".
Proof.
  intros Htsc Hesc Hpre Hne Hds. unfold onStdout. cbv zeta.
  rewrite (noEscape_not_cleared _ Hesc), Htsc. cbn iota.
  rewrite (noEscape_not_cleared _ Hesc).
  rewrite (errorMatch_count _ _ _ Hpre Hne Hds).
  cbn [app]. split.
  - intros Hin. apply in_app_or in Hin as [Hin | [H | []]]; [|discriminate].
    apply in_app_or in Hin as [Hin | Hin].
    + destruct (watching _); [|contradiction].
      destruct Hin as [H | []]. discriminate.
    + destruct (String.eqb_spec ds "0") as [->|Hd]; [contradiction | exact Hd].
  - intros Hd. apply String.eqb_neq in Hd. rewrite Hd. cbn [negb].
    apply in_or_app. left. apply in_or_app. right. now left.
Qed.

(** ** Sequencing *)

Lemma bind_ok {A B} (m : M A) (k : A -> M B) (st st' : state) (a : A) :
  m st = Ok a st' -> bind m k st = k a st'.
Proof. intros H. unfold bind. now rewrite H. Qed.

Lemma bind_throw {A B} (m : M A) (k : A -> M B) (st st' : state) (e : string) :
  m st = Throw e st' -> bind m k st = Throw e st'.
Proof. intros H. unfold bind. now rewrite H. Qed.

Lemma bind_assoc {A B C} (m : M A) (k : A -> M B) (h : B -> M C) (st : state) :
  bind (bind m k) h st = bind m (fun a => bind (k a) h) st.
Proof. unfold bind. now destruct (m st). Qed.

Lemma bind_ext {A B} (m : M A) (k k' : A -> M B) (st : state) :
  (forall a st', k a st' = k' a st') -> bind m k st = bind m k' st.
Proof. intros H. unfold bind. destruct (m st); [apply H | reflexivity]. Qed.

(** ** Missing modules *)

Section MissingModules.

Variable w : World.
Variable config : Config.

Lemma isMissingModule_spec (spec : string) :
  isMissingModule w spec = true <->
  isBare spec = true /\ dependencyImportMap w !! spec = None
  /\ Js.inherited spec = false.
Proof.
  unfold isMissingModule. rewrite !andb_true_iff, negb_true_iff.
  destruct (dependencyImportMap w !! spec); intuition congruence.
Qed.

(** Whether the rewriter answers, and what, depends on the state only
    through the set of requests. *)
Lemma rewriteImport_sim p outPath s st1 st2 :
  allProxiedFiles st1 = allProxiedFiles st2 ->
  match rewriteImport w config p outPath s st1,
        rewriteImport w config p outPath s st2 with
  | Ok a s1, Ok b s2 => a = b /\ allProxiedFiles s1 = allProxiedFiles s2
  | Throw _ _, Throw _ _ => True
  | _, _ => False
  end.
Proof.
  intros Hsets.
  unfold rewriteImport, bind, orThrow, ret, throw, proxiedAdd, emit.
  destruct (Js.startsWith s "http"); [now split|].
  destruct (isPathSpec s).
  - destruct (String.eqb _ EmptyString); [now split|].
    destruct (Js.truthy _).
    + destruct (Js.replaceAtEndBy _ _ _); [|exact I].
      destruct (_ && _); [|now split].
      rewrite <- Hsets.
      destruct (allProxiedFiles st1); [now split | exact I].
    + destruct (_ && _); [|now split].
      rewrite <- Hsets.
      destruct (allProxiedFiles st1); [now split | exact I].
  - destruct (Js.truthy _).
    + destruct (Js.get _ _); try exact I. now split.
    + now split.
Qed.

(** A call of the rewriter for another specifier leaves the count of the
    notices for [spec] as it is. *)
Lemma rewriteImport_other p outPath spec s st :
  s <> spec ->
  missingCount spec (bus (finalState (rewriteImport w config p outPath s st)))
  = missingCount spec (bus st).
Proof.
  intros Hne.
  destruct (rewriteImport_final w config p outPath s st)
    as [-> | [-> | (l & x & _ & ->)]]; try reflexivity.
  cbn [emitted bus]. rewrite missingCount_app. unfold missingCount at 2. cbn.
  destruct (String.eqb_spec s spec); [contradiction|]. cbn. lia.
Qed.

Section OneSpecifier.

Variable p : pass.
Variable outPath spec : string.
Hypothesis spec_missing : isMissingModule w spec = true.

Lemma rewriteImport_placeholder st :
  rewriteImport w config p outPath spec st
  = Ok ("/web_modules/" +:+ spec +:+ ".js")
       (emitted (MISSING_WEB_MODULE spec) st).
Proof.
  apply isMissingModule_spec in spec_missing as (Hbare & Habsent & Hown).
  now apply rewriteImport_missing.
Qed.

(** A unit that is rewritten gets one notice for every import of the
    specifier, before or after the sets are declared. *)
Lemma transformEsmImports_count c :
  forall st c' st',
    transformEsmImports c (rewriteImport w config p outPath) st = Ok c' st' ->
    missingCount spec (bus st')
    = (missingCount spec (bus st) + occurrences spec c)%nat.
Proof.
  induction c as [|ch c IH]; intros st c' st'.
  - cbn. intros [= <- <-]. unfold occurrences. cbn. lia.
  - destruct ch as [t|s]; cbn [transformEsmImports].
    + unfold bind at 1.
      destruct (transformEsmImports c _ st) as [c1 st1|] eqn:Hrun; [|discriminate].
      intros [= <- <-]. rewrite (IH _ _ _ Hrun). reflexivity.
    + unfold bind at 1.
      pose proof (rewriteImport_other p outPath spec s st) as Hother.
      pose proof (rewriteImport_placeholder st) as Hsame.
      destruct (rewriteImport w config p outPath s st) as [s1 st1|] eqn:Hone;
        [|discriminate].
      unfold bind at 1.
      destruct (transformEsmImports c _ st1) as [c1 st2|] eqn:Hrun; [|discriminate].
      intros [= <- <-]. rewrite (IH _ _ _ Hrun).
      unfold occurrences. cbn [List.filter isImportOf].
      destruct (String.eqb_spec s spec) as [->|Hne].
      * rewrite Hsame in Hone. injection Hone as <- <-.
        cbn [emitted bus List.length]. rewrite missingCount_app.
        unfold missingCount at 2. cbn. rewrite String.eqb_refl. cbn. lia.
      * cbn [finalState] in Hother. rewrite (Hother Hne). reflexivity.
Qed.

(** The imports of the specifier play no part in whether the rewriting
    of a unit fails. *)
Lemma transformEsmImports_without c :
  forall st1 st2,
    allProxiedFiles st1 = allProxiedFiles st2 ->
    match transformEsmImports c (rewriteImport w config p outPath) st1,
          transformEsmImports (withoutImport spec c)
                              (rewriteImport w config p outPath) st2 with
    | Ok _ s1, Ok _ s2 => allProxiedFiles s1 = allProxiedFiles s2
    | Throw _ _, Throw _ _ => True
    | _, _ => False
    end.
Proof.
  induction c as [|ch c IH]; intros st1 st2 Hsets; [exact Hsets|].
  destruct ch as [t|s]; cbn [withoutImport List.filter isImportOf negb].
  - cbn [transformEsmImports].
    specialize (IH st1 st2 Hsets). fold (withoutImport spec c).
    destruct (transformEsmImports c _ st1) eqn:H1,
             (transformEsmImports (withoutImport spec c) _ st2) eqn:H2;
      rewrite ?(bind_ok _ _ _ _ _ H1), ?(bind_ok _ _ _ _ _ H2),
              ?(bind_throw _ _ _ _ _ H1), ?(bind_throw _ _ _ _ _ H2);
      exact IH.
  - destruct (String.eqb_spec s spec) as [->|Hne]; cbn [negb].
    + cbn [transformEsmImports].
      rewrite (bind_ok _ _ _ _ _ (rewriteImport_placeholder st1)).
      specialize (IH (emitted (MISSING_WEB_MODULE spec) st1) st2 Hsets).
      fold (withoutImport spec c).
      destruct (transformEsmImports c _ (emitted _ st1)) eqn:H1,
               (transformEsmImports (withoutImport spec c) _ st2) eqn:H2;
        rewrite ?(bind_ok _ _ _ _ _ H1), ?(bind_throw _ _ _ _ _ H1);
        exact IH.
    + cbn [transformEsmImports].
      pose proof (rewriteImport_sim p outPath s st1 st2 Hsets) as Hone.
      destruct (rewriteImport w config p outPath s st1) as [a s1|] eqn:R1,
               (rewriteImport w config p outPath s st2) as [b s2|] eqn:R2;
        try contradiction;
        rewrite ?(bind_ok _ _ _ _ _ R1), ?(bind_ok _ _ _ _ _ R2),
                ?(bind_throw _ _ _ _ _ R1), ?(bind_throw _ _ _ _ _ R2);
        [|exact I].
      destruct Hone as [<- Hsets1].
      specialize (IH s1 s2 Hsets1). fold (withoutImport spec c).
      destruct (transformEsmImports c _ s1) eqn:H1,
               (transformEsmImports (withoutImport spec c) _ s2) eqn:H2;
        rewrite ?(bind_ok _ _ _ _ _ H1), ?(bind_ok _ _ _ _ _ H2),
                ?(bind_throw _ _ _ _ _ H1), ?(bind_throw _ _ _ _ _ H2);
        exact IH.
Qed.

Lemma transformEsmImports_threw c st :
  threw (transformEsmImports c (rewriteImport w config p outPath) st)
  = threw (transformEsmImports (withoutImport spec c)
                               (rewriteImport w config p outPath) st).
Proof.
  pose proof (transformEsmImports_without c st st eq_refl) as H.
  destruct (transformEsmImports c _ st), (transformEsmImports _ _ st);
    try contradiction; reflexivity.
Qed.

End OneSpecifier.

(** A unit all of whose imports are missing modules is rewritten to its
    placeholders, with one notice for every import. *)
Lemma transformEsmImports_placeholders p outPath c :
  forallb (fun ch => match ch with
                     | Import s => isMissingModule w s
                     | Text _ => true
                     end) c = true ->
  forall st,
    transformEsmImports c (rewriteImport w config p outPath) st
    = Ok (placeholders c)
         {| bus := bus st ++ missingNotices c; disk := disk st;
            allBuiltFromFiles := allBuiltFromFiles st;
            allProxiedFiles := allProxiedFiles st |}.
Proof.
  induction c as [|ch c IH]; intros Hc st.
  - cbn. rewrite List.app_nil_r. now destruct st.
  - cbn [forallb] in Hc. apply andb_prop in Hc as [Hch Hc].
    destruct ch as [t|s]; cbn [transformEsmImports].
    + unfold bind at 1. rewrite (IH Hc). reflexivity.
    + unfold bind at 1. rewrite (rewriteImport_placeholder p outPath s Hch).
      unfold bind at 1. rewrite (IH Hc). unfold ret. cbn [emitted bus disk
        allBuiltFromFiles allProxiedFiles placeholders map missingNotices flat_map].
      rewrite <- List.app_assoc. reflexivity.
Qed.

End MissingModules.

Lemma missingCount_notices (spec : string) (c : code) :
  missingCount spec (missingNotices c) = occurrences spec c.
Proof.
  unfold missingCount, occurrences, missingNotices.
  induction c as [|ch c IH]; [reflexivity|].
  cbn [flat_map List.filter]. rewrite List.filter_app, List.length_app, IH.
  destruct ch as [t|s]; cbn [isImportOf]; [reflexivity|].
  cbn [List.filter isMissingEvent]. now destruct (String.eqb s spec).
Qed.

(** ** A project with one script *)

Section Project.

Variable w : World.
Variable c : code.
Hypothesis Hexcl : excluded w "/p/src/index.js" = false.
Hypothesis Hc : forallb (fun ch => match ch with
                     | Import s => isMissingModule w s
                     | Text _ => true
                     end) c = true.

Lemma project_task (b : list event) :
  mountFileTask w "/p" (Sample.config false [Sample.mountSrc]) "/p/src" "/p/out" "/p/src/index.js"
    {| bus := b;
       disk := [("/p", Dir); ("/p/src", Dir); ("/p/src/index.js", File c);
                ("/p/out", Dir)];
       allBuiltFromFiles := None; allProxiedFiles := None |}
  = Ok None
       {| bus := b ++ missingNotices c;
          disk := [("/p", Dir); ("/p/src", Dir); ("/p/src/index.js", File c);
                   ("/p/out", Dir);
                   ("/p/out/index.js", File (placeholders c))];
          allBuiltFromFiles := None; allProxiedFiles := None |}.
Proof.
  unfold mountFileTask.
  change (Path.resolve "/p" "/p/src/index.js") with "/p/src/index.js".
  change (Path.extname "/p/src/index.js") with ".js".
  change (Js.replace "/p/src/index.js" "/p/src" "/p/out") with "/p/out/index.js".
  change (existsb _ (allBuildExtensions (Sample.config false [Sample.mountSrc]))) with false. cbv iota.
  change (Path.dirname "/p/out/index.js") with "/p/out".
  change (negb (String.eqb ".js" ".js")) with false. cbv iota.
  erewrite bind_ok by reflexivity.
  erewrite bind_ok by reflexivity.
  erewrite bind_ok by (apply transformEsmImports_placeholders; exact Hc).
  reflexivity.
Qed.

Lemma project_mount (b : list event) :
  mountOne w "/p" (Sample.config false [Sample.mountSrc]) ("mount:src", "/p/src", "/p/out")
    {| bus := b;
       disk := [("/p", Dir); ("/p/src", Dir); ("/p/src/index.js", File c);
                ("/p/out", Dir)];
       allBuiltFromFiles := None; allProxiedFiles := None |}
  = Ok (Some ("/p/src", "/p/out", []))
       {| bus := b ++ [WORKER_UPDATE "mount:src" "RUNNING"] ++ missingNotices c
                   ++ [WORKER_COMPLETE "mount:src" None];
          disk := [("/p", Dir); ("/p/src", Dir); ("/p/src/index.js", File c);
                   ("/p/out", Dir);
                   ("/p/out/index.js", File (placeholders c))];
          allBuiltFromFiles := None; allProxiedFiles := None |}.
Proof.
  unfold mountOne.
  erewrite bind_ok by reflexivity.
  erewrite bind_ok.
  2:{ unfold globSync. erewrite bind_ok by reflexivity.
      cbn [disk]. change (Fs.filesUnder _ _) with ["/p/src/index.js"].
      cbn [List.filter]. rewrite Hexcl. cbn [negb]. reflexivity. }
  cbv beta. cbn [settleAll bus disk allBuiltFromFiles allProxiedFiles].
  rewrite project_task.
  unfold bind, emit, ret. cbn [bus disk allBuiltFromFiles allProxiedFiles].
  rewrite <- !List.app_assoc. reflexivity.
Qed.

Lemma project_build :
  command w "/p" (Sample.config false [Sample.mountSrc]) (initialState (Sample.project c))
  = Ok tt
       {| bus := [WORKER_UPDATE "bundle:*" "SKIP";
                  WORKER_UPDATE "mount:src" "RUNNING"]
                 ++ missingNotices c
                 ++ [WORKER_COMPLETE "mount:src" None;
                     WORKER_COMPLETE "bundle:*" None;
                     WORKER_UPDATE "bundle:*" "SKIP"];
          disk := [("/p", Dir); ("/p/src", Dir); ("/p/src/index.js", File c);
                   ("/p/out", Dir);
                   ("/p/out/index.js", File (placeholders c))];
          allBuiltFromFiles := Some [];
          allProxiedFiles := Some [] |}.
Proof.
  unfold command.
  change (List.length (allRegisteredWorkers (Sample.config false [Sample.mountSrc])) =? 0)%nat with false. cbv iota.
  erewrite bind_ok by reflexivity.
  erewrite bind_ok by reflexivity.
  unfold afterClean.
  erewrite bind_ok by reflexivity.
  erewrite bind_ok by reflexivity.
  erewrite bind_ok by reflexivity.
  erewrite bind_ok.
  2:{ cbn [mountAll]. erewrite bind_ok by apply project_mount.
      reflexivity. }
  erewrite bind_ok by reflexivity.
  erewrite bind_ok by reflexivity.
  erewrite bind_ok by reflexivity.
  erewrite bind_ok by reflexivity.
  erewrite bind_ok by reflexivity.
  unfold bind, emit, ret. cbn. rewrite <- !List.app_assoc. reflexivity.
Qed.

End Project.

(** ** What a mount publishes *)

Lemma onlyNotices_refl (st : state) : onlyNotices st st.
Proof. exists []. now rewrite List.app_nil_r. Qed.

Lemma onlyNotices_trans (a b c : state) :
  onlyNotices a b -> onlyNotices b c -> onlyNotices a c.
Proof.
  intros (p1 & H1 & Hp1) (p2 & H2 & Hp2). exists (p1 ++ p2).
  rewrite H2, H1, <- List.app_assoc, forallb_app, Hp1, Hp2. now split.
Qed.

Lemma onlyNotices_same (st st' : state) :
  bus st' = bus st -> onlyNotices st st'.
Proof. intros H. exists []. now rewrite List.app_nil_r. Qed.

Section Notices.

Variable w : World.
Variable cwd : string.
Variable config : Config.

Lemma rewriteImport_notices p outPath s :
  keeps onlyNotices (rewriteImport w config p outPath s).
Proof.
  intros st.
  destruct (rewriteImport_final w config p outPath s st)
    as [-> | [-> | (l & x & _ & ->)]].
  - apply onlyNotices_refl.
  - now exists [MISSING_WEB_MODULE s].
  - now apply onlyNotices_same.
Qed.

Lemma mkdirp_notices dir : keeps onlyNotices (mkdirp dir).
Proof. intros st. apply onlyNotices_same, mkdirp_bus. Qed.

Lemma writeFile_notices p c : keeps onlyNotices (writeFile p c).
Proof. intros st. apply onlyNotices_same, writeFile_bus. Qed.

Lemma mountFileTask_notices dirDisk dirDest f :
  keeps onlyNotices (mountFileTask w cwd config dirDisk dirDest f).
Proof.
  assert (Hret : forall A (a : A), keeps onlyNotices (ret a)).
  { intros A a. apply keeps_ret. exact onlyNotices_refl. }
  unfold mountFileTask.
  apply keeps_if; [apply Hret|].
  apply keeps_bind; [exact onlyNotices_trans | apply mkdirp_notices|].
  intros _. apply keeps_if.
  - apply keeps_bind; [exact onlyNotices_trans | | intros; apply Hret].
    apply (keeps_copyFile onlyNotices (fun _ => True));
      first [exact onlyNotices_refl | exact onlyNotices_trans
            | exact I | intros; apply writeFile_notices].
  - apply keeps_bind; [exact onlyNotices_trans | |].
    + apply keeps_readFile;
        first [exact onlyNotices_refl | exact onlyNotices_trans].
    + intros c0. apply keeps_bind; [exact onlyNotices_trans | |].
      * apply keeps_transformEsmImports;
          first [exact onlyNotices_refl | exact onlyNotices_trans
                | intros s; apply rewriteImport_notices].
      * intros c1. apply keeps_bind;
          [exact onlyNotices_trans | apply writeFile_notices|].
        intros. apply Hret.
Qed.

Lemma settleAll_notices dirDisk dirDest files :
  forall st, onlyNotices st (snd (settleAll w cwd config dirDisk dirDest files st)).
Proof.
  induction files as [|f files IH]; intros st; [apply onlyNotices_refl|].
  cbn [settleAll].
  pose proof (mountFileTask_notices dirDisk dirDest f st) as Hone.
  destruct (mountFileTask w cwd config dirDisk dirDest f st) as [r st1|e st1];
    cbn [finalState] in Hone; specialize (IH st1);
    destruct (settleAll w cwd config dirDisk dirDest files st1) as [[needed err] st2];
    cbn [snd] in *; eapply onlyNotices_trans; eassumption.
Qed.

(** One iteration of the mount loop always answers, and what it publishes
    and hands on is a report. *)
Lemma mountOne_reported id dirDisk dirDest st :
  exists report st',
    wellReported report = true
    /\ mountOne w cwd config (id, dirDisk, dirDest) st
       = Ok (reportSet (id, dirDisk, dirDest) report) st'
    /\ bus st' = bus st ++ reportEvents id report.
Proof.
  unfold mountOne. unfold bind at 1. unfold emit at 1.
  unfold bind at 1. unfold globSync at 1, bind at 1, getDisk at 1, ret at 1.
  set (st1 := {| bus := bus st ++ [WORKER_UPDATE id "RUNNING"]; disk := disk st;
                 allBuiltFromFiles := allBuiltFromFiles st;
                 allProxiedFiles := allProxiedFiles st |}).
  set (files := List.filter _ _).
  destruct (settleAll_notices dirDisk dirDest files st1) as (published & Hbus & Hpub).
  destruct (settleAll w cwd config dirDisk dirDest files st1) as [[needed [err|]] st2];
    cbn [snd] in Hbus.
  - exists {| notices := published; ending := inl err |}. eexists.
    split; [exact Hpub|]. split; [reflexivity|].
    cbn. rewrite Hbus. unfold st1. cbn [bus].
    rewrite <- !List.app_assoc. reflexivity.
  - exists {| notices := published; ending := inr needed |}. eexists.
    split; [exact Hpub|]. split; [reflexivity|].
    cbn. rewrite Hbus. unfold st1. cbn [bus].
    rewrite <- !List.app_assoc. reflexivity.
Qed.

Lemma mountAll_reported details :
  forall st, exists reports st',
    List.length reports = List.length details
    /\ forallb wellReported reports = true
    /\ mountAll w cwd config details st = Ok (reportsSets details reports) st'
    /\ bus st' = bus st ++ reportsEvents details reports.
Proof.
  induction details as [|[[id dirDisk] dirDest] details IH]; intros st.
  - exists [], st. cbn. now rewrite List.app_nil_r.
  - destruct (mountOne_reported id dirDisk dirDest st)
      as (report & st1 & Hwell & Hone & Hbus1).
    destruct (IH st1) as (reports & st2 & Hlen & Hall & Hrest & Hbus2).
    exists (report :: reports), st2.
    split; [cbn; now rewrite Hlen|].
    split; [cbn; now rewrite Hwell, Hall|].
    split.
    + cbn [mountAll]. rewrite (bind_ok _ _ _ _ _ Hone), (bind_ok _ _ _ _ _ Hrest).
      cbn [reportsSets]. now destruct (reportSet _ report).
    + rewrite Hbus2, Hbus1. cbn [reportsEvents fst].
      now rewrite <- List.app_assoc.
Qed.

End Notices.

Section Deferred.

Variable w : World.
Variable cwd : string.
Variable config : Config.

(** A mount all of whose files are deferred to the workers does nothing
    else. *)
Lemma settleAll_deferred dirDisk dirDest files st :
  forallb (registered config) (map (Path.resolve cwd) files) = true ->
  settleAll w cwd config dirDisk dirDest files st
  = (map (Path.resolve cwd) files, None, st).
Proof.
  induction files as [|f files IH]; intros Hall; [reflexivity|].
  cbn [map forallb] in Hall. apply andb_prop in Hall as [Hf Hall].
  cbn [settleAll]. unfold mountFileTask at 1.
  unfold registered in Hf. rewrite Hf. unfold ret at 1.
  now rewrite (IH Hall).
Qed.

Lemma mountOne_deferred id dirDisk dirDest st :
  forallb (registered config)
          (map (Path.resolve cwd)
               (List.filter (fun f => negb (excluded w f))
                            (Fs.filesUnder dirDisk (disk st)))) = true ->
  mountOne w cwd config (id, dirDisk, dirDest) st
  = Ok (Some (dirDisk, dirDest,
              map (Path.resolve cwd)
                  (List.filter (fun f => negb (excluded w f))
                               (Fs.filesUnder dirDisk (disk st)))))
       (emitted (WORKER_COMPLETE id None)
                (emitted (WORKER_UPDATE id "RUNNING") st)).
Proof.
  intros Hall.
  unfold mountOne. unfold bind at 1. unfold emit at 1.
  unfold bind at 1. unfold globSync at 1, bind at 1, getDisk at 1, ret at 1.
  cbn [disk]. now rewrite (settleAll_deferred _ _ _ _ Hall).
Qed.

(** The report of a mount, and what it is when every file is deferred. *)
Lemma mountOne_report id dirDisk dirDest st :
  exists report st',
    wellReported report = true
    /\ mountOne w cwd config (id, dirDisk, dirDest) st
       = Ok (reportSet (id, dirDisk, dirDest) report) st'
    /\ bus st' = bus st ++ reportEvents id report
    /\ (forallb (registered config)
                (map (Path.resolve cwd)
                     (List.filter (fun f => negb (excluded w f))
                                  (Fs.filesUnder dirDisk (disk st)))) = true ->
        report
        = {| notices := [];
             ending := inr (map (Path.resolve cwd)
                              (List.filter (fun f => negb (excluded w f))
                                           (Fs.filesUnder dirDisk (disk st)))) |}).
Proof.
  destruct (forallb (registered config) _) eqn:Hall.
  - eexists {| notices := []; ending := inr _ |}, _.
    split; [reflexivity|]. split; [now apply mountOne_deferred|].
    split; [|reflexivity].
    cbn. now rewrite <- List.app_assoc.
  - destruct (mountOne_reported w cwd config id dirDisk dirDest st)
      as (report & st' & Hwell & Hrun & Hbus).
    exists report, st'. repeat split; try assumption. discriminate.
Qed.

End Deferred.

(** ** Routing in the worker loop *)

(** An id starts with at most one of the two prefixes. *)
Lemma transformFile_taken (w : World) (config : Config) (id : string)
      (workerConfig : DevScript) (dirDisk dirDest f : string) :
  isTransformer id = true ->
  takesFile id f = true ->
  Js.startsWith id "build:" = true
  /\ transformFile w config id workerConfig dirDisk dirDest f
     = runBuildWorker w config workerConfig dirDisk dirDest f
  \/ Js.startsWith id "plugin:" = true
     /\ transformFile w config id workerConfig dirDisk dirDest f
        = runPluginWorker w config id workerConfig dirDisk dirDest f.
Proof.
  intros Hid Htakes. unfold transformFile. rewrite Htakes. cbn [negb].
  unfold isTransformer in Hid.
  destruct (Js.startsWith id "build:"); [now left|].
  cbn [orb] in Hid. rewrite Hid. now right.
Qed.

(** ** Up to the lint workers *)

Section LintAwaited.

Variable w : World.
Variable cwd : string.
Variable config : Config.

(** [afterClean] is [untilLintAwaited] followed by the rest of the
    function. *)
Lemma afterClean_split (st : state) :
  afterClean w cwd config st
  = (do lintOk <- untilLintAwaited w cwd config;
     run (if lintOk then ret tt else throw "Command failed");
     run proxyPass w cwd config;
     if negb (isBundled w config) then
       run emit (WORKER_COMPLETE "bundle:*" None);
       run emit (WORKER_UPDATE "bundle:*" "SKIP");
       if negb (isBundledHardcoded config)
       then emit (WORKER_MSG "bundle:*" "log"
                    "npm install --save-dev parcel-bundler")
       else ret tt
     else
       run emit (WORKER_UPDATE "bundle:*" "RUNNING");
       prepareBuildDirectoryForParcel w cwd config) st.
Proof.
  unfold afterClean, untilLintAwaited. symmetry.
  do 6 (rewrite bind_assoc; apply bind_ext; intros ? ?).
  reflexivity.
Qed.

Lemma untilLintAwaited_failed id script st ok st' :
  In (id, script) (scripts config) ->
  Js.startsWith id "lintall:" = true ->
  exitCode (execa w (disk st) (cmd script) EmptyString) <> 0 ->
  untilLintAwaited w cwd config st = Ok ok st' ->
  ok = false.
Proof.
  intros Hin Hid Hexit. unfold untilLintAwaited. unfold bind at 1.
  assert (Hskip : exists st2,
             (if negb (isBundled w config)
              then emit (WORKER_UPDATE "bundle:*" "SKIP") else ret tt) st
             = Ok tt st2 /\ disk st2 = disk st).
  { destruct (negb (isBundled w config)); eexists; split; reflexivity. }
  destruct Hskip as (st2 & -> & Hd2).
  unfold bind at 1.
  destruct (startLintWorkers_started w (relevantWorkers config) id script
              (relevantWorkers_lint config id script Hin Hid) Hid st2)
    as (ps & st3 & -> & Hd3 & Hps).
  rewrite Hd2 in Hps.
  unfold bind at 1.
  destruct (mountDirDetails w cwd config (relevantWorkers config) st3)
    as [details st4|]; [|discriminate].
  unfold bind at 1.
  destruct (mountAll w cwd config details st4) as [sets st5|]; [|discriminate].
  unfold bind at 1. unfold declareSets at 1.
  unfold bind at 1.
  destruct (workerPass w config (relevantWorkers config) sets _) as [[] st6|];
    [|discriminate].
  destruct (awaitLintWorkers_failed ps id _ Hps Hexit st6) as [st7 ->].
  now intros [= <- _].
Qed.

End LintAwaited.

(** * The claims *)

(** C1, at the input where the code departs from it.  The compiler of
    worker [build:ts] exits with a non-zero code on [/p/src/a.ts]: the
    whole run ends with the exception of that process, no event reports
    the failure under the worker's id, and the next file, [/p/src/b.ts],
    is never compiled.  The plugin path does what the claim says: when
    the plugin of worker [plugin:js] fails on [/p/src/broken.js] the
    failure is published under the worker's id, that output is missing,
    and the next script is compiled.  The extension table plays no
    part. *)
Theorem C1_build_worker_failure_aborts_the_run :
  (let result :=
     command (Sample.world Sample.noRemap true) "/p"
             (Sample.config false
                [Sample.mountSrc; ("build:ts", Sample.script "tsc $FILE")])
             (initialState Sample.tree) in
   result = Throw "Command failed: tsc /p/src/a.ts" (finalState result)
   /\ bus (finalState result)
      = [WORKER_UPDATE "bundle:*" "SKIP";
         WORKER_UPDATE "mount:src" "RUNNING";
         MISSING_WEB_MODULE "vue";
         MISSING_WEB_MODULE "vue";
         WORKER_COMPLETE "mount:src" None;
         WORKER_UPDATE "build:ts" "RUNNING"]
   /\ Fs.lookup "/p/out/b.ts" (disk (finalState result)) = None
   /\ Fs.lookup "/p/out/b.js" (disk (finalState result)) = None)
  /\ (let sibling :=
        command (Sample.world Sample.noRemap false) "/p"
                (Sample.config false
                   [Sample.mountSrc; ("plugin:js", Sample.script "babel-plugin")])
                (initialState Sample.treeWithBrokenScript) in
      threw sibling = false
      /\ bus (finalState sibling)
         = [WORKER_UPDATE "bundle:*" "SKIP";
            WORKER_UPDATE "mount:src" "RUNNING";
            WORKER_COMPLETE "mount:src" None;
            WORKER_UPDATE "plugin:js" "RUNNING";
            CONSOLE "error" "[plugin:js] unexpected token";
            WORKER_COMPLETE "plugin:js" (Some "[plugin:js] unexpected token");
            WORKER_COMPLETE "plugin:js" None;
            WORKER_COMPLETE "bundle:*" None;
            WORKER_UPDATE "bundle:*" "SKIP"]
      /\ Fs.lookup "/p/out/broken.js" (disk (finalState sibling)) = None
      /\ Fs.lookup "/p/out/index.js" (disk (finalState sibling))
         = Some (File [Text "compiled "; Import "./logo.svg.proxy.js"])).
Proof. vm_compute. repeat split. Qed.

(** C2, at the input where the code departs from it.  Bundling is
    enabled and worker [plugin:js] answers, for each plain script, a unit
    that imports [./logo.svg].  The rewriter of the plugin pass records a
    proxy request for the asset and appends [.proxy.js], where the
    rewriters of the mount-level pass and of the build pass leave the
    specifier alone; the run ends with the request recorded and the proxy
    module written.  The extension table is empty.  (The rewriter of the
    plugin pass never looks at the bundling mode, see
    [rewriteImport_plugin_any_mode]; the other two do, see
    [rewriteImport_bundled].) *)
Theorem C2_plugin_pass_proxies_while_bundling :
  let world := Sample.world Sample.noRemap false in
  let config :=
    Sample.config true
      [Sample.mountSrc; ("plugin:js", Sample.script "babel-plugin")] in
  isBundled world config = true
  /\ rewriteImport world config PluginPass "/p/.build/index.js"
                   "./logo.svg" Sample.declared
     = Ok "./logo.svg.proxy.js"
          {| bus := []; disk := Sample.tree; allBuiltFromFiles := Some [];
             allProxiedFiles := Some ["/p/.build/logo.svg"] |}
  /\ rewriteImport world config BuildPass "/p/.build/index.js"
                   "./logo.svg" Sample.declared
     = Ok "./logo.svg" Sample.declared
  /\ rewriteImport world config MountPass "/p/.build/index.js"
                   "./logo.svg" (initialState Sample.tree)
     = Ok "./logo.svg" (initialState Sample.tree)
  /\ let result := command world "/p" config (initialState Sample.tree) in
     threw result = false
     /\ allProxiedFiles (finalState result) = Some ["/p/.build/logo.svg"]
     /\ Fs.lookup "/p/.build/index.js" (disk (finalState result))
        = Some (File [Text "compiled "; Import "./logo.svg.proxy.js"])
     /\ Fs.lookup "/p/.build/logo.svg.proxy.js" (disk (finalState result))
        = Some (File [Text "/logo.svg"]).
Proof. vm_compute. repeat split. Qed.

(** C3, at the input where the code departs from it.  Bundling is
    disabled and the plain script [/p/src/index.js] imports [./logo.svg].
    The mount-level rewriter reaches [allProxiedFiles.add] before the set
    is declared: the task of that file fails, the mount is reported as
    failed, the script is not written, no proxy request is recorded, and
    the files of the mount never reach the workers.  (Any specifier that
    asks for a proxy does this before the declaration, see
    [rewriteImport_undeclared]; in the worker passes requests are
    recorded once each, see [transformEsmImports_requests].) *)
Theorem C3_mount_pass_uses_the_set_before_its_declaration :
  let world := Sample.world Sample.noRemap false in
  let config :=
    Sample.config false
      [Sample.mountSrc; ("build:ts", Sample.script "tsc $FILE")] in
  rewriteImport world config MountPass "/p/out/index.js" "./logo.svg"
                (initialState Sample.treeWithAssetImport)
  = Throw "ReferenceError: Cannot access 'allProxiedFiles' before initialization"
          (initialState Sample.treeWithAssetImport)
  /\ let result := command world "/p" config
                           (initialState Sample.treeWithAssetImport) in
     bus (finalState result)
     = [WORKER_UPDATE "bundle:*" "SKIP";
        WORKER_UPDATE "mount:src" "RUNNING";
        WORKER_MSG "mount:src" "error"
          "ReferenceError: Cannot access 'allProxiedFiles' before initialization";
        WORKER_COMPLETE "mount:src"
          (Some "ReferenceError: Cannot access 'allProxiedFiles' before initialization");
        WORKER_UPDATE "build:ts" "RUNNING";
        WORKER_COMPLETE "build:ts" None;
        WORKER_COMPLETE "bundle:*" None;
        WORKER_UPDATE "bundle:*" "SKIP"]
     /\ allProxiedFiles (finalState result) = Some []
     /\ Fs.lookup "/p/out/index.js" (disk (finalState result)) = None
     /\ Fs.lookup "/p/out/logo.svg.proxy.js" (disk (finalState result)) = None
     /\ Fs.lookup "/p/out/a.ts" (disk (finalState result)) = None.
Proof. vm_compute. repeat split. Qed.

(** C4, as amended.  Take a bare specifier that the dependency import
    map does not hold and that is not the name of a property every
    object inherits.  In each of the three passes, before or after the
    sets are declared, the rewriter answers [/web_modules/<spec>.js] and
    publishes one [MISSING_WEB_MODULE] event, changing nothing else.  A
    unit that is rewritten gets as many events for the specifier as it
    has imports of it.  The build still completes: the imports of the
    specifier play no part in whether the rewriting of a unit fails, and
    the build of a project whose script imports missing modules only,
    this one among them, returns with the placeholders written and one
    event for every import. *)
Theorem C4_missing_module_once_per_import
        (w : World) (config : Config) (p : pass) (outPath spec : string) :
  isBare spec = true ->
  dependencyImportMap w !! spec = None ->
  Js.inherited spec = false ->
  (forall st,
      rewriteImport w config p outPath spec st
      = Ok ("/web_modules/" +:+ spec +:+ ".js")
           (emitted (MISSING_WEB_MODULE spec) st))
  /\ (forall c st c' st',
         transformEsmImports c (rewriteImport w config p outPath) st
         = Ok c' st' ->
         missingCount spec (bus st')
         = (missingCount spec (bus st) + occurrences spec c)%nat)
  /\ (forall c st,
         threw (transformEsmImports c (rewriteImport w config p outPath) st)
         = threw (transformEsmImports (withoutImport spec c)
                                      (rewriteImport w config p outPath) st))
  /\ (forall c,
         excluded w "/p/src/index.js" = false ->
         In (Import spec) c ->
         forallb (fun ch => match ch with
                            | Import s => isMissingModule w s
                            | Text _ => true
                            end) c = true ->
         exists st',
           command w "/p" (Sample.config false [Sample.mountSrc])
                   (initialState (Sample.project c))
           = Ok tt st'
           /\ Fs.lookup "/p/out/index.js" (disk st')
              = Some (File (placeholders c))
           /\ missingCount spec (bus st') = occurrences spec c).
Proof.
  intros Hbare Habsent Hown.
  assert (Hmissing : isMissingModule w spec = true).
  { now apply isMissingModule_spec. }
  split; [|split; [|split]].
  - intros st. now apply rewriteImport_missing.
  - intros c. now apply transformEsmImports_count.
  - intros c st. now apply transformEsmImports_threw.
  - intros c Hexcl _ Hc. eexists. split; [now apply project_build|].
    split; [reflexivity|]. cbn [bus].
    rewrite !missingCount_app, missingCount_notices.
    unfold missingCount. cbn [List.filter isMissingEvent List.length]. lia.
Qed.

Lemma C4_witness :
  rewriteImport (Sample.world Sample.mapping false)
                (Sample.config false [Sample.mountSrc])
                MountPass "/p/out/index.js" "react" (initialState Sample.tree)
  = Ok "/web_modules/react.js"
       (emitted (MISSING_WEB_MODULE "react") (initialState Sample.tree))
  /\ exists st',
      command (Sample.world Sample.mapping false) "/p"
              (Sample.config false [Sample.mountSrc])
              (initialState
                 (Sample.project [Import "react"; Text ";"; Import "react";
                                  Import "vue"]))
      = Ok tt st'
      /\ Fs.lookup "/p/out/index.js" (disk st')
         = Some (File [Import "/web_modules/react.js"; Text ";";
                       Import "/web_modules/react.js";
                       Import "/web_modules/vue.js"])
      /\ missingCount "react" (bus st') = 2%nat.
Proof.
  destruct (C4_missing_module_once_per_import
              (Sample.world Sample.mapping false)
              (Sample.config false [Sample.mountSrc])
              MountPass "/p/out/index.js" "react" eq_refl eq_refl eq_refl)
    as (Hone & _ & _ & Hbuild).
  split; [apply Hone|].
  apply (Hbuild [Import "react"; Text ";"; Import "react"; Import "vue"]).
  - reflexivity.
  - left. reflexivity.
  - reflexivity.
Defined.

(** C4 as stated fails, in two ways.  Two plain scripts of one mount
    import the missing package [vue], and the build publishes two events
    for that one specifier, not one.  And the bare specifier
    [constructor], which the import map does not hold, is looked up in it
    all the same, since every object inherits a property of that name:
    the rewriter throws in [path.posix.resolve], publishes nothing and
    answers no placeholder, the mount of a script that imports it is
    reported as failed, and the script is not written. *)
Lemma C4_counterexample :
  (let result :=
     command (Sample.world Sample.noRemap false) "/p"
             (Sample.config false [Sample.mountSrc])
             (initialState Sample.tree) in
   threw result = false
   /\ Fs.lookup "/p/out/index.js" (disk (finalState result))
      = Some (File [Text "import "; Import "./util.js";
                    Import "/web_modules/vue.js"])
   /\ Fs.lookup "/p/out/util.js" (disk (finalState result))
      = Some (File [Text "import "; Import "/web_modules/vue.js"])
   /\ missingCount "vue" (bus (finalState result)) = 2%nat
   /\ missingCount "vue" (bus (finalState result)) <> 1%nat)
  /\ isBare "constructor" = true
  /\ dependencyImportMap (Sample.world Sample.noRemap false) !! "constructor"
     = None
  /\ rewriteImport (Sample.world Sample.noRemap false)
                   (Sample.config false [Sample.mountSrc])
                   BuildPass "/p/out/a.js" "constructor" Sample.declared
     = Throw typeError Sample.declared
  /\ (let result :=
        command (Sample.world Sample.noRemap false) "/p"
                (Sample.config false [Sample.mountSrc])
                (initialState
                   (Sample.project [Text "import "; Import "constructor"])) in
      bus (finalState result)
      = [WORKER_UPDATE "bundle:*" "SKIP";
         WORKER_UPDATE "mount:src" "RUNNING";
         WORKER_MSG "mount:src" "error" typeError;
         WORKER_COMPLETE "mount:src" (Some typeError);
         WORKER_COMPLETE "bundle:*" None;
         WORKER_UPDATE "bundle:*" "SKIP"]
      /\ missingCount "constructor" (bus (finalState result)) = 0%nat
      /\ Fs.lookup "/p/out/index.js" (disk (finalState result)) = None).
Proof. vm_compute. repeat split; discriminate. Qed.

(** C5, at the input where the code departs from it.  With bundling
    enabled, worker [build:ts] compiles two files and worker [plugin:js]
    compiles the two plain scripts; all four outputs are written, but
    only the two sources of the build worker are in the record of built
    files when the copy starts.  (The plugin worker never adds to the
    record, see [runPluginWorker_built].) *)
Theorem C5_plugin_outputs_are_not_recorded :
  let result :=
    command (Sample.world Sample.noRemap false) "/p"
            (Sample.config true
               [Sample.mountSrc; ("build:ts", Sample.script "tsc $FILE");
                ("plugin:js", Sample.script "babel-plugin")])
            (initialState Sample.tree) in
  threw result = false
  /\ Fs.lookup "/p/.build/a.ts" (disk (finalState result))
     = Some (File [Text "tsc /p/src/a.ts"; Text " compiled"])
  /\ Fs.lookup "/p/.build/index.js" (disk (finalState result))
     = Some (File [Text "compiled "; Import "./logo.svg.proxy.js"])
  /\ Fs.lookup "/p/.build/util.js" (disk (finalState result))
     = Some (File [Text "compiled "; Import "./logo.svg.proxy.js"])
  /\ allBuiltFromFiles (finalState result) = Some ["/p/src/a.ts"; "/p/src/b.ts"].
Proof. vm_compute. repeat split. Qed.

(** C6, at the input where the code departs from it.  Worker [build:tsx]
    declares the single extension [tsx], yet the test of line 274 lets it
    take [/p/src/a.ts], because [:ts] occurs inside its id: the file is
    compiled by [build:ts] and then again by [build:tsx], whose output is
    the one left on disk.  (A worker does take every file whose extension
    it declares, see [declared_extension_taken], and a file whose
    extension no worker declares stays out of the worker passes, see
    [mountFileTask_unregistered].) *)
Theorem C6_worker_takes_file_of_undeclared_extension :
  declaredExtensions "build:tsx" = ["tsx"]
  /\ Js.substr1 (Path.extname "/p/src/a.ts") = "ts"
  /\ takesFile "build:tsx" "/p/src/a.ts" = true
  /\ let result :=
       command (Sample.world Sample.noRemap false) "/p"
               (Sample.config false
                  [Sample.mountSrc; ("build:ts", Sample.script "tsc $FILE");
                   ("build:tsx", Sample.script "babel $FILE")])
               (initialState Sample.tree) in
     threw result = false
     /\ Fs.lookup "/p/out/a.ts" (disk (finalState result))
        = Some (File [Text "babel /p/src/a.ts"; Text " compiled"]).
Proof. vm_compute. repeat split. Qed.




(** C8.  In a working directory and with an output directory that are
    normalised absolute paths, the mount command [mount <src> --to <dest>]
    is parsed to the source directory [<cwd>/<src>] and the destination
    [<buildRoot>/<dest>], and [mount <src>] to the destination
    [<buildRoot>/<src>], for directory names made of letters.  A mount
    script whose first token is not [mount] makes the parser throw, and
    [command] on any configuration that holds such a script ends with an
    exception before it has changed anything. *)
Theorem C8_mount_command_parsing
        (w : World) (config : Config) (cwdSegs outSegs : list string)
        (id src dest : string) (watching : option string) (st : state) :
  Js.startsWith id "mount:" = true ->
  plainSegs cwdSegs = true ->
  plainSegs outSegs = true ->
  out config = Path.joinSegs outSegs ->
  isWord src = true ->
  isWord dest = true ->
  let cwd := Path.joinSegs cwdSegs in
  let buildRoot := buildDirectoryLoc w cwd config in
  mountDirDetail w cwd config
    (id, {| cmd := "mount " +:+ src +:+ " --to " +:+ dest; watch := watching |}) st
  = Ok (Some (id, cwd +:+ "/" +:+ src, buildRoot +:+ "/" +:+ dest)) st
  /\ mountDirDetail w cwd config
       (id, {| cmd := "mount " +:+ src; watch := watching |}) st
     = Ok (Some (id, cwd +:+ "/" +:+ src, buildRoot +:+ "/" +:+ src)) st
  /\ (forall script,
         firstToken (cmd script) <> "mount" ->
         mountDirDetail w cwd config (id, script) st
         = Throw ("script[" +:+ id +:+ "] must use the mount command") st
         /\ forall config',
             In (id, script) (scripts config') ->
             exists e, command w cwd config' st = Throw e st).
Proof.
  intros Hid Hcwd Hout Heq Hsrc Hdest cwd buildRoot.
  destruct (buildDirectoryLoc_plain w config cwdSegs outSegs Hcwd Hout Heq)
    as (bSegs & Hb & Hbuild).
  fold cwd in Hbuild. fold buildRoot in Hbuild.
  pose proof (plainSegs_forallb _ Hcwd) as Hcwd'.
  pose proof (plainSegs_forallb _ Hb) as Hb'.
  pose proof (isWord_plainSeg _ Hsrc) as Hsrc'.
  pose proof (isWord_plainSeg _ Hdest) as Hdest'.
  split; [|split].
  - unfold mountDirDetail. rewrite Hid. cbn [negb]. unfold bind, mountTokens.
    cbn [cmd]. rewrite (splitWs_mount_to _ _ Hsrc Hdest).
    cbn [String.eqb Ascii.eqb Bool.eqb]. unfold ret at 1.
    rewrite (yargsTo_flag _ _ Hsrc).
    fold buildRoot. rewrite Hbuild. unfold cwd, ret.
    now rewrite !resolve_child.
  - unfold mountDirDetail. rewrite Hid. cbn [negb]. unfold bind, mountTokens.
    cbn [cmd]. rewrite (splitWs_mount _ Hsrc).
    cbn [String.eqb Ascii.eqb Bool.eqb]. unfold ret.
    fold buildRoot. rewrite Hbuild. unfold cwd.
    now rewrite !resolve_child.
  - intros script Hfirst. split.
    + unfold mountDirDetail. rewrite Hid. cbn [negb]. unfold bind.
      now rewrite (mountTokens_malformed id script st Hfirst).
    + intros config' Hin. unfold command, allRegisteredWorkers.
      destruct (scripts config') as [|e es] eqn:Hscripts; [contradiction|].
      cbn [List.length Nat.eqb]. unfold bind at 1.
      destruct (mountedDirectories_malformed cwd id script (e :: es) st
                  Hin Hid Hfirst) as [err Herr].
      rewrite Herr. eauto.
Qed.

Lemma C8_witness :
  mountDirDetail (Sample.world Sample.mapping false) "/p"
    (Sample.config true [Sample.mountSrc])
    ("mount:src", Sample.script "mount src --to dest") (initialState Sample.tree)
  = Ok (Some ("mount:src", "/p/src", "/p/.build/dest")) (initialState Sample.tree)
  /\ mountDirDetail (Sample.world Sample.mapping false) "/p"
    (Sample.config true [Sample.mountSrc])
       ("mount:src", Sample.script "mount src") (initialState Sample.tree)
     = Ok (Some ("mount:src", "/p/src", "/p/.build/src")) (initialState Sample.tree)
  /\ exists e,
      command (Sample.world Sample.mapping false) "/p"
              (Sample.config true [("mount:src", Sample.script "copy src --to dest")])
              (initialState Sample.tree)
      = Throw e (initialState Sample.tree).
Proof.
  destruct (C8_mount_command_parsing
              (Sample.world Sample.mapping false)
                (Sample.config true [Sample.mountSrc])
              ["p"] ["p"; "out"] "mount:src" "src" "dest" None
              (initialState Sample.tree)
              eq_refl eq_refl eq_refl eq_refl eq_refl eq_refl) as (H1 & H2 & H3).
  split; [exact H1 | split; [exact H2 |]].
  assert (Hfirst : firstToken (cmd (Sample.script "copy src --to dest")) <> "mount")
    by (vm_compute; discriminate).
  destruct (H3 (Sample.script "copy src --to dest") Hfirst) as [_ Hcmd].
  apply (Hcmd (Sample.config true
                 [("mount:src", Sample.script "copy src --to dest")])).
  left. reflexivity.
Defined.

(** C9.  A relative or root-relative specifier without an extension is
    rewritten to itself followed by [.js], whatever its shape, in each of
    the three rewriting passes and in both bundling modes; the state is
    returned as it was, so no proxy request is recorded and nothing is
    published.  Having no extension is the test of the code, an empty
    [path.extname(spec).substr(1)]; a last segment without a dot passes
    it, see [extname_dotless]. *)
Theorem C9_extensionless_specifier_appends_js
        (w : World) (config : Config) (p : pass) (outPath spec : string)
        (st : state) :
  isPathSpec spec = true ->
  Js.substr1 (Path.extname spec) = EmptyString ->
  rewriteImport w config p outPath spec st = Ok (spec +:+ ".js") st.
Proof. apply rewriteImport_extensionless. Qed.

Lemma C9_witness :
  rewriteImport (Sample.world Sample.mapping false)
                (Sample.config false [Sample.mountSrc])
                MountPass "/p/out/index.js" "./util" (initialState Sample.tree)
  = Ok "./util.js" (initialState Sample.tree)
  /\ rewriteImport (Sample.world Sample.mapping false)
                (Sample.config false [Sample.mountSrc])
                   BuildPass "/p/out/a.js" "../lib/util" Sample.declared
     = Ok "../lib/util.js" Sample.declared
  /\ rewriteImport (Sample.world Sample.mapping false)
                (Sample.config true [Sample.mountSrc])
                   PluginPass "/p/.build/App.js" "/shared/util" Sample.declared
     = Ok "/shared/util.js" Sample.declared.
Proof.
  split; [|split].
  - apply (C9_extensionless_specifier_appends_js
             (Sample.world Sample.mapping false)
                (Sample.config false [Sample.mountSrc])
             MountPass "/p/out/index.js" "./util" (initialState Sample.tree));
      reflexivity.
  - apply (C9_extensionless_specifier_appends_js
             (Sample.world Sample.mapping false)
                (Sample.config false [Sample.mountSrc])
             BuildPass "/p/out/a.js" "../lib/util" Sample.declared);
      reflexivity.
  - apply (C9_extensionless_specifier_appends_js
             (Sample.world Sample.mapping false)
                (Sample.config true [Sample.mountSrc])
             PluginPass "/p/.build/App.js" "/shared/util" Sample.declared);
      reflexivity.
Defined.



(** * Further properties of the pipeline *)

(** X1.  One iteration of the mount loop always answers, whatever its
    tasks do.  What it adds to the bus is the [RUNNING] update of the
    mount, then notices of missing modules only, then the end of the
    mount: either one [WORKER_COMPLETE] without error, and the file set of
    the mount is pushed onto [includeFileSets]; or a [WORKER_MSG] with the
    error followed by one [WORKER_COMPLETE] with that error, and nothing
    is pushed.  The notices are those of the tasks that have run by the
    time the mount ends.  A mount all of whose files are deferred to the
    workers, which includes a mount without files, ends without error and
    without notice, and hands all of them on. *)
Theorem X1_mount_always_completes
        (w : World) (cwd : string) (config : Config)
        (id dirDisk dirDest : string) (st : state) :
  exists report st',
    wellReported report = true
    /\ mountOne w cwd config (id, dirDisk, dirDest) st
       = Ok (reportSet (id, dirDisk, dirDest) report) st'
    /\ bus st' = bus st ++ reportEvents id report
    /\ (forallb (registered config)
                (map (Path.resolve cwd)
                     (List.filter (fun f => negb (excluded w f))
                                  (Fs.filesUnder dirDisk (disk st)))) = true ->
        report
        = {| notices := [];
             ending := inr (map (Path.resolve cwd)
                              (List.filter (fun f => negb (excluded w f))
                                           (Fs.filesUnder dirDisk (disk st)))) |}).
Proof. apply mountOne_report. Qed.

(** X2.  The mount-level pass never throws, and the loop goes on after a
    mount that fails.  There is one report for every mount: the bus gets
    the events of the reports in the order of the mounts, so every mount
    is started and ended exactly once, a failing one with its error; and
    the file sets handed to the workers are those of the mounts that
    ended without error, in that order, a failing mount being left
    out. *)
Theorem X2_mount_pass_never_throws
        (w : World) (cwd : string) (config : Config)
        (details : list (string * string * string)) (st : state) :
  exists reports st',
    List.length reports = List.length details
    /\ forallb wellReported reports = true
    /\ mountAll w cwd config details st = Ok (reportsSets details reports) st'
    /\ bus st' = bus st ++ reportsEvents details reports.
Proof. apply mountAll_reported. Qed.

(** X3.  The files a mount hands to the workers are the files of the
    mounted directory that are not excluded and whose extension some
    build or plugin script declares, in the order of enumeration. *)
Theorem X3_deferred_files_are_the_registered_ones
        (w : World) (cwd : string) (config : Config)
        (id dirDisk dirDest : string) (needed : list string) (st st' : state) :
  mountOne w cwd config (id, dirDisk, dirDest) st
  = Ok (Some (dirDisk, dirDest, needed)) st' ->
  needed
  = List.filter (registered config)
      (map (Path.resolve cwd)
           (List.filter (fun f => negb (excluded w f))
                        (Fs.filesUnder dirDisk (disk st)))).
Proof.
  unfold mountOne. unfold bind at 1. unfold emit at 1.
  unfold bind at 1. unfold globSync at 1, bind at 1, getDisk at 1, ret at 1.
  cbn [disk].
  set (files := List.filter _ (Fs.filesUnder dirDisk (disk st))).
  set (st1 := {| bus := _; disk := disk st; allBuiltFromFiles := _;
                 allProxiedFiles := _ |}).
  pose proof (settleAll_needed w cwd config dirDisk dirDest files st1) as Hneeded.
  destruct (settleAll w cwd config dirDisk dirDest files st1) as [[got [err|]] st2];
    intros H; [discriminate|].
  cbn [fst] in Hneeded. inversion H; subst. reflexivity.
Qed.

Lemma X3_witness :
  ["/p/src/a.ts"; "/p/src/b.ts"]
  = List.filter
      (registered (Sample.config false
                     [Sample.mountSrc; ("build:ts", Sample.script "tsc $FILE")]))
      (map (Path.resolve "/p")
           (List.filter (fun f => negb (excluded (Sample.world Sample.noRemap false) f))
                        (Fs.filesUnder "/p/src" (disk (initialState Sample.tree))))).
Proof.
  apply (X3_deferred_files_are_the_registered_ones
           (Sample.world Sample.noRemap false) "/p"
           (Sample.config false
              [Sample.mountSrc; ("build:ts", Sample.script "tsc $FILE")])
           "mount:src" "/p/src" "/p/out" ["/p/src/a.ts"; "/p/src/b.ts"]
           (initialState Sample.tree)
           (finalState
              (mountOne (Sample.world Sample.noRemap false) "/p"
                 (Sample.config false
                    [Sample.mountSrc; ("build:ts", Sample.script "tsc $FILE")])
                 ("mount:src", "/p/src", "/p/out") (initialState Sample.tree)))).
  vm_compute. reflexivity.
Defined.

(** X4.  A mount writes below its destination only.  On a disk whose
    paths are absolute and normalised, and for a destination without
    dollar sign, which [replace] would read as a pattern, whatever existed
    outside the destination directory before the mount is there unchanged
    after it, whether its tasks succeed or fail. *)
Theorem X4_mount_writes_below_its_destination
        (w : World) (cwd : string) (config : Config)
        (id dirDisk dirDest p : string) (n : node) (st : state) :
  noDollar dirDest = true ->
  canonicalDisk (disk st) = true ->
  Fs.lookup p (disk st) = Some n ->
  Fs.under dirDest p = false ->
  Fs.lookup p (disk (finalState
                       (mountOne w cwd config (id, dirDisk, dirDest) st)))
  = Some n.
Proof.
  intros Hdest Hdisk Hp Hout.
  apply (mountOne_outside w cwd config id dirDisk dirDest st Hdest Hdisk p n Hp).
  unfold below. congruence.
Qed.

Lemma X4_witness :
  Fs.lookup "/p/src/index.js"
    (disk (finalState
             (mountOne (Sample.world Sample.noRemap false) "/p"
                (Sample.config false [Sample.mountSrc])
                ("mount:src", "/p/src", "/p/out") (initialState Sample.tree))))
  = Some (File [Text "import "; Import "./util"; Import "vue"]).
Proof.
  apply (X4_mount_writes_below_its_destination
           (Sample.world Sample.noRemap false) "/p"
           (Sample.config false [Sample.mountSrc])
           "mount:src" "/p/src" "/p/out" "/p/src/index.js"); reflexivity.
Defined.

(** X5.  The build and plugin workers write below the destinations of the
    mounts only.  The destinations hold no dollar sign, which [replace]
    would read as a pattern, and the keys of the extension table are plain
    names, which the patterns built from them match as they are.  When
    every file of every set lies below the mounted directory of its set,
    whatever existed outside all the destination directories before the
    worker pass is there unchanged after it.  This is about what the
    function itself writes: a build command or a plugin is a function of
    the disk here, and what it may write on its own is not part of the
    model. *)
Theorem X5_workers_write_below_the_destinations
        (w : World) (config : Config) (workers : list (string * DevScript))
        (sets : list (string * string * list string))
        (p : string) (n : node) (st : state) :
  plainTable (srcFileExtensionMapping w) = true ->
  (forall dirDisk dirDest files,
      In (dirDisk, dirDest, files) sets -> noDollar dirDest = true) ->
  (forall dirDisk dirDest files f,
      In (dirDisk, dirDest, files) sets -> In f files ->
      Fs.under dirDisk f = true) ->
  (forall dirDisk dirDest files,
      In (dirDisk, dirDest, files) sets -> Fs.under dirDest p = false) ->
  Fs.lookup p (disk st) = Some n ->
  Fs.lookup p (disk (finalState (workerPass w config workers sets st)))
  = Some n.
Proof.
  intros _ Hdest Hsets Hout Hp.
  apply (workerPass_outside w config workers sets Hdest Hsets st p n Hp).
  intros (dirDisk & dirDest & files & Hin & Hunder).
  rewrite (Hout _ _ _ Hin) in Hunder. discriminate.
Qed.

Lemma X5_witness :
  Fs.lookup "/p/src/a.ts"
    (disk (finalState
             (workerPass (Sample.world Sample.mapping false)
                (Sample.config false [Sample.mountSrc])
                [("build:ts", Sample.script "tsc $FILE")]
                [("/p/src", "/p/out", ["/p/src/a.ts"; "/p/src/b.ts"])]
                Sample.declared)))
  = Some (File [Text "a"]).
Proof.
  apply (X5_workers_write_below_the_destinations
           (Sample.world Sample.mapping false)
           (Sample.config false [Sample.mountSrc])
           [("build:ts", Sample.script "tsc $FILE")]
           [("/p/src", "/p/out", ["/p/src/a.ts"; "/p/src/b.ts"])]
           "/p/src/a.ts" (File [Text "a"]) Sample.declared).
  - vm_compute. reflexivity.
  - intros dirDisk dirDest files [H | []]. inversion H; subst. reflexivity.
  - intros dirDisk dirDest files f [H | []] Hf. inversion H; subst.
    destruct Hf as [<- | [<- | []]]; reflexivity.
  - intros dirDisk dirDest files [H | []]. inversion H; subst. reflexivity.
  - reflexivity.
Defined.

(** X6.  A mount command with further tokens but no [--to] option passes
    the loop that validates the mount scripts, so the output directories
    are emptied; the run then fails on the missing destination, with a
    [TypeError] of [path.resolve], and the disk is left as the cleaning
    left it.  None of the tokens after [mount] starts with a dash, which
    is when the option parser reports no [to]; a command that ends with
    white space is of this kind, its last token being empty. *)
Theorem X6_mount_without_destination_fails_after_cleaning
        (w : World) (cwd : string) (config : Config)
        (id : string) (script : DevScript) (src x : string)
        (rest : list string) (st st1 : state) :
  forallb wellFormedMount (scripts config) = true ->
  In (id, script) (scripts config) ->
  Js.startsWith id "mount:" = true ->
  Js.splitWs (cmd script) = "mount" :: src :: x :: rest ->
  forallb positional (src :: x :: rest) = true ->
  cleanOutput w cwd config st = Ok tt st1 ->
  exists st2,
    command w cwd config st = Throw typeError st2 /\ disk st2 = disk st1.
Proof.
  intros Hwf Hin Hid Hsplit Hargs Hclean.
  unfold command, allRegisteredWorkers.
  destruct (scripts config) as [|e es] eqn:Hscripts; [contradiction|].
  cbn [List.length Nat.eqb]. unfold bind at 1.
  destruct (mountedDirectories_wellFormed cwd (e :: es) st Hwf) as [dirs ->].
  unfold bind at 1. rewrite Hclean. unfold afterClean.
  unfold bind at 1.
  assert (Hskip : exists st2,
             (if negb (isBundled w config)
              then emit (WORKER_UPDATE "bundle:*" "SKIP") else ret tt) st1
             = Ok tt st2 /\ disk st2 = disk st1).
  { destruct (negb (isBundled w config)); eexists; split; reflexivity. }
  destruct Hskip as (st2 & -> & Hd2).
  unfold bind at 1.
  destruct (startLintWorkers_answers w (relevantWorkers config) st2)
    as (ps & st3 & -> & Hd3).
  unfold bind at 1.
  rewrite (mountDirDetails_positional w cwd config (relevantWorkers config)
             id script src x rest st3).
  - exists st3. split; [reflexivity | congruence].
  - apply relevantWorkers_wellFormed. now rewrite Hscripts.
  - apply relevantWorkers_mount; [now rewrite Hscripts | exact Hid].
  - exact Hid.
  - exact Hsplit.
  - exact Hargs.
Qed.

Lemma X6_witness :
  exists st2,
    command (Sample.world Sample.noRemap false) "/p"
            (Sample.config false [("mount:src", Sample.script "mount src ")])
            (initialState Sample.tree)
    = Throw typeError st2
    /\ disk st2
       = disk (finalState
                 (cleanOutput (Sample.world Sample.noRemap false) "/p"
                    (Sample.config false [("mount:src", Sample.script "mount src ")])
                    (initialState Sample.tree))).
Proof.
  apply (X6_mount_without_destination_fails_after_cleaning
           (Sample.world Sample.noRemap false) "/p"
           (Sample.config false [("mount:src", Sample.script "mount src ")])
           "mount:src" (Sample.script "mount src ") "src" EmptyString []).
  - reflexivity.
  - left. reflexivity.
  - reflexivity.
  - reflexivity.
  - reflexivity.
  - vm_compute. reflexivity.
Defined.

(** X7.  The routing test is complete for the registry.  For every file
    whose extension is in the registry of build extensions, which is the
    test by which the mount-level pass defers a file, one of the relevant
    workers is a build or plugin script whose id passes the routing test
    of the worker loop for that file; and the body of the loop, run with
    that worker on that file, is the build command or the plugin of the
    worker, not a skip.  Whether the loop gets there is another matter:
    it does not when the mount has failed or an earlier file has made a
    worker throw. *)
Theorem X7_deferred_file_is_taken_by_a_worker
        (w : World) (config : Config) (f : string) :
  registered config f = true ->
  exists id workerConfig,
    In (id, workerConfig) (relevantWorkers config)
    /\ isTransformer id = true
    /\ takesFile id f = true
    /\ forall dirDisk dirDest,
        Js.startsWith id "build:" = true
        /\ transformFile w config id workerConfig dirDisk dirDest f
           = runBuildWorker w config workerConfig dirDisk dirDest f
        \/ Js.startsWith id "plugin:" = true
           /\ transformFile w config id workerConfig dirDisk dirDest f
              = runPluginWorker w config id workerConfig dirDisk dirDest f.
Proof.
  intros Hreg.
  destruct (registered_taken config f Hreg)
    as (id & workerConfig & Hin & Hid & Htakes).
  exists id, workerConfig. repeat split; try assumption.
  intros dirDisk dirDest. now apply transformFile_taken.
Qed.

Lemma X7_witness :
  exists id workerConfig,
    In (id, workerConfig)
       (relevantWorkers
          (Sample.config false
             [Sample.mountSrc; ("build:ts,tsx", Sample.script "tsc $FILE")]))
    /\ isTransformer id = true
    /\ takesFile id "/p/src/App.tsx" = true
    /\ forall dirDisk dirDest,
        Js.startsWith id "build:" = true
        /\ transformFile (Sample.world Sample.mapping false)
             (Sample.config false
                [Sample.mountSrc; ("build:ts,tsx", Sample.script "tsc $FILE")])
             id workerConfig dirDisk dirDest "/p/src/App.tsx"
           = runBuildWorker (Sample.world Sample.mapping false)
               (Sample.config false
                  [Sample.mountSrc; ("build:ts,tsx", Sample.script "tsc $FILE")])
               workerConfig dirDisk dirDest "/p/src/App.tsx"
        \/ Js.startsWith id "plugin:" = true
           /\ transformFile (Sample.world Sample.mapping false)
                (Sample.config false
                   [Sample.mountSrc; ("build:ts,tsx", Sample.script "tsc $FILE")])
                id workerConfig dirDisk dirDest "/p/src/App.tsx"
              = runPluginWorker (Sample.world Sample.mapping false)
                  (Sample.config false
                     [Sample.mountSrc; ("build:ts,tsx", Sample.script "tsc $FILE")])
                  id workerConfig dirDisk dirDest "/p/src/App.tsx".
Proof.
  apply (X7_deferred_file_is_taken_by_a_worker
           (Sample.world Sample.mapping false)
           (Sample.config false
              [Sample.mountSrc; ("build:ts,tsx", Sample.script "tsc $FILE")])
           "/p/src/App.tsx").
  reflexivity.
Defined.

(** X8.  The rewriter never answers a bare specifier.  Unless the
    specifier starts with [http], in which case it is returned as it is,
    whatever a rewriter returns starts with [/], [./] or [../], in each
    of the three passes. *)
Theorem X8_rewritten_specifier_is_a_path
        (w : World) (config : Config) (p : pass) (outPath spec s' : string)
        (st st' : state) :
  Js.startsWith spec "http" = false ->
  rewriteImport w config p outPath spec st = Ok s' st' ->
  isPathSpec s' = true.
Proof. apply rewriteImport_isPathSpec. Qed.

Lemma X8_witness :
  rewriteImport (Sample.world Sample.mapping false)
                (Sample.config false [Sample.mountSrc])
                BuildPass "/p/out/a.js" "../lib/Button.ts" Sample.declared
  = Ok "../lib/Button.js" Sample.declared
  /\ isPathSpec "../lib/Button.js" = true.
Proof.
  assert (Hrun : rewriteImport (Sample.world Sample.mapping false)
                   (Sample.config false [Sample.mountSrc])
                   BuildPass "/p/out/a.js" "../lib/Button.ts" Sample.declared
                 = Ok "../lib/Button.js" Sample.declared) by reflexivity.
  split; [exact Hrun|].
  exact (X8_rewritten_specifier_is_a_path
           (Sample.world Sample.mapping false)
           (Sample.config false [Sample.mountSrc])
           BuildPass "/p/out/a.js" "../lib/Button.ts" "../lib/Button.js"
           Sample.declared Sample.declared eq_refl Hrun).
Defined.



(** X10.  A bare specifier that the dependency import map holds is
    rewritten to the target of the map resolved below [/web_modules]; the
    target is a relative path, written with or without a leading [./].
    Nothing is published and nothing is recorded. *)
Theorem X10_mapped_specifier
        (w : World) (config : Config) (p : pass) (outPath spec target : string)
        (segs : list string) (st : state) :
  isBare spec = true ->
  plainSegs segs = true ->
  target = relPath segs \/ target = "./" +:+ relPath segs ->
  dependencyImportMap w !! spec = Some target ->
  rewriteImport w config p outPath spec st
  = Ok ("/web_modules" +:+ Path.joinSegs segs) st.
Proof. apply rewriteImport_mapped. Qed.

Lemma X10_witness :
  rewriteImport (Sample.worldWithImports (<["vue" := "./vue/dist/vue.js"]> ∅))
                (Sample.config false [Sample.mountSrc])
                MountPass "/p/out/index.js" "vue" (initialState Sample.tree)
  = Ok "/web_modules/vue/dist/vue.js" (initialState Sample.tree).
Proof.
  apply (X10_mapped_specifier
           (Sample.worldWithImports (<["vue" := "./vue/dist/vue.js"]> ∅))
           (Sample.config false [Sample.mountSrc])
           MountPass "/p/out/index.js" "vue" "./vue/dist/vue.js"
           ["vue"; "dist"; "vue.js"] (initialState Sample.tree)).
  - reflexivity.
  - reflexivity.
  - right. reflexivity.
  - reflexivity.
Defined.

(** X11.  When the proxy pass returns, every recorded target has its
    proxy module next to it: a regular file named after the target with
    [.proxy.js] appended. *)
Theorem X11_every_target_gets_its_proxy
        (w : World) (cwd : string) (config : Config)
        (locs : list string) (loc : string) (st st' : state) :
  allProxiedFiles st = Some locs ->
  proxyPass w cwd config st = Ok tt st' ->
  In loc locs ->
  exists c, Fs.lookup (loc +:+ ".proxy.js") (disk st') = Some (File c).
Proof.
  intros Hlocs Hrun Hin. unfold proxyPass in Hrun. rewrite Hlocs in Hrun.
  exact (writeProxies_written w cwd config locs st st' Hrun loc Hin).
Qed.

Lemma X11_witness :
  exists c,
    Fs.lookup "/p/src/logo.svg.proxy.js"
      (disk (finalState
               (proxyPass (Sample.world Sample.noRemap false) "/p"
                  (Sample.config false [Sample.mountSrc])
                  {| bus := []; disk := Sample.tree;
                     allBuiltFromFiles := Some [];
                     allProxiedFiles := Some ["/p/src/logo.svg"] |})))
    = Some (File c).
Proof.
  apply (X11_every_target_gets_its_proxy
           (Sample.world Sample.noRemap false) "/p"
           (Sample.config false [Sample.mountSrc])
           ["/p/src/logo.svg"] "/p/src/logo.svg"
           {| bus := []; disk := Sample.tree;
              allBuiltFromFiles := Some [];
              allProxiedFiles := Some ["/p/src/logo.svg"] |}).
  - reflexivity.
  - vm_compute. reflexivity.
  - left. reflexivity.
Defined.

(** X12.  A file of a mount that no build or plugin script registers and
    that is not a script is copied as it is: when its task succeeds, the
    output path holds the content of the source, and nothing has been
    published.  The output path is what [replace] makes of the path of
    the file, with the mounted directory as the text to find and the
    destination as the replacement, patterns included. *)
Theorem X12_asset_is_copied_verbatim
        (w : World) (cwd : string) (config : Config)
        (dirDisk dirDest f : string) (c : code) (r : option string)
        (st st' : state) :
  registered config (Path.resolve cwd f) = false ->
  Path.extname (Path.resolve cwd f) <> ".js" ->
  Fs.lookup (Path.resolve cwd f) (disk st) = Some (File c) ->
  mountFileTask w cwd config dirDisk dirDest f st = Ok r st' ->
  Fs.lookup (Js.replace (Path.resolve cwd f) dirDisk dirDest) (disk st')
  = Some (File c)
  /\ bus st' = bus st.
Proof.
  intros Hreg Hext Hfile Hrun.
  now destruct (mountFileTask_copy w cwd config dirDisk dirDest f c st r st'
                  Hreg Hext Hfile Hrun) as (_ & Hcopy & Hbus).
Qed.

Lemma X12_witness :
  Fs.lookup (Js.replace (Path.resolve "/p" "/p/src/logo.svg") "/p/src" "/p/out")
    (disk (finalState
             (mountFileTask (Sample.world Sample.noRemap false) "/p"
                (Sample.config false [Sample.mountSrc])
                "/p/src" "/p/out" "/p/src/logo.svg" (initialState Sample.tree))))
  = Some (File [Text "<svg/>"])
  /\ bus (finalState
            (mountFileTask (Sample.world Sample.noRemap false) "/p"
               (Sample.config false [Sample.mountSrc])
               "/p/src" "/p/out" "/p/src/logo.svg" (initialState Sample.tree)))
     = bus (initialState Sample.tree).
Proof.
  apply (X12_asset_is_copied_verbatim
           (Sample.world Sample.noRemap false) "/p"
           (Sample.config false [Sample.mountSrc])
           "/p/src" "/p/out" "/p/src/logo.svg" [Text "<svg/>"] None
           (initialState Sample.tree)).
  - reflexivity.
  - vm_compute. discriminate.
  - reflexivity.
  - vm_compute. reflexivity.
Defined.

(** X13.  Where a mount goes.  With [--to .] the destination is the
    build root itself; with an absolute normalised path after [--to] the
    destination is that path, wherever the build root is.  The working
    directory and the output directory are normalised absolute paths and
    the source is a directory name made of letters. *)
Theorem X13_destination_of_a_mount
        (w : World) (config : Config) (cwdSegs outSegs destSegs : list string)
        (id src : string) (watching : option string) (st : state) :
  Js.startsWith id "mount:" = true ->
  plainSegs cwdSegs = true ->
  plainSegs outSegs = true ->
  out config = Path.joinSegs outSegs ->
  isWord src = true ->
  plainSegs destSegs = true ->
  noSpace (Path.joinSegs destSegs) = true ->
  let cwd := Path.joinSegs cwdSegs in
  let buildRoot := buildDirectoryLoc w cwd config in
  mountDirDetail w cwd config
    (id, {| cmd := "mount " +:+ src +:+ " --to ."; watch := watching |}) st
  = Ok (Some (id, cwd +:+ "/" +:+ src, buildRoot)) st
  /\ mountDirDetail w cwd config
       (id, {| cmd := "mount " +:+ src +:+ " --to " +:+ Path.joinSegs destSegs;
               watch := watching |}) st
     = Ok (Some (id, cwd +:+ "/" +:+ src, Path.joinSegs destSegs)) st.
Proof.
  intros Hid Hcwd Hout Heq Hsrc Hdest Hspace cwd buildRoot.
  destruct (buildDirectoryLoc_plain w config cwdSegs outSegs Hcwd Hout Heq)
    as (bSegs & Hb & Hbuild).
  fold cwd in Hbuild. fold buildRoot in Hbuild.
  pose proof (plainSegs_forallb _ Hcwd) as Hcwd'.
  pose proof (isWord_plainSeg _ Hsrc) as Hsrc'.
  split.
  - change ("mount " +:+ src +:+ " --to .")
      with ("mount " +:+ src +:+ " --to " +:+ ".").
    rewrite (mountDirDetail_to w cwd config id src "." watching st Hid Hsrc eq_refl).
    fold buildRoot. rewrite Hbuild, (resolve_dot _ Hb).
    unfold cwd. now rewrite resolve_child.
  - rewrite (mountDirDetail_to w cwd config id src _ watching st Hid Hsrc Hspace).
    rewrite (resolve_absolute_plain _ _ Hdest).
    unfold cwd. now rewrite resolve_child.
Qed.

Lemma X13_witness :
  mountDirDetail (Sample.world Sample.noRemap false) "/p"
    (Sample.config true [Sample.mountSrc])
    ("mount:src", Sample.script "mount src --to .") (initialState Sample.tree)
  = Ok (Some ("mount:src", "/p/src", "/p/.build")) (initialState Sample.tree)
  /\ mountDirDetail (Sample.world Sample.noRemap false) "/p"
       (Sample.config true [Sample.mountSrc])
       ("mount:src", Sample.script "mount src --to /srv/www") (initialState Sample.tree)
     = Ok (Some ("mount:src", "/p/src", "/srv/www")) (initialState Sample.tree).
Proof.
  apply (X13_destination_of_a_mount
           (Sample.world Sample.noRemap false)
           (Sample.config true [Sample.mountSrc])
           ["p"] ["p"; "out"] ["srv"; "www"] "mount:src" "src" None
           (initialState Sample.tree)); reflexivity.
Defined.

(** X14.  A chunk of output that clears the screen once.  The handler
    publishes the reset first and the message last, with the sequence
    taken out; for a [:tsc] worker the test of line 160 runs on the text
    from which the sequence is already gone, so the [RUNNING] update is
    not among the events. *)
Theorem X14_screen_clear_resets_and_is_removed (id a b : string) :
  noEscape a = true ->
  noEscape b = true ->
  exists updates,
    onStdout id (a +:+ clearScreen +:+ b)
    = WORKER_RESET id :: updates ++ [Published (WORKER_MSG id "log" (a +:+ b))]
    /\ ~ In (Published (WORKER_UPDATE id "RUNNING")) updates.
Proof. apply onStdout_cleared. Qed.

Lemma X14_witness :
  exists updates,
    onStdout "lintall:tsc" ("" +:+ clearScreen +:+ "Starting compilation")
    = WORKER_RESET "lintall:tsc"
        :: updates ++ [Published (WORKER_MSG "lintall:tsc" "log"
                                    ("" +:+ "Starting compilation"))]
    /\ ~ In (Published (WORKER_UPDATE "lintall:tsc" "RUNNING")) updates.
Proof.
  apply (X14_screen_clear_resets_and_is_removed
           "lintall:tsc" "" "Starting compilation"); reflexivity.
Defined.

(** X15.  The error count of a [:tsc] worker.  The handler reads the
    count that follows the leftmost [Found] of the chunk and publishes
    the [ERROR] state exactly when that count is not the text [0]. *)
Theorem X15_error_state_follows_the_count (id pre ds post : string) :
  Js.endsWith id ":tsc" = true ->
  noEscape (pre +:+ "Found " +:+ ds +:+ " error" +:+ post) = true ->
  allChars (fun a => negb (Ascii.eqb a "F")) pre = true ->
  ds <> EmptyString ->
  allChars isDigit ds = true ->
  In (Published (WORKER_UPDATE id "ERROR"))
     (onStdout id (pre +:+ "Found " +:+ ds +:+ " error" +:+ post))
  <-> ds <> "0".
Proof. apply onStdout_count. Qed.

Lemma X15_witness :
  In (Published (WORKER_UPDATE "lintall:tsc" "ERROR"))
     (onStdout "lintall:tsc"
        ("12:00 - " +:+ "Found " +:+ "2" +:+ " error" +:+ "s. Watching for file changes."))
  <-> "2" <> "0".
Proof.
  apply (X15_error_state_follows_the_count
           "lintall:tsc" "12:00 - " "2" "s. Watching for file changes.");
    try reflexivity.
  discriminate.
Defined.

(** X16.  Without bundling, nothing is deleted once the output
    directories have been cleaned: a regular file that is on disk when
    [afterClean] starts is a regular file when it ends, whether the run
    succeeds or throws.  Its content may have been written anew. *)
Theorem X16_unbundled_run_deletes_no_file
        (w : World) (cwd : string) (config : Config) (q : string) (c : code)
        (st : state) :
  isBundled w config = false ->
  Fs.lookup q (disk st) = Some (File c) ->
  exists c',
    Fs.lookup q (disk (finalState (afterClean w cwd config st)))
    = Some (File c').
Proof.
  intros Hmode Hq. exact (afterClean_filesStay w cwd config Hmode st q c Hq).
Qed.

Lemma X16_witness :
  exists c',
    Fs.lookup "/p/src/a.ts"
      (disk (finalState
               (afterClean (Sample.world Sample.noRemap true) "/p"
                  (Sample.config false
                     [Sample.mountSrc; ("build:ts", Sample.script "tsc $FILE")])
                  (initialState Sample.tree))))
    = Some (File c').
Proof.
  apply (X16_unbundled_run_deletes_no_file
           (Sample.world Sample.noRemap true) "/p"
           (Sample.config false
              [Sample.mountSrc; ("build:ts", Sample.script "tsc $FILE")])
           "/p/src/a.ts" [Text "a"] (initialState Sample.tree)); reflexivity.
Defined.

(** X17.  A mount script whose command is the bare word [mount] names no
    directory: the loop that validates the mount scripts throws, and
    [command] ends with that exception before it has changed anything. *)
Theorem X17_mount_without_directory_fails_first
        (w : World) (cwd : string) (config : Config)
        (id : string) (script : DevScript) (st : state) :
  In (id, script) (scripts config) ->
  Js.startsWith id "mount:" = true ->
  Js.splitWs (cmd script) = ["mount"] ->
  exists e, command w cwd config st = Throw e st.
Proof.
  intros Hin Hid Hsplit. unfold command, allRegisteredWorkers.
  destruct (scripts config) as [|e es] eqn:Hscripts; [contradiction|].
  cbn [List.length Nat.eqb]. unfold bind at 1.
  destruct (mountedDirectories_no_directory cwd id script (e :: es) st
              Hin Hid Hsplit) as [err ->].
  eauto.
Qed.

Lemma X17_witness :
  exists e,
    command (Sample.world Sample.noRemap false) "/p"
            (Sample.config false
               [("build:ts", Sample.script "tsc $FILE");
                ("mount:src", Sample.script "mount")])
            (initialState Sample.tree)
    = Throw e (initialState Sample.tree).
Proof.
  apply (X17_mount_without_directory_fails_first
           (Sample.world Sample.noRemap false) "/p"
           (Sample.config false
              [("build:ts", Sample.script "tsc $FILE");
               ("mount:src", Sample.script "mount")])
           "mount:src" (Sample.script "mount") (initialState Sample.tree)).
  - right. left. reflexivity.
  - reflexivity.
  - reflexivity.
Defined.

(** X18.  A recorded target that is not on disk makes the proxy pass
    throw: the pass reads every target before it writes the proxy module
    of that target.  The target is not itself the proxy module of a
    recorded target, which the pass would have written on the way. *)
Theorem X18_missing_target_stops_the_proxy_pass
        (w : World) (cwd : string) (config : Config)
        (locs : list string) (loc : string) (st : state) :
  allProxiedFiles st = Some locs ->
  In loc locs ->
  (forall other, In other locs -> other +:+ ".proxy.js" <> loc) ->
  Fs.lookup loc (disk st) = None ->
  threw (proxyPass w cwd config st) = true.
Proof.
  intros Hlocs Hin Hother Hmissing. unfold proxyPass. rewrite Hlocs.
  now apply writeProxies_missing with (loc := loc).
Qed.

Lemma X18_witness :
  threw (proxyPass (Sample.world Sample.noRemap false) "/p"
           (Sample.config false [Sample.mountSrc])
           {| bus := []; disk := Sample.tree;
              allBuiltFromFiles := Some [];
              allProxiedFiles := Some ["/p/src/logo.svg"; "/p/out/theme.css"] |})
  = true.
Proof.
  apply (X18_missing_target_stops_the_proxy_pass
           (Sample.world Sample.noRemap false) "/p"
           (Sample.config false [Sample.mountSrc])
           ["/p/src/logo.svg"; "/p/out/theme.css"] "/p/out/theme.css").
  - reflexivity.
  - right. left. reflexivity.
  - intros other [<- | [<- | []]]; discriminate.
  - reflexivity.
Defined.

(** X19.  A lint worker that fails fails the build, at the latest where
    the lint processes are awaited and before the proxy pass.  The run
    throws, and it ends in the state in which the part of the function up
    to the awaiting of the lint processes ends: either that part has
    thrown, with the same error, or it has answered that a lint process
    failed, and the error is that of the awaited process.  Nothing of what
    follows, the proxy pass first, has run. *)
Theorem X19_failing_lint_worker_fails_the_build
        (w : World) (cwd : string) (config : Config)
        (id : string) (script : DevScript) (st : state) :
  In (id, script) (scripts config) ->
  Js.startsWith id "lintall:" = true ->
  exitCode (execa w (disk st) (cmd script) EmptyString) <> 0 ->
  exists e st',
    afterClean w cwd config st = Throw e st'
    /\ (untilLintAwaited w cwd config st = Throw e st'
        \/ untilLintAwaited w cwd config st = Ok false st'
           /\ e = "Command failed").
Proof.
  intros Hin Hid Hexit. rewrite afterClean_split.
  destruct (untilLintAwaited w cwd config st) as [ok st1|e st1] eqn:Hrun.
  - assert (Hok : ok = false).
    { exact (untilLintAwaited_failed w cwd config id script st ok st1
               Hin Hid Hexit Hrun). }
    subst ok.
    exists "Command failed", st1. rewrite (bind_ok _ _ _ _ _ Hrun).
    split; [reflexivity | now right].
  - exists e, st1. rewrite (bind_throw _ _ _ _ _ Hrun).
    split; [reflexivity | now left].
Qed.

Lemma X19_witness :
  exists e st',
    afterClean Sample.worldWithLinter "/p"
      (Sample.config false
         [Sample.mountSrc; ("lintall:eslint", Sample.script "eslint src")])
      (initialState Sample.tree)
    = Throw e st'
    /\ (untilLintAwaited Sample.worldWithLinter "/p"
          (Sample.config false
             [Sample.mountSrc; ("lintall:eslint", Sample.script "eslint src")])
          (initialState Sample.tree)
        = Throw e st'
        \/ untilLintAwaited Sample.worldWithLinter "/p"
             (Sample.config false
                [Sample.mountSrc; ("lintall:eslint", Sample.script "eslint src")])
             (initialState Sample.tree)
           = Ok false st'
           /\ e = "Command failed").
Proof.
  apply (X19_failing_lint_worker_fails_the_build
           Sample.worldWithLinter "/p"
           (Sample.config false
              [Sample.mountSrc; ("lintall:eslint", Sample.script "eslint src")])
           "lintall:eslint" (Sample.script "eslint src")
           (initialState Sample.tree)).
  - right. left. reflexivity.
  - reflexivity.
  - vm_compute. discriminate.
Defined.
